(** * Talabat UAE order analysis: a shallow embedding of [talabat_analysis.py]

    The program is a straight-line pandas pipeline:
    load -> explore -> daily trends -> city trends -> charts -> insights.

    The embedding has three layers.
    - Operations on columns and frames ([groupby_size], [roll_mean],
      [nlargest], [value_counts], ...).  Each follows the behaviour of the
      pandas call the script makes, with the defaults the script relies
      on ([dropna=True], [sort=True], [min_periods = window],
      [keep='first']).
    - The six functions of the script, written in a small monad: the
      state is the one order table [df] that [main] hands to every stage,
      the writer collects what is printed and saved, the error is the
      uncaught Python exception.
    - [main], which additionally reads the wall clock.

    What lies outside the script -- the file system, the timestamp
    parser of the pandas installation, the chart writer, the clock -- is
    a parameter [Env].

    The float64 numbers that pandas computes (means, medians, sums,
    the rolling mean) are idealised as exact rationals ([Q]); equality of
    computed numbers is therefore stated with [==].  Where the script
    prints such a number with [{:.1f}] or [{:.2f}], the float that the
    format is handed is the binary64 number nearest to it ([f64]), and
    the digits are those of that float ([printed]).  For a column of
    whole numbers whose sum stays below [2 ^ 53] this is the float pandas
    computes; for other columns it leaves out the round-off of the
    additions.  The one float computation of the script itself, the
    percentage [count / len(df) * 100], is carried out in binary64
    arithmetic step by step. *)

From Stdlib Require Import ZArith QArith Qround Qabs Qpower Lia Lqa.
From stdpp Require Import base list strings sorting.

Local Open Scope Z_scope.

(** ** Cell values *)

(** One cell of a column.  [VNull] stands for NaN, NaT and None alike;
    [VTs] is a [datetime64[ns]] instant (nanoseconds since the epoch),
    [VDate] a [datetime.date] (days since the epoch). *)
Inductive value : Type :=
| VNull
| VBool (b : bool)
| VInt (z : Z)
| VNum (q : Q)
| VStr (s : string)
| VTs (ns : Z)
| VDate (d : Z).

Abbreviation Series := (list value).

Definition is_null (v : value) : bool :=
  match v with VNull => true | _ => false end.

Definition notnull (v : value) : bool := negb (is_null v).

(** Position of a constructor, used only to order cells of different
    kinds.  A column read by pandas has a single dtype, so the order
    between kinds is never observed by the script. *)
Definition kind_rank (v : value) : Z :=
  match v with
  | VNull => 0 | VBool _ => 1 | VInt _ => 2 | VNum _ => 3
  | VStr _ => 4 | VTs _ => 5 | VDate _ => 6
  end.

Definition value_compare (a b : value) : comparison :=
  match a, b with
  | VNull, VNull => Eq
  | VBool x, VBool y => Bool.compare x y
  | VInt x, VInt y => Z.compare x y
  | VNum x, VNum y => Qcompare x y
  | VStr x, VStr y => String.compare x y
  | VTs x, VTs y => Z.compare x y
  | VDate x, VDate y => Z.compare x y
  | _, _ => Z.compare (kind_rank a) (kind_rank b)
  end.

Definition value_eqb (a b : value) : bool :=
  match value_compare a b with Eq => true | _ => false end.

(** Lexicographic order on pairs of cells, for the two-key grouping. *)
Definition pair_compare (a b : value * value) : comparison :=
  match value_compare (fst a) (fst b) with
  | Eq => value_compare (snd a) (snd b)
  | c => c
  end.

(** ** Comparison functions that are total orders *)

Class CmpOrder {K : Type} (cmp : K -> K -> comparison) : Prop := {
  cmp_refl : forall a, cmp a a = Eq;
  cmp_antisym : forall a b, cmp b a = CompOpp (cmp a b);
  cmp_lt_trans : forall a b c, cmp a b = Lt -> cmp b c = Lt -> cmp a c = Lt;
  cmp_eq_compat : forall a b c, cmp a b = Eq -> cmp a c = cmp b c
}.

(** ** Grouping rows by key *)

Definition is_Eq (c : comparison) : bool :=
  match c with Eq => true | _ => false end.

Section GroupBy.
Context {K V : Type} (cmp : K -> K -> comparison).

Definition cmp_lt (a b : K) : Prop := cmp a b = Lt.

(** Put one more row, with key [k] and payload [v], into a key-sorted
    table of groups.  A group keeps its rows in the order they arrive
    and is labelled by the key of its first row. *)
Fixpoint place (k : K) (v : V) (l : list (K * list V)) : list (K * list V) :=
  match l with
  | [] => [(k, [v])]
  | (k', vs) :: l' =>
      match cmp k k' with
      | Lt => (k, [v]) :: l
      | Eq => (k', vs ++ [v]) :: l'
      | Gt => (k', vs) :: place k v l'
      end
  end.

(** The groups of a table whose keys are not null: one entry per
    distinct key, keys ascending ([sort=True]). *)
Definition group_rows (rows : list (K * V)) : list (K * list V) :=
  fold_left (fun acc r => place (fst r) (snd r) acc) rows [].

(** Rows filed under a key equal to [k]. *)
Fixpoint members (k : K) (l : list (K * list V)) : list V :=
  match l with
  | [] => []
  | (k', vs) :: l' => if is_Eq (cmp k k') then vs else members k l'
  end.

(** Payloads of the rows whose key equals [k], in row order. *)
Definition rows_of (k : K) (rows : list (K * V)) : list V :=
  map snd (filter (fun r => is_Eq (cmp k (fst r)) = true) rows).

Definition total_rows (l : list (K * list V)) : nat :=
  sum_list (map (fun g => length (snd g)) l).

End GroupBy.

(** ** Stable descending sort *)

Section SortDesc.
Context {A : Type} (geb : A -> A -> bool).

Definition desc (a b : A) : Prop := geb a b = true.

(** Insert [x] in front of the first element it is not smaller than:
    among equals the earlier row stays first. *)
Fixpoint insert_desc (x : A) (l : list A) : list A :=
  match l with
  | [] => [x]
  | y :: l' => if geb x y then x :: l else y :: insert_desc x l'
  end.

Definition sort_desc (l : list A) : list A := foldr insert_desc [] l.

End SortDesc.

(** ** Rolling mean: [series.rolling(window).mean()] *)

(** A float64 array: [None] is NaN. *)
Abbreviation floats := (list (option Q)).

Definition Qsum (l : list Q) : Q := foldr Qplus 0%Q l.
Definition Zsum (l : list Z) : Z := foldr Z.add 0 l.

(** Cells [a, b) of an array. *)
Definition slice {A} (a b : nat) (l : list A) : list A := take (b - a) (drop a l).

(** Running state of pandas' window aggregation [roll_mean]: number of
    non-NaN observations in the window and their sum.  The Kahan
    compensation terms and the sign/constant-run corrections of the
    original only repair float round-off and vanish in exact arithmetic. *)
Record mean_state := { nobs : nat; sum_x : Q }.

Definition mean_zero : mean_state := {| nobs := 0; sum_x := 0 |}.

Definition add_mean (st : mean_state) (val : option Q) : mean_state :=
  match val with
  | Some x => {| nobs := S (nobs st); sum_x := sum_x st + x |}
  | None => st
  end.

Definition remove_mean (st : mean_state) (val : option Q) : mean_state :=
  match val with
  | Some x => {| nobs := pred (nobs st); sum_x := sum_x st - x |}
  | None => st
  end.

Definition Qnat (n : nat) : Q := inject_Z (Z.of_nat n).

Definition calc_mean (minp : nat) (st : mean_state) : value :=
  if ((minp <=? nobs st)%nat && (0 <? nobs st)%nat)%bool
  then VNum (sum_x st / Qnat (nobs st))
  else VNull.

(** Bounds of the fixed trailing window that ends at row [i]
    (closed on the right): rows [max 0 (i+1-window), i+1). *)
Definition win_start (window i : nat) : nat := (i + 1 - window)%nat.
Definition win_end (i : nat) : nat := (i + 1)%nat.

Fixpoint roll_mean_loop (window minp : nat) (values : floats)
    (todo i : nat) (st : mean_state) : list value :=
  match todo with
  | O => []
  | S todo' =>
      let s := win_start window i in
      let e := win_end i in
      let st' :=
        if ((i =? 0)%nat || (win_end (i - 1) <=? s)%nat)%bool
        then foldl add_mean mean_zero (slice s e values)
        else foldl add_mean
               (foldl remove_mean st (slice (win_start window (i - 1)) s values))
               (slice (win_end (i - 1)) e values) in
      calc_mean minp st' :: roll_mean_loop window minp values todo' (S i) st'
  end.

(** [min_periods] defaults to the window size. *)
Definition roll_mean (window : nat) (values : floats) : list value :=
  roll_mean_loop window window values (length values) 0 mean_zero.

(** The non-NaN cells of an array. *)
Definition observed (l : floats) : list Q := omap id l.

(** The state [st] summarises the window contents [l]. *)
Definition tracks (st : mean_state) (l : floats) : Prop :=
  nobs st = length (observed l) /\ (sum_x st == Qsum (observed l))%Q.

(** Integer counts seen as a float64 array. *)
Definition floats_of_ints (counts : list Z) : floats :=
  map (fun z => Some (inject_Z z)) counts.

(** ** Rounding for display *)

(** Nearest integer, ties to the even neighbour (what [round], [np.round]
    and the [.1f] format do on an exactly representable tie). *)
Definition round_half_even (q : Q) : Z :=
  let f := Qfloor q in
  match Qcompare (q - inject_Z f) (1 # 2) with
  | Lt => f
  | Gt => f + 1
  | Eq => if Z.even f then f else f + 1
  end.

Definition pow10 (d : nat) : Q := inject_Z (10 ^ Z.of_nat d).

(** Round to [d] decimals. *)
Definition round_dec (d : nat) (q : Q) : Q :=
  (inject_Z (round_half_even (q * pow10 d)) / pow10 d)%Q.

(** ** binary64 arithmetic *)

Definition pow2 (e : Z) : Q := Qpower 2 e.

(** Exponent of the leading bit of a number that is not zero:
    [2 ^ e <= |q| < 2 ^ (e + 1)]. *)
Definition ilog2 (q : Q) : Z :=
  let e := Z.log2 (Z.abs (Qnum q)) - Z.log2 (Zpos (Qden q)) in
  if Qle_bool (pow2 e) (Qabs q) then e else e - 1.

(** The binary64 number nearest to [q], ties to the even significand:
    53 significant bits, gradual underflow below [2 ^ -1022].  Overflow
    to infinity is left out. *)
Definition f64 (q : Q) : Q :=
  if Qeq_bool q 0 then 0%Q
  else
    let ulp := pow2 (Z.max (ilog2 q) (-1022) - 52) in
    (inject_Z (round_half_even (q / ulp)) * ulp)%Q.

(** Digits that the format [.df] prints for a binary64 number: the
    decimal nearest to its exact value, ties to even. *)
Definition printed (d : nat) (x : Q) : Q := round_dec d x.

(** ** Errors and console output *)

Inductive Err : Type :=
| FileNotFoundError (path : string)
| EmptyDataError
| ParserError
| KeyError (column : string)
| DateParseError (text : string)
| TypeError
| ValueError (what : string)
| SaveError (file : string)
| OutOfBoundsDatetime.

(** ** Column statistics *)

(** View a column as float64; text and dates have no numeric view. *)
Definition to_float (v : value) : Err + option Q :=
  match v with
  | VNull => inr None
  | VBool b => inr (Some (if b then 1 else 0)%Q)
  | VInt z => inr (Some (inject_Z z))
  | VNum q => inr (Some q)
  | VStr _ | VTs _ | VDate _ => inl TypeError
  end.

Fixpoint to_floats (s : Series) : Err + floats :=
  match s with
  | [] => inr []
  | v :: s' =>
      match to_float v with
      | inl e => inl e
      | inr x =>
          match to_floats s' with
          | inl e => inl e
          | inr xs => inr (x :: xs)
          end
      end
  end.

(** Mean of the non-null observations; NaN when there are none. *)
Definition mean_of (obs : list Q) : value :=
  match obs with
  | [] => VNull
  | _ => VNum (Qsum obs / Qnat (length obs))
  end.

Definition series_mean (s : Series) : Err + value :=
  match to_floats s with
  | inl e => inl e
  | inr xs => inr (mean_of (observed xs))
  end.

(** An int64 column: every cell is an integer. *)
Definition is_int (v : value) : bool :=
  match v with VInt _ => true | _ => false end.

Definition int_of (v : value) : Z :=
  match v with VInt z => z | _ => 0 end.

(** Two's-complement int64 arithmetic wraps around. *)
Definition wrap64 (z : Z) : Z := (z + 2 ^ 63) mod 2 ^ 64 - 2 ^ 63.

(** [col.sum()]: an int64 column is added up in int64, any other
    numeric column in float64, NaN left out. *)
Definition series_sum (s : Series) : Err + value :=
  match to_floats s with
  | inl e => inl e
  | inr xs =>
      if forallb is_int s
      then inr (VNum (inject_Z (wrap64 (Zsum (map int_of s)))))
      else inr (VNum (Qsum (observed xs)))
  end.

Definition Qleb (a b : Q) : bool := Qle_bool a b.

(** Median of the non-null observations: the middle one, or the mean of
    the two middle ones. *)
Definition median_of (obs : list Q) : value :=
  let sorted := sort_desc Qleb obs in
  let n := length sorted in
  match n with
  | O => VNull
  | _ =>
      if Nat.even n
      then VNum ((nth (n / 2 - 1) sorted 0 + nth (n / 2) sorted 0) / 2)%Q
      else VNum (nth (n / 2) sorted 0%Q)
  end.

Definition series_median (s : Series) : Err + value :=
  match to_floats s with
  | inl e => inl e
  | inr xs => inr (median_of (observed xs))
  end.

Definition value_geb (a b : value) : bool :=
  match value_compare a b with Lt => false | _ => true end.

Definition value_leb (a b : value) : bool := value_geb b a.

(** Largest and smallest non-null cell; NaN for an empty column. *)
Definition series_max (s : Series) : value :=
  match filter (fun v => notnull v = true) s with
  | [] => VNull
  | v :: vs => foldl (fun m x => if value_geb m x then m else x) v vs
  end.

Definition series_min (s : Series) : value :=
  match filter (fun v => notnull v = true) s with
  | [] => VNull
  | v :: vs => foldl (fun m x => if value_leb m x then m else x) v vs
  end.

(** [(col == 0).sum()]: cells equal to zero; text and nulls never are. *)
Definition is_zero (v : value) : bool :=
  match v with
  | VInt z => (z =? 0)%Z
  | VNum q => Qeq_bool q 0
  | VBool b => negb b
  | _ => false
  end.

Definition count_zero (s : Series) : Z :=
  Z.of_nat (length (filter (fun v => is_zero v = true) s)).

(** [(col < 0).sum()]: ordering text or dates against a number raises. *)
Definition is_negative (x : option Q) : bool :=
  match x with
  | Some q => negb (Qle_bool 0 q)
  | None => false
  end.

Definition count_negative (s : Series) : Err + Z :=
  match to_floats s with
  | inl e => inl e
  | inr xs => inr (Z.of_nat (length (filter (fun x => is_negative x = true) xs)))
  end.

(** [col.unique()]: distinct cells in order of first appearance; NaN is
    one of them. *)
Fixpoint unique (s : Series) : Series :=
  match s with
  | [] => []
  | v :: s' => v :: filter (fun x => value_eqb v x = false) (unique s')
  end.

(** What a format [{:.df}] shows of a number: the digits of the
    binary64 number nearest to it; NaN stays NaN. *)
Definition fmt (d : nat) (v : value) : Err + value :=
  match v with
  | VNull => inr VNull
  | VInt z => inr (VNum (printed d (f64 (inject_Z z))))
  | VNum q => inr (VNum (printed d (f64 q)))
  | VBool b => inr (VNum (if b then 1 else 0))
  | VStr _ | VTs _ | VDate _ => inl TypeError
  end.

(** ** Frames *)

(** A table: named columns over a common row count. *)
Record Frame := { nrows : nat; cols : list (string * Series) }.

Definition empty_frame : Frame := {| nrows := 0; cols := [] |}.

Fixpoint assoc (c : string) (l : list (string * Series)) : option Series :=
  match l with
  | [] => None
  | (c', s) :: l' => if String.eqb c c' then Some s else assoc c l'
  end.

Fixpoint set_assoc (c : string) (s : Series) (l : list (string * Series))
    : list (string * Series) :=
  match l with
  | [] => [(c, s)]
  | (c', s') :: l' =>
      if String.eqb c c' then (c, s) :: l' else (c', s') :: set_assoc c s l'
  end.

(** [f[c]] *)
Definition getcol (f : Frame) (c : string) : Err + Series :=
  match assoc c (cols f) with
  | Some s => inr s
  | None => inl (KeyError c)
  end.

(** [f[c] = s]: replace the column, or append a new one.  The script only
    assigns series computed from a column of the same frame, so the
    lengths agree. *)
Definition setcol (f : Frame) (c : string) (s : Series) : Frame :=
  {| nrows := nrows f; cols := set_assoc c s (cols f) |}.

(** [f[[c1, ..., cn]]] *)
Fixpoint select (f : Frame) (names : list string) : Err + list (string * Series) :=
  match names with
  | [] => inr []
  | c :: names' =>
      match getcol f c with
      | inl e => inl e
      | inr s =>
          match select f names' with
          | inl e => inl e
          | inr l => inr ((c, s) :: l)
          end
      end
  end.

(** [f.take(idx)]: the rows at the given positions, in that order. *)
Definition take_rows (f : Frame) (idx : list nat) : Frame :=
  {| nrows := length idx;
     cols := map (fun cs => (fst cs, map (fun i => nth i (snd cs) VNull) idx))
               (cols f) |}.

(** Every column has [nrows] cells. *)
Definition wf_frame (f : Frame) : Prop :=
  Forall (fun cs => length (snd cs) = nrows f) (cols f).

(** A Series with its index, as [groupby(...).size()] and
    [value_counts()] return it. *)
Abbreviation Indexed := (list (value * value)).

Definition int_cell (n : nat) : value := VInt (Z.of_nat n).

(** ** Grouped counts and means *)

(** [col-frame.groupby(key).size()]: rows with a null key are dropped
    ([dropna=True]). *)
Definition groupby_size (keys : Series) : list (value * nat) :=
  map (fun g => (fst g, length (snd g)))
    (group_rows value_compare
       (map (fun k => (k, tt)) (filter (fun k => notnull k = true) keys))).

Definition both_notnull (r : value * value) : bool :=
  (notnull (fst r) && notnull (snd r))%bool.

(** [groupby([key1, key2]).size()]: one entry per observed pair, ordered
    by the first key, then the second. *)
Definition groupby2_size (keys1 keys2 : Series)
    : list ((value * value) * nat) :=
  map (fun g => (fst g, length (snd g)))
    (group_rows pair_compare
       (map (fun r => (r, tt))
          (filter (fun r => both_notnull r = true) (zip keys1 keys2)))).

(** [.reset_index(name=...)]: index and sizes become two columns. *)
Definition reset_index (key name : string) (g : list (value * nat)) : Frame :=
  {| nrows := length g;
     cols := [(key, map fst g); (name, map (fun e => int_cell (snd e)) g)] |}.

Definition reset_index2 (key1 key2 name : string)
    (g : list ((value * value) * nat)) : Frame :=
  {| nrows := length g;
     cols := [(key1, map (fun e => fst (fst e)) g);
              (key2, map (fun e => snd (fst e)) g);
              (name, map (fun e => int_cell (snd e)) g)] |}.

(** [groupby(key)[col].mean()]: per key, the mean of the non-null cells
    of [col] in the rows of that key. *)
Definition groupby_mean (keys vals : Series) : Err + list (value * value) :=
  match to_floats vals with
  | inl e => inl e
  | inr xs =>
      inr (map (fun g => (fst g, mean_of (observed (snd g))))
             (group_rows value_compare
                (filter (fun r => notnull (fst r) = true) (zip keys xs))))
  end.

(** [series.sort_values(ascending=False)] on an indexed series.  Among
    equal values the order is that of the sorting algorithm; nothing
    stated below depends on it. *)
Definition sort_values_desc {A} (cell : A -> value) (s : list (value * A))
    : list (value * A) :=
  sort_desc (fun a b => value_geb (cell (snd a)) (cell (snd b))) s.

(** [col.value_counts()]: occurrences of each non-null cell, counted in
    order of first appearance, then sorted by count, largest first. *)
Fixpoint tally (k : value) (l : list (value * nat)) : list (value * nat) :=
  match l with
  | [] => [(k, 1%nat)]
  | (k', n) :: l' =>
      if value_eqb k k' then (k', S n) :: l' else (k', n) :: tally k l'
  end.

Definition tally_all (s : Series) : list (value * nat) :=
  fold_left (fun acc k => tally k acc) (filter (fun k => notnull k = true) s) [].

Definition value_counts (s : Series) : list (value * nat) :=
  sort_values_desc int_cell (tally_all s).

(** [frame.nlargest(n, c)]: the first [n] rows when the rows are put in
    descending order of their cell in [c], earlier rows first among
    equals ([keep='first']) and rows with a null cell last. *)
Definition by_cell_desc (a b : nat * value) : bool := value_geb (snd a) (snd b).

Definition largest_positions (n : nat) (s : Series) : list nat :=
  let rows := zip (seq 0 (length s)) s in
  map fst
    (take n (sort_desc by_cell_desc
               (filter (fun iv => notnull (snd iv) = true) rows)
             ++ filter (fun iv => is_null (snd iv) = true) rows)).

Definition nlargest (n : nat) (c : string) (f : Frame) : Err + Frame :=
  match getcol f c with
  | inl e => inl e
  | inr s => inr (take_rows f (largest_positions n s))
  end.

(** [df.isnull().sum()]: null cells per column. *)
Definition isnull_sum (f : Frame) : Indexed :=
  map (fun cs => (VStr (fst cs),
                  int_cell (length (filter (fun v => is_null v = true) (snd cs)))))
    (cols f).

(** ** Timestamps *)

Definition NS_PER_DAY : Z := 86400000000000.

(** Calendar day of an instant: the instant truncated to day granularity. *)
Definition day_of (ns : Z) : Z := ns / NS_PER_DAY.

(** First instant of a calendar day. *)
Definition midnight (d : Z) : Z := d * NS_PER_DAY.

(** [series.dt.date]; NaT stays NaT. *)
Definition date_cell (v : value) : value :=
  match v with
  | VTs ns => VDate (day_of ns)
  | _ => VNull
  end.

Definition dt_date (s : Series) : Series := map date_cell s.

(** ** The world outside the script *)

(** A delimited text file after tokenising and type inference: the
    names pandas gives the columns (the fields of the header line, a
    repeated or empty name already renamed) and the fields of every
    record. *)
Record CsvFile := { header : list string; records : list (list value) }.

Record Env := {
  (** content of the file at a path; [None] when missing or unreadable *)
  read_file : string -> option CsvFile;
  (** the timestamp parser behind [pd.to_datetime]; [None] on text that
      is not a timestamp *)
  parse_datetime : string -> option Z;
  (** whether a chart can be rendered and written to the given file *)
  can_save : string -> bool;
  (** [datetime.now()] at the k-th reading of the clock, formatted *)
  now : nat -> string
}.

(** Number of fields of the table: that of the header, or that of the
    first record when it has more. *)
Definition csv_width (csv : CsvFile) : nat :=
  Nat.max (length (header csv))
    (match records csv with [] => 0%nat | r :: _ => length r end).

(** Fields by which the first record exceeds the header.  pandas takes
    these leading fields of every record as the row labels, not as
    columns. *)
Definition csv_lead (csv : CsvFile) : nat :=
  (csv_width csv - length (header csv))%nat.

(** The frame of a tokenised file: column [j] collects, after the row
    labels, field [j] of every record; a record that is too short leaves
    NaN. *)
Definition csv_frame (csv : CsvFile) : Frame :=
  {| nrows := length (records csv);
     cols := imap (fun j c =>
                     (c, map (fun r => nth (csv_lead csv + j) r VNull) (records csv)))
               (header csv) |}.

(** [pd.read_csv]: a record with more fields than the table is a
    tokenising error. *)
Definition read_csv (env : Env) (path : string) : Err + Frame :=
  match read_file env path with
  | None => inl (FileNotFoundError path)
  | Some csv =>
      match header csv with
      | [] => inl EmptyDataError
      | _ =>
          if forallb (fun r => (length r <=? csv_width csv)%nat) (records csv)
          then inr (csv_frame csv)
          else inl ParserError
      end
  end.

(** Integral part of a rational, towards zero (a C cast to int64). *)
Definition Qtruncate (q : Q) : Z := Z.quot (Qnum q) (Zpos (Qden q)).

(** Counts of nanoseconds that are instants of [datetime64[ns]]: the
    int64 numbers but the smallest, which stands for NaT. *)
Definition NAT_INT64 : Z := - 2 ^ 63.

Definition is_ns (z : Z) : bool := ((NAT_INT64 <? z) && (z <? 2 ^ 63))%bool.

(** [pd.to_datetime] on one cell.  A number is a count of nanoseconds,
    of a fractional count the integral part; the smallest int64 number
    reads as NaT, and a count outside int64 is out of bounds.  The
    instants the parser returns and the midnights of calendar days are
    taken to lie within the range of [datetime64[ns]]. *)
Definition datetime_cell (env : Env) (v : value) : Err + value :=
  match v with
  | VNull => inr VNull
  | VStr s =>
      match parse_datetime env s with
      | Some ns => inr (VTs ns)
      | None => inl (DateParseError s)
      end
  | VTs ns => inr (VTs ns)
  | VDate d => inr (VTs (midnight d))
  | VInt z =>
      if (z =? NAT_INT64)%Z then inr VNull
      else if is_ns z then inr (VTs z)
      else inl OutOfBoundsDatetime
  | VNum q =>
      if (Qtruncate q =? NAT_INT64)%Z then inr VNull
      else if is_ns (Qtruncate q) then inr (VTs (Qtruncate q))
      else inl OutOfBoundsDatetime
  | VBool _ => inl TypeError
  end.

Fixpoint to_datetime (env : Env) (s : Series) : Err + Series :=
  match s with
  | [] => inr []
  | v :: s' =>
      match datetime_cell env v with
      | inl e => inl e
      | inr t =>
          match to_datetime env s' with
          | inl e => inl e
          | inr ts => inr (t :: ts)
          end
      end
  end.

(** ** Console and files written *)

Record LinePlot := {
  plot_data : Frame; plot_x : string; plot_y : string; plot_hue : option string
}.

Inductive Out : Type :=
| Line (text : string)                        (* a fixed line *)
| Stat (text : string) (args : list value)    (* an f-string and the values it formats *)
| Clock (text : string) (time : string)       (* a line that shows the wall clock *)
| ShowSeries (s : Indexed)                    (* print(series) *)
| ShowFrame (columns : list (string * Series)) (* print(frame) *)
| ShowInfo (f : Frame)                        (* df.info() *)
| ShowDescribe (f : Frame)                    (* print(df.describe()) *)
| SaveFig (file : string) (title : string) (plots : list LinePlot).

(** ** The monad of the script *)

(** A computation runs against the shared order table [df], prints to the
    console, and either raises or returns a value and the table. *)
Definition M (A : Type) : Type := Frame -> list Out * (Err + A * Frame).

#[global] Instance M_ret : MRet M := fun A a df => ([], inr (a, df)).

(** The outcome of a continuation, after [o] has been printed. *)
Definition after {A} (o : list Out) (r : list Out * (Err + A * Frame))
    : list Out * (Err + A * Frame) :=
  (o ++ fst r, snd r).

(** Sequencing: an error ends the computation, nothing handles it. *)
#[global] Instance M_bind : MBind M := fun A B k m df =>
  match m df with
  | (o, inl e) => (o, inl e)
  | (o, inr (a, df')) => after o (k a df')
  end.

Definition raise {A} (e : Err) : M A := fun _ => ([], inl e).

Definition print (o : Out) : M unit := fun df => ([o], inr (tt, df)).

Definition get_df : M Frame := fun df => ([], inr (df, df)).

Definition put_df (f : Frame) : M unit := fun _ => ([], inr (tt, f)).

(** Run a pandas call that may raise. *)
Definition lift {A} (r : Err + A) : M A :=
  match r with
  | inl e => raise e
  | inr a => mret a
  end.

(** [df[c]] *)
Definition col (c : string) : M Series := df ← get_df; lift (getcol df c).

(** [df[c] = s] *)
Definition set_col (c : string) (s : Series) : M unit :=
  df ← get_df; put_df (setcol df c s).

(** [len(df)] *)
Definition len_df : M nat := df ← get_df; mret (nrows df).

(** [for x in xs: print(line x)] *)
Fixpoint print_each {A} (line : A -> Out) (xs : list A) : M unit :=
  match xs with
  | [] => mret tt
  | x :: xs' => print (line x);; print_each line xs'
  end.

(** ** The script *)

Definition banner : string := "==================================================".

(** [load_and_prepare_data(file_path)]: the table it returns is the
    shared table from here on. *)
Definition load_and_prepare_data (env : Env) (file_path : string) : M unit :=
  print (Line "Loading dataset...");;
  df ← lift (read_csv env file_path);
  put_df df;;
  raw ← col "order_datetime";
  ts ← lift (to_datetime env raw);
  set_col "order_datetime" ts;;
  ts ← col "order_datetime";
  set_col "order_date" (dt_date ts);;
  n ← len_df;
  dates ← col "order_date";
  print (Stat "Dataset loaded: {} orders from {} days"
           [int_cell n; int_cell (length (unique dates))]).

(** [explore_data(df)] *)
Definition explore_data : M unit :=
  print (Line banner);;
  print (Line "DATA EXPLORATION");;
  print (Line banner);;
  print (Line "Dataset Info:");;
  df ← get_df;
  print (ShowInfo df);;
  print (Line "Summary Statistics:");;
  print (ShowDescribe df);;
  print (Line "Missing Values:");;
  print (ShowSeries (isnull_sum df));;
  print (Line "Data Quality Checks:");;
  v ← col "order_value";
  print (Stat "Zero order values: {}" [VInt (count_zero v)]);;
  t ← col "delivery_time_min";
  nt ← lift (count_negative t);
  print (Stat "Negative delivery times: {}" [VInt nt]);;
  f ← col "delivery_fee";
  nf ← lift (count_negative f);
  print (Stat "Negative delivery fees: {}" [VInt nf]).

(** The daily series built by [analyze_daily_trends]: one row per order
    date, its order count, and the 7-row rolling mean of the counts. *)
Definition daily_series (env : Env) (order_date : Series) : Err + Frame :=
  let daily_orders := reset_index "order_date" "order_count" (groupby_size order_date) in
  match getcol daily_orders "order_date" with
  | inl e => inl e
  | inr d =>
      match to_datetime env d with
      | inl e => inl e
      | inr ts =>
          let daily_orders := setcol daily_orders "order_date" ts in
          match getcol daily_orders "order_count" with
          | inl e => inl e
          | inr c =>
              match to_floats c with
              | inl e => inl e
              | inr xs => inr (setcol daily_orders "rolling_avg" (roll_mean 7 xs))
              end
          end
      end
  end.

(** [daily_orders.nlargest(5, 'order_count')[['order_date', 'order_count']]] *)
Definition busiest_days (daily_orders : Frame) : Err + list (string * Series) :=
  match nlargest 5 "order_count" daily_orders with
  | inl e => inl e
  | inr top => select top ["order_date"; "order_count"]
  end.

(** [analyze_daily_trends(df)] *)
Definition analyze_daily_trends (env : Env) : M Frame :=
  print (Line banner);;
  print (Line "DAILY TRENDS ANALYSIS");;
  print (Line banner);;
  order_date ← col "order_date";
  daily_orders ← lift (daily_series env order_date);
  print (Stat "Total days: {}" [int_cell (nrows daily_orders)]);;
  counts ← lift (getcol daily_orders "order_count");
  avg ← lift (series_mean counts);
  shown ← lift (fmt 1 avg);
  print (Stat "Average orders per day: {:.1f}" [shown]);;
  print (Stat "Max orders in a day: {}" [series_max counts]);;
  print (Stat "Min orders in a day: {}" [series_min counts]);;
  print (Line "Top 5 busiest days:");;
  top ← lift (busiest_days daily_orders);
  print (ShowFrame top);;
  mret daily_orders.

(** [df.groupby('city').size().sort_values(ascending=False)] *)
Definition city_stats (city : Series) : list (value * nat) :=
  sort_values_desc int_cell (groupby_size city).

(** The (date, city) series built by [analyze_city_trends]. *)
Definition city_series (env : Env) (order_date city : Series) : Err + Frame :=
  let city_trends :=
    reset_index2 "order_date" "city" "order_count" (groupby2_size order_date city) in
  match getcol city_trends "order_date" with
  | inl e => inl e
  | inr d =>
      match to_datetime env d with
      | inl e => inl e
      | inr ts => inr (setcol city_trends "order_date" ts)
      end
  end.

(** [city_trends.groupby('city')['order_count'].mean()
      .sort_values(ascending=False)] *)
Definition avg_daily_city (city_trends : Frame) : Err + Indexed :=
  match getcol city_trends "city" with
  | inl e => inl e
  | inr k =>
      match getcol city_trends "order_count" with
      | inl e => inl e
      | inr v =>
          match groupby_mean k v with
          | inl e => inl e
          | inr means => inr (sort_values_desc id means)
          end
      end
  end.

(** [series.round(1)]; NaN stays NaN. *)
Definition round_cell (d : nat) (v : value) : value :=
  match v with
  | VNum q => VNum (round_dec d q)
  | _ => v
  end.

Definition round_series (d : nat) (s : Indexed) : Indexed :=
  map (fun e => (fst e, round_cell d (snd e))) s.

Definition show_sizes (s : list (value * nat)) : Indexed :=
  map (fun e => (fst e, int_cell (snd e))) s.

(** [analyze_city_trends(df)] *)
Definition analyze_city_trends (env : Env) : M Frame :=
  print (Line banner);;
  print (Line "CITY TRENDS ANALYSIS");;
  print (Line banner);;
  city ← col "city";
  print (Line "Total orders by city:");;
  print (ShowSeries (show_sizes (city_stats city)));;
  order_date ← col "order_date";
  city ← col "city";
  city_trends ← lift (city_series env order_date city);
  avg ← lift (avg_daily_city city_trends);
  print (Line "Average daily orders per city:");;
  print (ShowSeries (round_series 1 avg));;
  mret city_trends.

(** [plt.savefig(file)]: the chart is written, or rendering fails. *)
Definition savefig (env : Env) (file title : string) (plots : list LinePlot) : M unit :=
  if can_save env file then print (SaveFig file title plots)
  else raise (SaveError file).

Definition has_col (f : Frame) (c : string) : bool :=
  match assoc c (cols f) with Some _ => true | None => false end.

(** [sns.lineplot(data, x, y, hue)]: a name that is not a column of the
    data cannot be interpreted. *)
Definition lineplot (data : Frame) (x y : string) (hue : option string) : M LinePlot :=
  if (has_col data x && has_col data y
      && match hue with Some h => has_col data h | None => true end)%bool
  then mret {| plot_data := data; plot_x := x; plot_y := y; plot_hue := hue |}
  else raise (ValueError "Could not interpret value").

(** [create_visualizations(daily_orders, city_trends)] *)
Definition create_visualizations (env : Env) (daily_orders city_trends : Frame) : M unit :=
  print (Line banner);;
  print (Line "CREATING VISUALIZATIONS");;
  print (Line banner);;
  p1 ← lineplot daily_orders "order_date" "rolling_avg" None;
  p2 ← lineplot daily_orders "order_date" "order_count" None;
  savefig env "daily_orders_trend.png"
    "Talabat UAE - Daily Orders Trend (7-Day Moving Average)" [p1; p2];;
  print (Line "✓ Daily orders trend plot saved");;
  p3 ← lineplot city_trends "order_date" "order_count" (Some "city");
  savefig env "city_trends.png" "Talabat UAE - Daily Orders by City" [p3];;
  print (Line "✓ City trends plot saved").

(** The share [count / len(df) * 100] as a number. *)
Definition percentage (count total : nat) : Q :=
  (Qnat count / Qnat total * 100)%Q.

(** [count / len(df) * 100] as the script computes it: the quotient of
    two Python integers is the binary64 number nearest to the exact
    quotient, and so is its product with 100. *)
Definition percentage_f64 (count total : nat) : Q :=
  f64 (f64 (Qnat count / Qnat total) * 100).

(** One line of a frequency distribution:
    [f"{category}: {count} ({count/len(df)*100:.1f}%)"]. *)
Definition share_out (total : nat) (e : value * nat) : Out :=
  Stat "{}: {} ({:.1f}%)"
    [fst e; int_cell (snd e); VNum (printed 1 (percentage_f64 (snd e) total))].

(** [print(f"...{col.agg():.df}")] *)
Definition print_stat (text : string) (d : nat) (r : Err + value) : M unit :=
  v ← lift r; shown ← lift (fmt d v); print (Stat text [shown]).

(** [analyze_business_insights(df)] *)
Definition analyze_business_insights : M unit :=
  print (Line banner);;
  print (Line "BUSINESS INSIGHTS");;
  print (Line banner);;
  print (Line "Order Value Analysis:");;
  v ← col "order_value";
  print_stat "Average order value: AED {:.2f}" 2 (series_mean v);;
  v ← col "order_value";
  print_stat "Median order value: AED {:.2f}" 2 (series_median v);;
  v ← col "order_value";
  print_stat "Total revenue: AED {:,.2f}" 2 (series_sum v);;
  print (Line "Delivery Analysis:");;
  t ← col "delivery_time_min";
  print_stat "Average delivery time: {:.1f} minutes" 1 (series_mean t);;
  f ← col "delivery_fee";
  print_stat "Average delivery fee: AED {:.2f}" 2 (series_mean f);;
  print (Line "Payment Methods:");;
  p ← col "payment_method";
  n ← len_df;
  print_each (share_out n) (value_counts p);;
  u ← col "promo_code_used";
  print (Line "Promo Code Usage:");;
  n ← len_df;
  print_each (share_out n) (value_counts u);;
  print (Line "Top Restaurant Categories:");;
  c ← col "restaurant_category";
  n ← len_df;
  print_each (share_out n) (take 5 (value_counts c)).

Definition DATASET : string := "talabat_uae_orders_dataset.csv".

(** [main()] *)
Definition main (env : Env) : M unit :=
  print (Line "TALABAT UAE ORDERS DATA ANALYSIS");;
  print (Line banner);;
  print (Clock "Analysis started at: {}" (now env 0));;
  load_and_prepare_data env DATASET;;
  explore_data;;
  daily_orders ← analyze_daily_trends env;
  city_trends ← analyze_city_trends env;
  create_visualizations env daily_orders city_trends;;
  analyze_business_insights;;
  print (Line banner);;
  print (Line "ANALYSIS COMPLETED");;
  print (Line banner);;
  print (Line "Generated files:");;
  print (Line "- daily_orders_trend.png");;
  print (Line "- city_trends.png");;
  print (Clock "Analysis completed at: {}" (now env 1)).

(** A run of the script: nothing is loaded when it starts. *)
Definition run (env : Env) : list Out * (Err + unit * Frame) := main env empty_frame.

(** ** Notions used in the statements *)

(** The table held after loading, if loading succeeds. *)
Definition loaded (env : Env) : option Frame :=
  match load_and_prepare_data env DATASET empty_frame with
  | (_, inr (_, df)) => Some df
  | (_, inl _) => None
  end.

(** Cells that [pd.to_datetime] produces: an instant or NaT. *)
Definition is_instant (v : value) : Prop :=
  v = VNull \/ exists ns, v = VTs ns.

(** A computation that leaves the shared table as it found it. *)
Definition read_only {A} (m : M A) : Prop :=
  forall df out r df', m df = (out, inr (r, df')) -> df' = df.

(** Cells of a date column: a calendar day or NaT. *)
Definition is_day (v : value) : Prop :=
  v = VNull \/ exists d, v = VDate d.


(** Sum of the counts of a table of (category, count) entries. *)
Definition total_count (l : list (value * nat)) : nat := sum_list_with snd l.

(** Number of cells of a column that are not null. *)
Definition count_notnull (s : Series) : nat :=
  length (filter (fun v => notnull v = true) s).

(** Number of cells of a column equal to [k]. *)
Definition count_equal (k : value) (s : Series) : nat :=
  length (filter (fun v => value_eqb k v = true) s).

(** Counts recorded in a table for categories equal to [k]. *)
Fixpoint tallied (k : value) (l : list (value * nat)) : nat :=
  match l with
  | [] => 0%nat
  | (k', n) :: l' => ((if value_eqb k k' then n else 0) + tallied k l')%nat
  end.

(** No two entries of a table are for the same category. *)
Fixpoint distinct_keys (l : list (value * nat)) : Prop :=
  match l with
  | [] => True
  | (k, _) :: l' => Forall (fun e => value_eqb k (fst e) = false) l' /\ distinct_keys l'
  end.

(** Order counts of the rows of the (date, city) series that belong to
    city [c]: that city's per-date counts. *)
Definition counts_of_city (c : value) (cities : Series) (counts : list Z) : list Z :=
  map snd (filter (fun r => value_eqb c (fst r) = true) (zip cities counts)).


(** Room for the two roundings of [count / len(df) * 100] in binary64. *)
Definition FLOAT_SLACK : Q := 1 # 2 ^ 45.


Definition sizes_Z (g : list (value * nat)) : list Z :=
  map (fun e => Z.of_nat (snd e)) g.

Definition sizes2_Z (g : list ((value * value) * nat)) : list Z :=
  map (fun e => Z.of_nat (snd e)) g.

(** ** Runs compared *)


Definition is_clock (o : Out) : bool :=
  match o with Clock _ _ => true | _ => false end.



(** ** Runs that fail *)

(** What [main] prints before it calls the first stage, and after the
    last one returns. *)
Definition opening (env : Env) : list Out :=
  [Line "TALABAT UAE ORDERS DATA ANALYSIS"; Line banner;
   Clock "Analysis started at: {}" (now env 0)].

Definition closing (env : Env) : list Out :=
  [Line banner; Line "ANALYSIS COMPLETED"; Line banner;
   Line "Generated files:"; Line "- daily_orders_trend.png";
   Line "- city_trends.png"; Clock "Analysis completed at: {}" (now env 1)].

(** [aborts env out e]: some stage raises [e] after every stage before it
    has returned, and [out] is what was printed up to that point. *)
Inductive aborts (env : Env) : list Out -> Err -> Prop :=
| aborts_in_load o e :
    load_and_prepare_data env DATASET empty_frame = (o, inl e) ->
    aborts env (opening env ++ o) e
| aborts_in_explore o1 df o e :
    load_and_prepare_data env DATASET empty_frame = (o1, inr (tt, df)) ->
    explore_data df = (o, inl e) ->
    aborts env (opening env ++ o1 ++ o) e
| aborts_in_daily o1 df o2 o e :
    load_and_prepare_data env DATASET empty_frame = (o1, inr (tt, df)) ->
    explore_data df = (o2, inr (tt, df)) ->
    analyze_daily_trends env df = (o, inl e) ->
    aborts env (opening env ++ o1 ++ o2 ++ o) e
| aborts_in_city o1 df o2 o3 daily_orders o e :
    load_and_prepare_data env DATASET empty_frame = (o1, inr (tt, df)) ->
    explore_data df = (o2, inr (tt, df)) ->
    analyze_daily_trends env df = (o3, inr (daily_orders, df)) ->
    analyze_city_trends env df = (o, inl e) ->
    aborts env (opening env ++ o1 ++ o2 ++ o3 ++ o) e
| aborts_in_charts o1 df o2 o3 daily_orders o4 city_trends o e :
    load_and_prepare_data env DATASET empty_frame = (o1, inr (tt, df)) ->
    explore_data df = (o2, inr (tt, df)) ->
    analyze_daily_trends env df = (o3, inr (daily_orders, df)) ->
    analyze_city_trends env df = (o4, inr (city_trends, df)) ->
    create_visualizations env daily_orders city_trends df = (o, inl e) ->
    aborts env (opening env ++ o1 ++ o2 ++ o3 ++ o4 ++ o) e
| aborts_in_insights o1 df o2 o3 daily_orders o4 city_trends o5 o e :
    load_and_prepare_data env DATASET empty_frame = (o1, inr (tt, df)) ->
    explore_data df = (o2, inr (tt, df)) ->
    analyze_daily_trends env df = (o3, inr (daily_orders, df)) ->
    analyze_city_trends env df = (o4, inr (city_trends, df)) ->
    create_visualizations env daily_orders city_trends df = (o5, inr (tt, df)) ->
    analyze_business_insights df = (o, inl e) ->
    aborts env (opening env ++ o1 ++ o2 ++ o3 ++ o4 ++ o5 ++ o) e.

(** A computation that never prints [x], whether it returns or raises. *)
Definition never_prints {A} (x : Out) (m : M A) : Prop :=
  forall df out r, m df = (out, r) -> x ∉ out.

(** ** Example tables *)

(** An environment without files, in which every chart can be saved. *)
Definition quiet_env : Env :=
  {| read_file := fun _ => None;
     parse_datetime := fun _ => None;
     can_save := fun _ => true;
     now := fun _ => "1970-01-01 00:00:00" |}.

(** Twelve orders over eight consecutive days. *)
Definition week_table : Frame :=
  {| nrows := 12;
     cols := [("order_date", map VDate [0; 0; 1; 2; 3; 3; 3; 4; 5; 6; 7; 7])] |}.

Definition week_daily : Frame :=
  Eval vm_compute in
    match daily_series quiet_env (map VDate [0; 0; 1; 2; 3; 3; 3; 4; 5; 6; 7; 7]) with
    | inr daily => daily
    | inl _ => empty_frame
    end.

(** Three orders on two days with a day without orders in between; one
    order has no city, another no payment method. *)
Definition sample_parse (s : string) : option Z :=
  if String.eqb s "1970-01-01 08:30:00" then Some 30600000000000
  else if String.eqb s "1970-01-01 19:45:10" then Some 71110000000000
  else if String.eqb s "1970-01-03 12:00:00" then Some 216000000000000
  else None.

Definition sample_csv : CsvFile :=
  {| header := ["order_datetime"; "city"; "order_value"; "delivery_time_min";
                "delivery_fee"; "payment_method"; "promo_code_used";
                "restaurant_category"];
     records :=
       [[VStr "1970-01-01 08:30:00"; VStr "Dubai"; VNum (91 # 2); VInt 30;
         VNum 5; VStr "Card"; VStr "Yes"; VStr "Pizza"];
        [VStr "1970-01-01 19:45:10"; VNull; VNum 20; VInt 25;
         VNum 0; VStr "Cash"; VStr "No"; VStr "Burgers"];
        [VStr "1970-01-03 12:00:00"; VStr "Abu Dhabi"; VNum 60; VInt 40;
         VNum (15 # 2); VNull; VStr "No"; VStr "Pizza"]] |}.

Definition sample_env : Env :=
  {| read_file := fun path => if String.eqb path DATASET then Some sample_csv else None;
     parse_datetime := sample_parse;
     can_save := fun _ => true;
     now := fun k => if Nat.eqb k 0 then "2024-05-01 10:00:00" else "2024-05-01 10:00:03" |}.

Definition sample_table : Frame :=
  Eval vm_compute in
    match loaded sample_env with Some df => df | None => empty_frame end.

(** A file with a single order. *)
Definition single_csv : CsvFile :=
  {| header := header sample_csv;
     records := [[VStr "1970-01-03 12:00:00"; VStr "Dubai"; VNum 0; VInt 40;
                  VNum (15 # 2); VStr "Cash"; VStr "No"; VStr "Pizza"]] |}.

Definition single_env : Env :=
  {| read_file := fun path => if String.eqb path DATASET then Some single_csv else None;
     parse_datetime := sample_parse;
     can_save := fun _ => true;
     now := fun _ => "2024-05-01 10:00:00" |}.





(** The fourteen daily counts of the rolling-average scenario. *)
Definition fortnight : list Z := [10; 12; 9; 11; 13; 10; 14; 16; 15; 14; 17; 13; 15; 18].

(** ** Notions used in the further statements *)

(** Two cells that [unique], [groupby] and [value_counts] keep apart. *)
Definition apart (a b : value) : Prop := value_eqb a b = false.

(** Whether a column has a missing cell. *)
Definition has_null (s : Series) : bool := existsb is_null s.

(** Cells with a numeric view: numbers, booleans and NaN. *)
Definition is_number (v : value) : bool :=
  match v with
  | VNull | VBool _ | VInt _ | VNum _ => true
  | VStr _ | VTs _ | VDate _ => false
  end.

(** The files a run has written, in the order it wrote them. *)
Definition saved_files (out : list Out) : list string :=
  omap (fun o => match o with SaveFig file _ _ => Some file | _ => None end) out.

(** Number of orders of city [c] on date [d]. *)
Definition count_pair (d c : value) (dates cities : Series) : nat :=
  length (filter (fun r => is_Eq (pair_compare (d, c) r) = true) (zip dates cities)).

(** Number of orders of city [c] that have a date. *)
Definition count_dated (c : value) (dates cities : Series) : nat :=
  length (filter (fun r => (notnull (fst r) && value_eqb c (snd r))%bool = true)
            (zip dates cities)).

(** What a format [{:.df}] shows of a computed figure. *)
Definition shown_cell (d : nat) (v : value) : value :=
  match v with
  | VNum q => VNum (printed d (f64 q))
  | _ => v
  end.

(** The three charts the script draws. *)
Definition rolling_plot (daily_orders : Frame) : LinePlot :=
  {| plot_data := daily_orders; plot_x := "order_date"; plot_y := "rolling_avg";
     plot_hue := None |}.

Definition daily_plot (daily_orders : Frame) : LinePlot :=
  {| plot_data := daily_orders; plot_x := "order_date"; plot_y := "order_count";
     plot_hue := None |}.

Definition city_plot (city_trends : Frame) : LinePlot :=
  {| plot_data := city_trends; plot_x := "order_date"; plot_y := "order_count";
     plot_hue := Some "city" |}.

(** * Facts *)

(** ** The orders on cells *)

Lemma ascii_compare_refl a : Ascii.compare a a = Eq.
Proof. unfold Ascii.compare. apply N.compare_refl. Qed.

Lemma ascii_compare_lt_trans a b c :
  Ascii.compare a b = Lt -> Ascii.compare b c = Lt -> Ascii.compare a c = Lt.
Proof.
  unfold Ascii.compare. rewrite !N.compare_lt_iff. apply N.lt_trans.
Qed.

Lemma string_compare_refl s : String.compare s s = Eq.
Proof.
  induction s as [|a s IH]; simpl; [reflexivity|].
  now rewrite ascii_compare_refl.
Qed.

Lemma string_compare_lt_trans s1 : forall s2 s3,
  String.compare s1 s2 = Lt -> String.compare s2 s3 = Lt ->
  String.compare s1 s3 = Lt.
Proof.
  induction s1 as [|a s1 IH]; intros [|b s2] [|c s3]; simpl; try congruence.
  destruct (Ascii.compare a b) eqn:Eab; try discriminate;
    destruct (Ascii.compare b c) eqn:Ebc; try discriminate; intros H1 H2.
  - apply Ascii.compare_eq_iff in Eab, Ebc. subst.
    rewrite ascii_compare_refl. eauto.
  - apply Ascii.compare_eq_iff in Eab. subst. now rewrite Ebc.
  - apply Ascii.compare_eq_iff in Ebc. subst. now rewrite Eab.
  - now rewrite (ascii_compare_lt_trans _ _ _ Eab Ebc).
Qed.

Lemma bool_compare_lt_trans a b c :
  Bool.compare a b = Lt -> Bool.compare b c = Lt -> Bool.compare a c = Lt.
Proof. destruct a, b, c; simpl; congruence. Qed.

Lemma Qcompare_lt_trans a b c :
  Qcompare a b = Lt -> Qcompare b c = Lt -> Qcompare a c = Lt.
Proof. rewrite <- !Qlt_alt. apply Qlt_trans. Qed.

Lemma Zcompare_lt_trans (a b c : Z) :
  (a ?= b) = Lt -> (b ?= c) = Lt -> (a ?= c) = Lt.
Proof. rewrite !Z.compare_lt_iff. lia. Qed.

#[global] Instance value_compare_order : CmpOrder value_compare.
Proof.
  split.
  - intros [ | [] | z | q | s | z | z]; simpl; auto using Z.compare_refl.
    + apply Qeq_alt. reflexivity.
    + apply string_compare_refl.
  - intros a b; destruct a, b; simpl; try reflexivity;
      auto using Z.compare_antisym, String.compare_antisym.
    + match goal with |- Bool.compare ?x ?y = _ => now destruct x, y end.
    + symmetry. apply Qcompare_antisym.
  - intros a b c; destruct a, b; simpl; try discriminate;
      destruct c; simpl; try discriminate; try reflexivity;
      eauto using bool_compare_lt_trans, Qcompare_lt_trans,
        Zcompare_lt_trans, string_compare_lt_trans.
  - intros a b c; destruct a, b; simpl; try discriminate; intros H;
      try reflexivity.
    + match goal with
      | H : Bool.compare ?x ?y = Eq |- _ => destruct x, y; try discriminate
      end; reflexivity.
    + apply Z.compare_eq in H. now subst.
    + apply Qeq_alt in H. destruct c; simpl; try reflexivity.
      now rewrite H.
    + apply String.compare_eq_iff in H. now subst.
    + apply Z.compare_eq in H. now subst.
    + apply Z.compare_eq in H. now subst.
Qed.

Lemma value_compare_antisym a b :
  value_compare b a = CompOpp (value_compare a b).
Proof. apply cmp_antisym. Qed.

Lemma value_compare_eq_compat a b c :
  value_compare a b = Eq -> value_compare a c = value_compare b c.
Proof. apply cmp_eq_compat. Qed.

Lemma value_compare_lt_trans a b c :
  value_compare a b = Lt -> value_compare b c = Lt -> value_compare a c = Lt.
Proof. apply cmp_lt_trans. Qed.

#[global] Instance pair_compare_order : CmpOrder pair_compare.
Proof.
  split; unfold pair_compare.
  - intros [a b]; simpl. now rewrite !(cmp_refl (cmp:=value_compare)).
  - intros [a1 a2] [b1 b2]; simpl.
    rewrite (value_compare_antisym a1 b1), (value_compare_antisym a2 b2).
    now destruct (value_compare a1 b1).
  - intros [a1 a2] [b1 b2] [c1 c2]; simpl.
    destruct (value_compare a1 b1) eqn:E1; try discriminate;
      destruct (value_compare b1 c1) eqn:E2; try discriminate; intros H1 H2.
    + rewrite (value_compare_eq_compat _ _ _ E1), E2.
      eauto using value_compare_lt_trans.
    + now rewrite (value_compare_eq_compat _ _ _ E1), E2.
    + assert (value_compare c1 b1 = Eq) as E3.
      { rewrite value_compare_antisym, E2. reflexivity. }
      rewrite (value_compare_antisym c1 a1).
      rewrite (value_compare_eq_compat _ _ _ E3).
      rewrite (value_compare_antisym a1 b1), E1. reflexivity.
    + now rewrite (value_compare_lt_trans _ _ _ E1 E2).
  - intros [a1 a2] [b1 b2] [c1 c2]; simpl.
    destruct (value_compare a1 b1) eqn:E1; try discriminate; intros H.
    rewrite (value_compare_eq_compat _ _ _ E1).
    rewrite (value_compare_eq_compat _ _ _ H). reflexivity.
Qed.

(** ** Grouping *)

Section GroupByFacts.
Context {K V : Type} (cmp : K -> K -> comparison).
Context `{!CmpOrder cmp}.
Local Abbreviation cmp_lt := (cmp_lt cmp).
Local Abbreviation place := (place cmp).
Local Abbreviation group_rows := (group_rows cmp).
Local Abbreviation members := (members cmp).
Local Abbreviation rows_of := (rows_of cmp).
Implicit Types (k : K) (v : V) (vs : list V).
Implicit Types (l acc : list (K * list V)) (rows : list (K * V)).

Lemma cmp_gt_lt a b : cmp a b = Gt -> cmp b a = Lt.
Proof. intros H. now rewrite (cmp_antisym a b), H. Qed.

Lemma cmp_eq_sym a b : cmp a b = Eq -> cmp b a = Eq.
Proof. intros H. now rewrite (cmp_antisym a b), H. Qed.

Lemma cmp_eq_compat_r a b c : cmp a b = Eq -> cmp c a = cmp c b.
Proof.
  intros H. rewrite (cmp_antisym a c), (cmp_antisym b c).
  now rewrite (cmp_eq_compat a b c H).
Qed.

Lemma place_total k v (l : list (K * list V)) : total_rows (place k v l) = S (total_rows l).
Proof.
  unfold total_rows.
  induction l as [|[k' vs] l IH]; simpl; [reflexivity|].
  destruct (cmp k k'); simpl.
  - rewrite length_app. simpl. lia.
  - reflexivity.
  - rewrite IH. lia.
Qed.

Lemma place_keys_Forall (P : K -> Prop) k v l :
  P k -> Forall P (map fst l) -> Forall P (map fst (place k v l)).
Proof.
  intros Hk. induction l as [|[k' vs] l IH]; simpl; intros Hl.
  - now constructor.
  - apply Forall_cons in Hl as [Hk' Hl].
    destruct (cmp k k'); simpl; repeat constructor; auto.
Qed.

Lemma place_sorted k v l :
  StronglySorted cmp_lt (map fst l) ->
  StronglySorted cmp_lt (map fst (place k v l)).
Proof.
  induction l as [|[k' vs] l IH]; simpl; intros Hl.
  - repeat constructor.
  - apply StronglySorted_inv in Hl as [Hl Hk'].
    destruct (cmp k k') eqn:E; simpl.
    + now constructor.
    + constructor; [now constructor|].
      constructor; [exact E|].
      eapply Forall_impl; [exact Hk'|].
      intros x Hx. eapply cmp_lt_trans; eauto.
    + constructor; [now apply IH|].
      apply place_keys_Forall; [|exact Hk'].
      now apply cmp_gt_lt.
Qed.

(** Below the smallest key of a sorted table nothing is filed. *)
Lemma members_below k l :
  Forall (cmp_lt k) (map fst l) -> members k l = [].
Proof.
  induction l as [|[k' vs] l IH]; simpl; intros H; [reflexivity|].
  apply Forall_cons in H as [H1 H2]. unfold cmp_lt in H1.
  rewrite H1. simpl. now apply IH.
Qed.

Lemma place_members k k' v l :
  StronglySorted cmp_lt (map fst l) ->
  members k (place k' v l)
  = members k l ++ (if is_Eq (cmp k k') then [v] else []).
Proof.
  induction l as [|[k2 vs] l IH]; simpl; intros Hs.
  - now destruct (cmp k k').
  - apply StronglySorted_inv in Hs as [Hs Hk2].
    destruct (cmp k' k2) eqn:E; simpl.
    + rewrite (cmp_eq_compat_r k' k2 k E).
      destruct (cmp k k2); simpl; now rewrite ?app_nil_r.
    + destruct (cmp k k') eqn:E'; simpl; [|now rewrite app_nil_r..].
      assert (cmp k k2 = Lt) as E2.
      { now rewrite (cmp_eq_compat k k' k2 E'). }
      rewrite E2. simpl. rewrite members_below; [reflexivity|].
      eapply Forall_impl; [exact Hk2|].
      intros x Hx. eapply cmp_lt_trans; eauto.
    + destruct (cmp k k2) eqn:E2; simpl; [|now apply IH..].
      assert (cmp k k' = Lt) as ->.
      { rewrite (cmp_eq_compat k k2 k' E2). now apply cmp_gt_lt. }
      simpl. now rewrite app_nil_r.
Qed.

Lemma fold_place_total rows : forall acc,
  total_rows (fold_left (fun acc r => place (fst r) (snd r) acc) rows acc)
  = (length rows + total_rows acc)%nat.
Proof.
  induction rows as [|r rows IH]; intros acc; simpl; [reflexivity|].
  rewrite IH, place_total. lia.
Qed.

Lemma fold_place_sorted rows : forall acc,
  StronglySorted cmp_lt (map fst acc) ->
  StronglySorted cmp_lt
    (map fst (fold_left (fun acc r => place (fst r) (snd r) acc) rows acc)).
Proof.
  induction rows as [|r rows IH]; intros acc H; simpl; [exact H|].
  apply IH, place_sorted, H.
Qed.

Lemma fold_place_members k rows : forall acc,
  StronglySorted cmp_lt (map fst acc) ->
  members k (fold_left (fun acc r => place (fst r) (snd r) acc) rows acc)
  = members k acc ++ rows_of k rows.
Proof.
  unfold rows_of.
  induction rows as [|[k' v] rows IH]; intros acc Hs; simpl.
  - now rewrite app_nil_r.
  - rewrite IH by now apply place_sorted.
    rewrite place_members by exact Hs.
    rewrite filter_cons. simpl.
    destruct (decide _) as [->|Hne]; simpl.
    + now rewrite <- app_assoc.
    + destruct (is_Eq (cmp k k')); [congruence|].
      now rewrite app_nil_r.
Qed.

(** Every row lands in exactly one group. *)
Lemma group_rows_total rows : total_rows (group_rows rows) = length rows.
Proof.
  unfold group_rows. rewrite fold_place_total. unfold total_rows. simpl. lia.
Qed.

(** Keys come out strictly ascending, hence pairwise distinct. *)
Lemma group_rows_sorted rows :
  StronglySorted cmp_lt (map fst (group_rows rows)).
Proof. apply fold_place_sorted. constructor. Qed.

Lemma group_rows_members k rows :
  members k (group_rows rows) = rows_of k rows.
Proof.
  unfold group_rows. rewrite fold_place_members by constructor. reflexivity.
Qed.

(** In a key-sorted table a key is filed under its own entry. *)
Lemma sorted_members k vs l :
  StronglySorted cmp_lt (map fst l) -> (k, vs) ∈ l -> members k l = vs.
Proof.
  induction l as [|[k' vs'] l IH]; simpl; intros Hs Hin.
  - now apply elem_of_nil in Hin.
  - apply StronglySorted_inv in Hs as [Hs Hk'].
    apply elem_of_cons in Hin as [Heq|Hin].
    + injection Heq as -> ->. now rewrite cmp_refl.
    + assert (cmp k' k = Lt) as Hlt.
      { rewrite Forall_forall in Hk'. apply Hk'.
        apply (list_elem_of_fmap_2 fst) in Hin. exact Hin. }
      rewrite (cmp_antisym k' k), Hlt. simpl. now apply IH.
Qed.

(** A group holds exactly the rows that carry its key, in row order. *)
Lemma group_rows_spec k vs rows :
  (k, vs) ∈ group_rows rows -> vs = rows_of k rows.
Proof.
  intros Hin. rewrite <- group_rows_members.
  symmetry. apply sorted_members; [apply group_rows_sorted|exact Hin].
Qed.

Lemma members_elem k l :
  members k l <> [] -> exists k' vs, (k', vs) ∈ l /\ cmp k k' = Eq.
Proof.
  induction l as [|[k' vs] l IH]; simpl; [congruence|].
  destruct (cmp k k') eqn:E; simpl; intros H.
  - exists k', vs. split; [apply list_elem_of_here|exact E].
  - destruct (IH H) as (k2 & m & H2 & E2). exists k2, m.
    split; [now apply list_elem_of_further|exact E2].
  - destruct (IH H) as (k2 & m & H2 & E2). exists k2, m.
    split; [now apply list_elem_of_further|exact E2].
Qed.

(** Every key of the table has a group. *)
Lemma group_rows_complete k v rows :
  (k, v) ∈ rows -> exists k' vs, (k', vs) ∈ group_rows rows /\ cmp k k' = Eq.
Proof.
  intros Hin. apply members_elem. rewrite group_rows_members.
  unfold rows_of.
  assert ((k, v) ∈ filter (fun r => is_Eq (cmp k (fst r)) = true) rows) as H.
  { apply list_elem_of_filter. split; [|exact Hin]. simpl. now rewrite cmp_refl. }
  destruct (filter _ rows); [now apply elem_of_nil in H|discriminate].
Qed.

Lemma place_keys_from k v l x :
  x ∈ map fst (place k v l) -> x = k \/ x ∈ map fst l.
Proof.
  induction l as [|[k' vs] l IH]; simpl.
  - intros H. apply list_elem_of_singleton in H. now left.
  - destruct (cmp k k'); simpl; intros H.
    + right. exact H.
    + apply elem_of_cons in H as [->|H]; [now left|right; exact H].
    + apply elem_of_cons in H as [->|H]; [right; apply list_elem_of_here|].
      destruct (IH H) as [->|H']; [now left|right; now apply list_elem_of_further].
Qed.

(** Every group key is the key of some row. *)
Lemma group_rows_sound rows x :
  x ∈ map fst (group_rows rows) -> x ∈ map fst rows.
Proof.
  unfold group_rows.
  assert (forall acc,
    x ∈ map fst (fold_left (fun acc r => place (fst r) (snd r) acc) rows acc) ->
    x ∈ map fst rows \/ x ∈ map fst acc) as H.
  { induction rows as [|r rows IH]; intros acc; simpl; [now right|].
    intros Hx. destruct (IH _ Hx) as [Hx'|Hx'].
    - left. now apply list_elem_of_further.
    - destruct (place_keys_from _ _ _ _ Hx') as [->|Hx2];
        [left; apply list_elem_of_here|now right]. }
  intros Hx. destruct (H [] Hx) as [Hx'|Hx']; [exact Hx'|].
  now apply elem_of_nil in Hx'.
Qed.

(** No group is empty. *)
Lemma place_nonempty k v l :
  Forall (fun g => snd g <> []) l -> Forall (fun g => snd g <> []) (place k v l).
Proof.
  induction l as [|[k' vs] l IH]; simpl; intros H.
  - repeat constructor. discriminate.
  - apply Forall_cons in H as [H1 H2].
    destruct (cmp k k'); simpl.
    + constructor; [|exact H2]. simpl. now destruct vs.
    + constructor; [discriminate|]. now constructor.
    + constructor; auto.
Qed.

Lemma group_rows_nonempty rows :
  Forall (fun g => snd g <> []) (group_rows rows).
Proof.
  unfold group_rows.
  assert (forall acc, Forall (fun g : K * list V => snd g <> []) acc ->
    Forall (fun g => snd g <> [])
      (fold_left (fun acc r => place (fst r) (snd r) acc) rows acc)) as H.
  { induction rows as [|r rows IH]; intros acc Ha; simpl; [exact Ha|].
    apply IH, place_nonempty, Ha. }
  apply H. constructor.
Qed.

End GroupByFacts.

(** ** Sorting *)

Lemma elem_of_drop_list {A} (x : A) n l : x ∈ drop n l -> x ∈ l.
Proof.
  revert n. induction l as [|y l IH]; intros [|n]; simpl; auto.
  intros H. apply list_elem_of_further. eauto.
Qed.

Section SortDescFacts.
Context {A : Type} (geb : A -> A -> bool).
Local Abbreviation desc := (desc geb).
Local Abbreviation insert_desc := (insert_desc geb).
Local Abbreviation sort_desc := (sort_desc geb).
Implicit Types (x a b : A) (l : list A).

Lemma insert_desc_perm x l : insert_desc x l ≡ₚ x :: l.
Proof.
  induction l as [|y l IH]; simpl; [reflexivity|].
  destruct (geb x y); [reflexivity|].
  rewrite IH. apply Permutation_swap.
Qed.

Lemma sort_desc_perm l : sort_desc l ≡ₚ l.
Proof.
  induction l as [|x l IH]; simpl; [reflexivity|].
  now rewrite insert_desc_perm, IH.
Qed.

Lemma sort_desc_length l : length (sort_desc l) = length l.
Proof. now rewrite sort_desc_perm. Qed.

Hypothesis geb_total : forall a b, geb a b = true \/ geb b a = true.
Hypothesis geb_trans :
  forall a b c, geb a b = true -> geb b c = true -> geb a c = true.

Lemma insert_desc_sorted x l :
  StronglySorted desc l -> StronglySorted desc (insert_desc x l).
Proof.
  induction l as [|y l IH]; simpl; intros Hs.
  - repeat constructor.
  - destruct (geb x y) eqn:E.
    + constructor; [exact Hs|].
      apply StronglySorted_inv in Hs as [Hs Hy].
      constructor; [exact E|].
      eapply Forall_impl; [exact Hy|]. intros z Hz. eapply geb_trans; eauto.
    + apply StronglySorted_inv in Hs as [Hs Hy].
      constructor; [now apply IH|].
      rewrite insert_desc_perm. constructor; [|exact Hy].
      destruct (geb_total x y) as [H|H]; [congruence|exact H].
Qed.

Lemma sort_desc_sorted l : StronglySorted desc (sort_desc l).
Proof.
  induction l as [|x l IH]; simpl; [constructor|].
  now apply insert_desc_sorted.
Qed.

(** In a descending list everything among the first [n] elements is at
    least as large as everything after them. *)
Lemma sorted_take_drop n l a b :
  StronglySorted desc l -> a ∈ take n l -> b ∈ drop n l -> desc a b.
Proof.
  revert n. induction l as [|x l IH]; intros n Hs Ha Hb.
  - rewrite take_nil in Ha. now apply elem_of_nil in Ha.
  - destruct n as [|n]; simpl in *; [now apply elem_of_nil in Ha|].
    apply StronglySorted_inv in Hs as [Hs Hx].
    apply elem_of_cons in Ha as [->|Ha].
    + rewrite Forall_forall in Hx. apply Hx.
      eapply elem_of_drop_list. exact Hb.
    + eapply IH; eauto.
Qed.

End SortDescFacts.

(** ** The rolling mean *)

Lemma Qsum_app l1 l2 : (Qsum (l1 ++ l2) == Qsum l1 + Qsum l2)%Q.
Proof.
  induction l1 as [|x l1 IH]; simpl.
  - now rewrite Qplus_0_l.
  - rewrite IH. now rewrite Qplus_assoc.
Qed.

Lemma observed_app l1 l2 : observed (l1 ++ l2) = observed l1 ++ observed l2.
Proof. unfold observed. apply omap_app. Qed.

Lemma take_add_split {A} n m (l : list A) :
  take (n + m) l = take n l ++ take m (drop n l).
Proof.
  revert l. induction n as [|n IH]; intros [|x l]; simpl;
    rewrite ?take_nil; try reflexivity.
  now rewrite IH.
Qed.

Lemma slice_split {A} a b c (l : list A) :
  (a <= b)%nat -> (b <= c)%nat -> slice a c l = slice a b l ++ slice b c l.
Proof.
  intros Hab Hbc. unfold slice.
  replace (c - a)%nat with ((b - a) + (c - b))%nat by lia.
  rewrite take_add_split. f_equal. rewrite drop_drop.
  replace (a + (b - a))%nat with b by lia. reflexivity.
Qed.

Lemma slice_empty {A} a (l : list A) : slice a a l = [].
Proof. unfold slice. now rewrite Nat.sub_diag. Qed.

Lemma slice_length {A} a b (l : list A) :
  (b <= length l)%nat -> length (slice a b l) = (b - a)%nat.
Proof. intros H. unfold slice. rewrite length_take, length_drop. lia. Qed.

Lemma tracks_zero : tracks mean_zero [].
Proof. split; reflexivity. Qed.

Lemma tracks_add st l1 l2 :
  tracks st l1 -> tracks (foldl add_mean st l2) (l1 ++ l2).
Proof.
  revert st l1. induction l2 as [|v l2 IH]; intros st l1 H; simpl.
  - now rewrite app_nil_r.
  - replace (l1 ++ v :: l2) with ((l1 ++ [v]) ++ l2) by now rewrite <- app_assoc.
    apply IH. destruct H as [Hn Hs]. destruct v as [x|]; simpl.
    + split; rewrite observed_app; simpl.
      * rewrite length_app. simpl. lia.
      * rewrite Qsum_app, Hs. simpl. now rewrite Qplus_0_r.
    + split; rewrite observed_app; simpl; now rewrite app_nil_r.
Qed.

Lemma tracks_remove st l1 l2 :
  tracks st (l1 ++ l2) -> tracks (foldl remove_mean st l1) l2.
Proof.
  revert st. induction l1 as [|v l1 IH]; intros st H; simpl; [exact H|].
  apply IH. destruct H as [Hn Hs]. destruct v as [x|]; simpl in *.
  - split; simpl; [lia|]. rewrite Hs. unfold observed; simpl. ring.
  - split; assumption.
Qed.

(** The loop keeps the running state in step with the window: the value
    written at row [i + j] is [calc_mean] of a state that summarises the
    window ending at that row. *)
Lemma roll_mean_loop_spec window minp values : forall todo i st,
  (i = 0%nat \/
   tracks st (slice (win_start window (i - 1)) (win_end (i - 1)) values)) ->
  forall j, (j < todo)%nat ->
  exists st',
    tracks st' (slice (win_start window (i + j)) (win_end (i + j)) values) /\
    roll_mean_loop window minp values todo i st !! j = Some (calc_mean minp st').
Proof.
  induction todo as [|todo IH]; intros i st Hst j Hj; [lia|].
  simpl.
  set (s := win_start window i). set (e := win_end i).
  set (st1 :=
    if ((i =? 0)%nat || (win_end (i - 1) <=? s)%nat)%bool
    then foldl add_mean mean_zero (slice s e values)
    else foldl add_mean
           (foldl remove_mean st (slice (win_start window (i - 1)) s values))
           (slice (win_end (i - 1)) e values)).
  assert (tracks st1 (slice s e values)) as Hst1.
  { subst st1. destruct ((i =? 0)%nat || (win_end (i - 1) <=? s)%nat)%bool eqn:Hb.
    - apply (tracks_add mean_zero [] _ tracks_zero).
    - apply orb_false_iff in Hb as [Hi Hle].
      apply Nat.eqb_neq in Hi. apply Nat.leb_gt in Hle.
      destruct Hst as [?|Hst]; [lia|].
      unfold s, e, win_start, win_end in *.
      rewrite (slice_split (i + 1 - window) (i - 1 + 1) (i + 1)) by lia.
      apply tracks_add. apply (tracks_remove _ (slice (i - 1 + 1 - window) (i + 1 - window) values)).
      rewrite <- slice_split by lia. exact Hst. }
  destruct j as [|j]; simpl.
  - exists st1. rewrite Nat.add_0_r. split; [exact Hst1|reflexivity].
  - destruct (IH (S i) st1) with (j := j) as (st' & Ht & Hl).
    + right. simpl. rewrite Nat.sub_0_r. exact Hst1.
    + lia.
    + exists st'. rewrite <- Nat.add_succ_comm. split; assumption.
Qed.

Lemma observed_ints counts :
  observed (floats_of_ints counts) = map inject_Z counts.
Proof.
  unfold observed, floats_of_ints.
  induction counts as [|z l IH]; [reflexivity|].
  change (inject_Z z :: omap id (map (fun z => Some (inject_Z z)) l)
          = inject_Z z :: map inject_Z l).
  f_equal. exact IH.
Qed.

Lemma slice_map {A B} (f : A -> B) a b l :
  slice a b (map f l) = map f (slice a b l).
Proof. unfold slice. now rewrite skipn_map, firstn_map. Qed.

Lemma Qsum_inject l : (Qsum (map inject_Z l) == inject_Z (Zsum l))%Q.
Proof.
  induction l as [|z l IH]; simpl; [reflexivity|].
  rewrite IH. now rewrite inject_Z_plus.
Qed.

(** Over a column of integer counts the rolling mean is undefined until
    the window is full and is the mean of the last [window] counts from
    then on. *)
Lemma roll_mean_ints window counts i :
  (0 < window)%nat -> (i < length counts)%nat ->
  if (i + 1 <? window)%nat
  then roll_mean window (floats_of_ints counts) !! i = Some VNull
  else exists q,
    roll_mean window (floats_of_ints counts) !! i = Some (VNum q) /\
    (q == inject_Z (Zsum (slice (i + 1 - window) (i + 1) counts)) / Qnat window)%Q.
Proof.
  intros Hw Hi. unfold roll_mean.
  destruct (roll_mean_loop_spec window window (floats_of_ints counts)
              (length (floats_of_ints counts)) 0 mean_zero) with (j := i)
    as (st & [Hn Hs] & Hl); [now left| |].
  { unfold floats_of_ints. rewrite length_map. exact Hi. }
  simpl in Hn, Hs, Hl. rewrite Hl. clear Hl.
  unfold win_start, win_end, floats_of_ints in Hn, Hs.
  rewrite slice_map in Hn, Hs. fold (floats_of_ints (slice (i + 1 - window) (i + 1) counts)) in Hn, Hs.
  rewrite observed_ints in Hn, Hs.
  rewrite length_map, slice_length in Hn by lia.
  unfold calc_mean. rewrite Hn.
  destruct (i + 1 <? window)%nat eqn:E.
  - apply Nat.ltb_lt in E.
    replace (window <=? i + 1 - (i + 1 - window))%nat with false
      by (symmetry; apply Nat.leb_gt; lia).
    reflexivity.
  - apply Nat.ltb_ge in E.
    replace (i + 1 - (i + 1 - window))%nat with window by lia.
    replace (window <=? window)%nat with true by (symmetry; apply Nat.leb_le; lia).
    replace (0 <? window)%nat with true by (symmetry; apply Nat.ltb_lt; lia).
    simpl. eexists. split; [reflexivity|].
    now rewrite Hs, Qsum_inject.
Qed.

(** ** Reasoning about runs *)

Section RunsFacts.
Context {A B : Type}.

Lemma bind_ok_inv (m : M A) (k : A -> M B) df out r :
  (m ≫= k) df = (out, inr r) ->
  exists o1 a df1 o2,
    m df = (o1, inr (a, df1)) /\ k a df1 = (o2, inr r) /\ out = o1 ++ o2.
Proof.
  unfold mbind, M_bind. destruct (m df) as [o1 [e|[a df1]]]; [discriminate|].
  destruct (k a df1) as [o2 r2] eqn:Hk. simpl. intros H.
  injection H as <- <-. now exists o1, a, df1, o2.
Qed.

Lemma bind_err_inv (m : M A) (k : A -> M B) df out e :
  (m ≫= k) df = (out, inl e) ->
  m df = (out, inl e) \/
  exists o1 a df1 o2,
    m df = (o1, inr (a, df1)) /\ k a df1 = (o2, inl e) /\ out = o1 ++ o2.
Proof.
  unfold mbind, M_bind. destruct (m df) as [o1 [e1|[a df1]]].
  - intros H. injection H as <- <-. now left.
  - destruct (k a df1) as [o2 r2] eqn:Hk. simpl. intros H.
    injection H as <- ->. right. now exists o1, a, df1, o2.
Qed.


Lemma bind_err (m : M A) (k : A -> M B) df o1 e :
  m df = (o1, inl e) -> (m ≫= k) df = (o1, inl e).
Proof. unfold mbind, M_bind. now intros ->. Qed.

Lemma lift_ok_inv (r : Err + A) df out a df1 :
  lift r df = (out, inr (a, df1)) -> r = inr a /\ out = [] /\ df1 = df.
Proof.
  destruct r as [e|a']; simpl; [discriminate|].
  unfold mret, M_ret. intros H. injection H as <- <- <-. auto.
Qed.

Lemma lift_err_inv (r : Err + A) df out e :
  lift r df = (out, inl e) -> r = inl e /\ out = [].
Proof.
  destruct r as [e'|a']; simpl.
  - unfold raise. intros H. injection H as <- <-. auto.
  - unfold mret, M_ret. discriminate.
Qed.

End RunsFacts.

Lemma bind_run {A B} (m : M A) (k : A -> M B) df :
  (m ≫= k) df =
  match m df with
  | (o, inl e) => (o, inl e)
  | (o, inr (a, df')) => after o (k a df')
  end.
Proof. reflexivity. Qed.

Lemma after_run {A} o o' (r : Err + A * Frame) : after o (o', r) = (o ++ o', r).
Proof. reflexivity. Qed.

Lemma print_run o df : print o df = ([o], inr (tt, df)).
Proof. reflexivity. Qed.

Lemma col_ok_inv c df out s df1 :
  col c df = (out, inr (s, df1)) -> getcol df c = inr s /\ out = [] /\ df1 = df.
Proof.
  unfold col, get_df, mbind, M_bind. simpl.
  destruct (getcol df c) as [e|s']; simpl; [discriminate|].
  unfold mret, M_ret. intros H. injection H as <- <- <-. auto.
Qed.

Lemma col_err_inv c df out e :
  col c df = (out, inl e) -> getcol df c = inl e /\ out = [].
Proof.
  unfold col, get_df, mbind, M_bind. simpl.
  destruct (getcol df c) as [e'|s']; simpl.
  - unfold raise. intros H. injection H as <- <-. auto.
  - unfold mret, M_ret. discriminate.
Qed.

Lemma col_run c df :
  col c df = match getcol df c with
             | inl e => ([], inl e)
             | inr s => ([], inr (s, df))
             end.
Proof.
  unfold col, get_df, mbind, M_bind. simpl. now destruct (getcol df c).
Qed.

Lemma len_df_run df : len_df df = ([], inr (nrows df, df)).
Proof. reflexivity. Qed.

Lemma put_df_run f df : put_df f df = ([], inr (tt, f)).
Proof. reflexivity. Qed.

Lemma set_col_run c s df : set_col c s df = ([], inr (tt, setcol df c s)).
Proof. reflexivity. Qed.

Lemma get_df_run df : get_df df = ([], inr (df, df)).
Proof. reflexivity. Qed.

Lemma mret_run {A} (a : A) df : mret (M:=M) a df = ([], inr (a, df)).
Proof. reflexivity. Qed.

(** Take a successful run apart, one bind at a time. *)
Ltac run_ok H :=
  repeat match type of H with
  | (_ ≫= _) _ = (_, inr _) =>
      let o1 := fresh "o" in let a := fresh "a" in let d := fresh "df" in
      let o2 := fresh "o" in let H1 := fresh "Hrun" in
      apply bind_ok_inv in H as (o1 & a & d & o2 & H1 & H & ->);
      first
        [ rewrite print_run in H1; injection H1 as <- <- <-
        | apply col_ok_inv in H1 as (H1 & -> & ->)
        | apply lift_ok_inv in H1 as (H1 & -> & ->)
        | rewrite len_df_run in H1; injection H1 as <- <- <-
        | rewrite put_df_run in H1; injection H1 as <- <- <-
        | rewrite set_col_run in H1; injection H1 as <- <- <-
        | rewrite get_df_run in H1; injection H1 as <- <- <-
        | idtac ]
  end.

(** ** The daily series *)

Lemma to_floats_ints zs : to_floats (map VInt zs) = inr (floats_of_ints zs).
Proof.
  induction zs as [|z zs IH]; simpl; [reflexivity|]. now rewrite IH.
Qed.

Lemma int_cells_sizes (g : list (value * nat)) :
  map (fun e => int_cell (snd e)) g = map VInt (sizes_Z g).
Proof. unfold sizes_Z. rewrite map_map. reflexivity. Qed.

(** Shape of the daily series: dates, counts and rolling mean of the
    groups of the order-date column. *)
Lemma daily_series_inv env od daily :
  daily_series env od = inr daily ->
  exists ts,
    to_datetime env (map fst (groupby_size od)) = inr ts /\
    daily = {| nrows := length (groupby_size od);
               cols := [("order_date", ts);
                        ("order_count", map VInt (sizes_Z (groupby_size od)));
                        ("rolling_avg",
                         roll_mean 7 (floats_of_ints (sizes_Z (groupby_size od))))] |}.
Proof.
  unfold daily_series.
  change (getcol (reset_index "order_date" "order_count" (groupby_size od)) "order_date")
    with (inr (A:=Err) (map fst (groupby_size od))).
  cbv iota. destruct (to_datetime env _) as [e|ts]; [discriminate|].
  change (getcol (setcol (reset_index "order_date" "order_count" (groupby_size od))
                    "order_date" ts) "order_count")
    with (inr (A:=Err) (map (fun e => int_cell (snd e)) (groupby_size od))).
  cbv iota. rewrite int_cells_sizes, to_floats_ints.
  intros H. injection H as <-. exists ts. split; [reflexivity|].
  rewrite <- int_cells_sizes. reflexivity.
Qed.

Lemma analyze_daily_trends_inv env df out daily df' :
  analyze_daily_trends env df = (out, inr (daily, df')) ->
  exists od,
    getcol df "order_date" = inr od /\ daily_series env od = inr daily /\ df' = df.
Proof.
  unfold analyze_daily_trends. intros H. run_ok H.
  unfold mret, M_ret in H. injection H as <- <- <-.
  eauto.
Qed.

Lemma roll_mean_loop_length window minp values : forall todo i st,
  length (roll_mean_loop window minp values todo i st) = todo.
Proof. induction todo as [|todo IH]; intros i st; simpl; [reflexivity|]. now rewrite IH. Qed.

Lemma roll_mean_length window values :
  length (roll_mean window values) = length values.
Proof. unfold roll_mean. apply roll_mean_loop_length. Qed.

Lemma slice_lookup {A} a b (l : list A) k :
  (k < b - a)%nat -> slice a b l !! k = l !! (a + k)%nat.
Proof.
  intros Hk. unfold slice. rewrite lookup_take_lt by exact Hk.
  now rewrite lookup_drop.
Qed.

(** The seven cells of a full window, spelled out. *)
Lemma slice_seven (l : list Z) i :
  (6 <= i)%nat -> (i < length l)%nat ->
  exists c0 c1 c2 c3 c4 c5 c6,
    l !! (i - 6)%nat = Some c0 /\ l !! (i - 5)%nat = Some c1 /\
    l !! (i - 4)%nat = Some c2 /\ l !! (i - 3)%nat = Some c3 /\
    l !! (i - 2)%nat = Some c4 /\ l !! (i - 1)%nat = Some c5 /\
    l !! i = Some c6 /\
    Zsum (slice (i - 6) (i + 1) l) = c0 + c1 + c2 + c3 + c4 + c5 + c6.
Proof.
  intros H6 Hi.
  assert (length (slice (i - 6) (i + 1) l) = 7%nat) as Hlen.
  { rewrite slice_length by lia. lia. }
  assert (forall k, (k < 7)%nat -> slice (i - 6) (i + 1) l !! k = l !! (i - 6 + k)%nat) as Hk.
  { intros k Hk. apply slice_lookup. lia. }
  destruct (slice (i - 6) (i + 1) l) as [|c0 [|c1 [|c2 [|c3 [|c4 [|c5 [|c6 [|]]]]]]]];
    try discriminate Hlen.
  exists c0, c1, c2, c3, c4, c5, c6.
  pose proof (Hk 0%nat) as H0. pose proof (Hk 1%nat) as H1.
  pose proof (Hk 2%nat) as H2. pose proof (Hk 3%nat) as H3.
  pose proof (Hk 4%nat) as H4. pose proof (Hk 5%nat) as H5.
  pose proof (Hk 6%nat) as H6'.
  simpl in H0, H1, H2, H3, H4, H5, H6'.
  replace (i - 6 + 0)%nat with (i - 6)%nat in H0 by lia.
  replace (i - 6 + 1)%nat with (i - 5)%nat in H1 by lia.
  replace (i - 6 + 2)%nat with (i - 4)%nat in H2 by lia.
  replace (i - 6 + 3)%nat with (i - 3)%nat in H3 by lia.
  replace (i - 6 + 4)%nat with (i - 2)%nat in H4 by lia.
  replace (i - 6 + 5)%nat with (i - 1)%nat in H5 by lia.
  replace (i - 6 + 6)%nat with i in H6' by lia.
  repeat split; try (symmetry; auto with lia).
  simpl. lia.
Qed.

(** C1. In the daily series returned by [analyze_daily_trends] the
    rolling average at row [i] is null for [i < 6]; for [i >= 6] it is the
    arithmetic mean of the seven order counts at rows [i-6 .. i]. *)
Theorem daily_rolling_average env df out daily df' :
  analyze_daily_trends env df = (out, inr (daily, df')) ->
  exists counts avgs,
    getcol daily "order_count" = inr (map VInt counts) /\
    getcol daily "rolling_avg" = inr avgs /\
    length counts = nrows daily /\
    length avgs = nrows daily /\
    forall i, (i < nrows daily)%nat ->
      ((i < 6)%nat -> avgs !! i = Some VNull) /\
      ((6 <= i)%nat ->
       exists q c0 c1 c2 c3 c4 c5 c6,
         counts !! (i - 6)%nat = Some c0 /\ counts !! (i - 5)%nat = Some c1 /\
         counts !! (i - 4)%nat = Some c2 /\ counts !! (i - 3)%nat = Some c3 /\
         counts !! (i - 2)%nat = Some c4 /\ counts !! (i - 1)%nat = Some c5 /\
         counts !! i = Some c6 /\
         avgs !! i = Some (VNum q) /\
         (q == inject_Z (c0 + c1 + c2 + c3 + c4 + c5 + c6) / 7)%Q).
Proof.
  intros H.
  apply analyze_daily_trends_inv in H as (od & _ & H & _).
  apply daily_series_inv in H as (ts & _ & ->).
  set (g := groupby_size od).
  exists (sizes_Z g), (roll_mean 7 (floats_of_ints (sizes_Z g))).
  assert (length (sizes_Z g) = length g) as Hlen.
  { unfold sizes_Z. now rewrite length_map. }
  split; [reflexivity|]. split; [reflexivity|].
  split; [exact Hlen|].
  split.
  { rewrite roll_mean_length. unfold floats_of_ints. now rewrite length_map. }
  cbn [nrows]. intros i Hi.
  pose proof (roll_mean_ints 7 (sizes_Z g) i) as Hr.
  split.
  - intros Hlt.
    replace (i + 1 <? 7)%nat with true in Hr by (symmetry; apply Nat.ltb_lt; lia).
    apply Hr; lia.
  - intros Hge.
    replace (i + 1 <? 7)%nat with false in Hr by (symmetry; apply Nat.ltb_ge; lia).
    destruct Hr as (q & Hq & Heq); [lia..|].
    destruct (slice_seven (sizes_Z g) i) as
      (c0 & c1 & c2 & c3 & c4 & c5 & c6 & L0 & L1 & L2 & L3 & L4 & L5 & L6 & Hsum);
      [lia..|].
    exists q, c0, c1, c2, c3, c4, c5, c6.
    repeat (split; [assumption|]).
    rewrite Heq. replace (i + 1 - 7)%nat with (i - 6)%nat by lia.
    rewrite Hsum. reflexivity.
Qed.


Lemma daily_rolling_average_witness :
  exists counts avgs,
    getcol week_daily "order_count" = inr (map VInt counts) /\
    getcol week_daily "rolling_avg" = inr avgs /\
    length counts = nrows week_daily /\
    length avgs = nrows week_daily /\
    forall i, (i < nrows week_daily)%nat ->
      ((i < 6)%nat -> avgs !! i = Some VNull) /\
      ((6 <= i)%nat ->
       exists q c0 c1 c2 c3 c4 c5 c6,
         counts !! (i - 6)%nat = Some c0 /\ counts !! (i - 5)%nat = Some c1 /\
         counts !! (i - 4)%nat = Some c2 /\ counts !! (i - 3)%nat = Some c3 /\
         counts !! (i - 2)%nat = Some c4 /\ counts !! (i - 1)%nat = Some c5 /\
         counts !! i = Some c6 /\
         avgs !! i = Some (VNum q) /\
         (q == inject_Z (c0 + c1 + c2 + c3 + c4 + c5 + c6) / 7)%Q).
Proof.
  eapply (daily_rolling_average quiet_env week_table).
  vm_compute. reflexivity.
Defined.

(** ** Columns of a frame *)

Lemma assoc_set_eq c s l : assoc c (set_assoc c s l) = Some s.
Proof.
  induction l as [|[c' s'] l IH]; simpl.
  - now rewrite String.eqb_refl.
  - destruct (String.eqb c c') eqn:E; simpl.
    + now rewrite String.eqb_refl.
    + now rewrite E.
Qed.

Lemma assoc_set_ne c c' s l :
  c <> c' -> assoc c' (set_assoc c s l) = assoc c' l.
Proof.
  intros Hne. induction l as [|[c2 s2] l IH]; simpl.
  - destruct (String.eqb c' c) eqn:E; [|reflexivity].
    apply String.eqb_eq in E. congruence.
  - destruct (String.eqb c c2) eqn:E; simpl.
    + apply String.eqb_eq in E. subst c2.
      destruct (String.eqb c' c) eqn:E'; [|reflexivity].
      apply String.eqb_eq in E'. congruence.
    + now rewrite IH.
Qed.

Lemma getcol_setcol_eq f c s : getcol (setcol f c s) c = inr s.
Proof. unfold getcol, setcol. simpl. now rewrite assoc_set_eq. Qed.

Lemma getcol_setcol_ne f c c' s :
  c <> c' -> getcol (setcol f c s) c' = getcol f c'.
Proof. intros H. unfold getcol, setcol. simpl. now rewrite assoc_set_ne. Qed.

Lemma assoc_elem c s l : assoc c l = Some s -> (c, s) ∈ l.
Proof.
  induction l as [|[c' s'] l IH]; simpl; [discriminate|].
  destruct (String.eqb c c') eqn:E.
  - apply String.eqb_eq in E. subst c'. intros H. injection H as ->.
    apply list_elem_of_here.
  - intros H. apply list_elem_of_further. auto.
Qed.

(** A column of a well-formed frame has one cell per row. *)
Lemma getcol_length f c s :
  wf_frame f -> getcol f c = inr s -> length s = nrows f.
Proof.
  unfold wf_frame, getcol. intros Hwf H.
  destruct (assoc c (cols f)) as [s'|] eqn:E; [|discriminate].
  injection H as ->. apply assoc_elem in E.
  rewrite Forall_forall in Hwf. apply (Hwf _ E).
Qed.

Lemma set_assoc_Forall (P : string * Series -> Prop) c s l :
  P (c, s) -> Forall P l -> Forall P (set_assoc c s l).
Proof.
  intros Hc. induction l as [|[c' s'] l IH]; simpl; intros Hl.
  - now repeat constructor.
  - apply Forall_cons in Hl as [H1 H2].
    destruct (String.eqb c c'); constructor; auto.
Qed.

Lemma setcol_wf f c s :
  wf_frame f -> length s = nrows f -> wf_frame (setcol f c s).
Proof.
  unfold wf_frame, setcol. simpl. intros Hwf Hs.
  now apply set_assoc_Forall.
Qed.

(** ** Loading *)

Lemma csv_frame_wf csv : wf_frame (csv_frame csv).
Proof.
  unfold wf_frame, csv_frame. cbn [cols nrows].
  apply Forall_forall. intros [c' s'] Hin.
  apply elem_of_lookup_imap in Hin as (j & x & Heq & _).
  injection Heq as -> ->. simpl. now rewrite length_map.
Qed.

Lemma read_csv_wf env path f : read_csv env path = inr f -> wf_frame f.
Proof.
  unfold read_csv. destruct (read_file env path) as [csv|]; [|discriminate].
  destruct (header csv) as [|c cs]; [discriminate|].
  destruct (forallb _ _); [|discriminate].
  intros H. injection H as <-. apply csv_frame_wf.
Qed.

Lemma to_datetime_length env s ts :
  to_datetime env s = inr ts -> length ts = length s.
Proof.
  revert ts. induction s as [|v s IH]; simpl; intros ts H.
  - now injection H as <-.
  - destruct (datetime_cell env v) as [e|t]; [discriminate|].
    destruct (to_datetime env s) as [e|ts']; [discriminate|].
    injection H as <-. simpl. now rewrite (IH ts').
Qed.

Lemma datetime_cell_instant env v t :
  datetime_cell env v = inr t -> is_instant t.
Proof.
  unfold is_instant. destruct v as [|b|z|q|s|ns|d]; simpl; intros H;
    try discriminate; try (injection H as <-; eauto; fail).
  - destruct (z =? NAT_INT64); [injection H as <-; eauto|].
    destruct (is_ns z); [|discriminate]. injection H as <-. eauto.
  - destruct (Qtruncate q =? NAT_INT64); [injection H as <-; eauto|].
    destruct (is_ns (Qtruncate q)); [|discriminate]. injection H as <-. eauto.
  - destruct (parse_datetime env s); [|discriminate].
    injection H as <-. eauto.
Qed.

Lemma to_datetime_instants env s ts :
  to_datetime env s = inr ts -> Forall is_instant ts.
Proof.
  revert ts. induction s as [|v s IH]; simpl; intros ts H.
  - injection H as <-. constructor.
  - destruct (datetime_cell env v) as [e|t] eqn:E; [discriminate|].
    destruct (to_datetime env s) as [e|ts']; [discriminate|].
    injection H as <-. constructor; eauto using datetime_cell_instant.
Qed.

(** A file whose records have one field more than the header: the first
    field of every record is the row label, the others are the columns. *)
Example read_csv_row_labels :
  read_csv
    {| read_file := fun _ =>
         Some {| header := ["city"; "order_value"];
                 records := [[VInt 7; VStr "Dubai"; VInt 40];
                             [VInt 8; VStr "Ajman"; VInt 25]] |};
       parse_datetime := fun _ => None;
       can_save := fun _ => true;
       now := fun _ => "1970-01-01 00:00:00" |} DATASET
  = inr {| nrows := 2;
           cols := [("city", [VStr "Dubai"; VStr "Ajman"]);
                    ("order_value", [VInt 40; VInt 25])] |}.
Proof. reflexivity. Qed.

(** A record with more fields than the first one has cannot be read. *)
Example read_csv_long_record :
  read_csv
    {| read_file := fun _ =>
         Some {| header := ["city"; "order_value"];
                 records := [[VStr "Dubai"; VInt 40];
                             [VInt 8; VStr "Ajman"; VInt 25]] |};
       parse_datetime := fun _ => None;
       can_save := fun _ => true;
       now := fun _ => "1970-01-01 00:00:00" |} DATASET
  = inl ParserError.
Proof. reflexivity. Qed.

(** Numbers as timestamps: the fraction of a nanosecond is cut off, the
    smallest int64 number is NaT, and [2 ^ 63] is out of bounds. *)
Example to_datetime_numbers :
  to_datetime quiet_env
    [VNum (37 # 10); VNum (- 7 # 10); VInt (- 2 ^ 63); VInt (2 ^ 63 - 1)]
  = inr [VTs 3; VTs 0; VNull; VTs 9223372036854775807] /\
  to_datetime quiet_env [VInt 5; VInt (2 ^ 63)] = inl OutOfBoundsDatetime.
Proof. split; reflexivity. Qed.

(** What loading leaves in the shared table. *)
Lemma load_inv env path df0 out r df :
  load_and_prepare_data env path df0 = (out, inr (r, df)) ->
  exists f raw ts,
    read_csv env path = inr f /\
    getcol f "order_datetime" = inr raw /\
    to_datetime env raw = inr ts /\
    df = setcol (setcol f "order_datetime" ts) "order_date" (dt_date ts).
Proof.
  unfold load_and_prepare_data. intros H. run_ok H.
  rewrite print_run in H. injection H as <- <- <-.
  rewrite getcol_setcol_eq in Hrun2. injection Hrun2 as <-.
  eauto 10.
Qed.

(** ** Stages that only read the table *)

Lemma read_only_ret {A} (a : A) : read_only (mret a).
Proof. intros df out r df' H. rewrite mret_run in H. now injection H as <- <- <-. Qed.

Lemma read_only_bind {A B} (m : M A) (k : A -> M B) :
  read_only m -> (forall a, read_only (k a)) -> read_only (m ≫= k).
Proof.
  intros Hm Hk df out r df' H.
  apply bind_ok_inv in H as (o1 & a & df1 & o2 & H1 & H2 & ->).
  apply Hm in H1. apply Hk in H2. congruence.
Qed.

Lemma read_only_print o : read_only (print o).
Proof. intros df out r df' H. rewrite print_run in H. now injection H as <- <- <-. Qed.

Lemma read_only_lift {A} (r : Err + A) : read_only (lift r).
Proof. intros df out a df' H. now apply lift_ok_inv in H as (_ & _ & ->). Qed.

Lemma read_only_col c : read_only (col c).
Proof. intros df out a df' H. now apply col_ok_inv in H as (_ & _ & ->). Qed.

Lemma read_only_len_df : read_only len_df.
Proof. intros df out a df' H. rewrite len_df_run in H. now injection H as <- <- <-. Qed.

Lemma read_only_get_df : read_only get_df.
Proof. intros df out a df' H. rewrite get_df_run in H. now injection H as <- <- <-. Qed.

Lemma read_only_raise {A} e : read_only (raise (A:=A) e).
Proof. intros df out a df' H. discriminate H. Qed.

Create HintDb readonly discriminated.

#[global] Hint Resolve read_only_ret read_only_print read_only_lift
  read_only_col read_only_len_df read_only_get_df read_only_raise : readonly.

(** Walk through a computation bind by bind. *)
Ltac read_only_tac :=
  repeat first
    [ apply read_only_bind; [|intros ?]
    | solve [auto with readonly] ].

Lemma read_only_print_each {A} (line : A -> Out) xs :
  read_only (print_each line xs).
Proof. induction xs as [|x xs IH]; simpl; read_only_tac. Qed.

Lemma read_only_print_stat text d r : read_only (print_stat text d r).
Proof. unfold print_stat. read_only_tac. Qed.

Lemma read_only_savefig env file title plots :
  read_only (savefig env file title plots).
Proof. unfold savefig. destruct (can_save env file); auto with readonly. Qed.

Lemma read_only_lineplot data x y hue : read_only (lineplot data x y hue).
Proof. unfold lineplot. destruct (_ && _ && _)%bool; auto with readonly. Qed.

#[global] Hint Resolve read_only_print_each read_only_print_stat
  read_only_savefig read_only_lineplot : readonly.

Lemma explore_data_read_only : read_only explore_data.
Proof. unfold explore_data. read_only_tac. Qed.

Lemma analyze_daily_trends_read_only env : read_only (analyze_daily_trends env).
Proof. unfold analyze_daily_trends. read_only_tac. Qed.

Lemma analyze_city_trends_read_only env : read_only (analyze_city_trends env).
Proof. unfold analyze_city_trends. read_only_tac. Qed.

Lemma create_visualizations_read_only env daily_orders city_trends :
  read_only (create_visualizations env daily_orders city_trends).
Proof. unfold create_visualizations. read_only_tac. Qed.

Lemma analyze_business_insights_read_only : read_only analyze_business_insights.
Proof. unfold analyze_business_insights. read_only_tac. Qed.


(** ** The loaded table *)

Lemma lookup_map {A B} (f : A -> B) (l : list A) i :
  map f l !! i = f <$> (l !! i).
Proof.
  revert i. induction l as [|x l IH]; intros [|i]; simpl; auto.
Qed.

Lemma loaded_inv env df :
  loaded env = Some df ->
  exists f raw ts,
    read_csv env DATASET = inr f /\
    getcol f "order_datetime" = inr raw /\
    to_datetime env raw = inr ts /\
    df = setcol (setcol f "order_datetime" ts) "order_date" (dt_date ts).
Proof.
  unfold loaded.
  destruct (load_and_prepare_data env DATASET empty_frame) as [out [e|[r df1]]] eqn:E;
    [discriminate|].
  intros H. injection H as <-. eapply load_inv. exact E.
Qed.

Lemma loaded_columns env df :
  loaded env = Some df ->
  exists ts,
    getcol df "order_datetime" = inr ts /\
    getcol df "order_date" = inr (dt_date ts) /\
    length ts = nrows df /\ Forall is_instant ts /\ wf_frame df.
Proof.
  intros H. apply loaded_inv in H as (f & raw & ts & Hf & Hraw & Hts & ->).
  pose proof (read_csv_wf _ _ _ Hf) as Hwf.
  assert (length ts = nrows f) as Hlen.
  { rewrite (to_datetime_length _ _ _ Hts). eapply getcol_length; eauto. }
  exists ts. split; [|split; [|split; [|split]]].
  - rewrite getcol_setcol_ne by discriminate. apply getcol_setcol_eq.
  - apply getcol_setcol_eq.
  - exact Hlen.
  - eapply to_datetime_instants. exact Hts.
  - apply setcol_wf; [apply setcol_wf; assumption|].
    unfold dt_date. now rewrite length_map.
Qed.

(** Truncation to the day: the day of an instant starts at or before the
    instant and the next day starts after it. *)
Lemma day_of_bounds ns :
  midnight (day_of ns) <= ns < midnight (day_of ns + 1).
Proof.
  unfold midnight, day_of, NS_PER_DAY.
  pose proof (Z.div_mod ns 86400000000000 ltac:(lia)) as Hdm.
  pose proof (Z.mod_pos_bound ns 86400000000000 ltac:(lia)) as Hb.
  lia.
Qed.

(** A completed run ends with the table that loading produced. *)
Lemma run_table env out r df' :
  run env = (out, inr (r, df')) -> loaded env = Some df'.
Proof.
  unfold run, main, loaded. intros H. run_ok H.
  rewrite print_run in H. injection H as <- <- <-.
  rewrite Hrun. f_equal.
  apply explore_data_read_only in Hrun0.
  apply analyze_daily_trends_read_only in Hrun1.
  apply analyze_city_trends_read_only in Hrun2.
  apply create_visualizations_read_only in Hrun3.
  apply analyze_business_insights_read_only in Hrun4.
  congruence.
Qed.

(** C6. After loading, every row's [order_date] is its [order_datetime]
    truncated to the calendar day (NaT stays NaT), and no later stage
    changes the table: each stage returns it as it found it, so a
    completed run ends with the loaded table. *)
Theorem order_date_truncates_datetime env df :
  loaded env = Some df ->
  (exists ts dates,
     getcol df "order_datetime" = inr ts /\
     getcol df "order_date" = inr dates /\
     length ts = nrows df /\ length dates = nrows df /\
     forall i, (i < nrows df)%nat ->
       (ts !! i = Some VNull /\ dates !! i = Some VNull) \/
       (exists ns,
          ts !! i = Some (VTs ns) /\
          dates !! i = Some (VDate (ns / NS_PER_DAY)) /\
          (ns / NS_PER_DAY) * NS_PER_DAY <= ns
            < (ns / NS_PER_DAY + 1) * NS_PER_DAY)) /\
  read_only explore_data /\
  read_only (analyze_daily_trends env) /\
  read_only (analyze_city_trends env) /\
  (forall daily_orders city_trends,
     read_only (create_visualizations env daily_orders city_trends)) /\
  read_only analyze_business_insights /\
  (forall out r df', run env = (out, inr (r, df')) -> df' = df).
Proof.
  intros Hl. split; [|repeat split].
  - destruct (loaded_columns env df Hl) as (ts & Hts & Hd & Hlen & Hinst & _).
    exists ts, (dt_date ts). repeat (split; [assumption|]).
    split; [unfold dt_date; now rewrite length_map|].
    intros i Hi.
    destruct (lookup_lt_is_Some_2 ts i) as [t Ht]; [lia|].
    rewrite Forall_forall in Hinst.
    pose proof (Hinst t ltac:(eapply list_elem_of_lookup_2; eauto)) as [->|[ns ->]].
    + left. split; [exact Ht|]. unfold dt_date.
      rewrite lookup_map, Ht. reflexivity.
    + right. exists ns. split; [exact Ht|]. split.
      * unfold dt_date. rewrite lookup_map, Ht. reflexivity.
      * apply day_of_bounds.
  - apply explore_data_read_only.
  - apply analyze_daily_trends_read_only.
  - apply analyze_city_trends_read_only.
  - intros. apply create_visualizations_read_only.
  - apply analyze_business_insights_read_only.
  - intros out r df' H. apply run_table in H. congruence.
Qed.

Lemma order_date_truncates_datetime_witness :
  (exists ts dates,
     getcol sample_table "order_datetime" = inr ts /\
     getcol sample_table "order_date" = inr dates /\
     length ts = nrows sample_table /\ length dates = nrows sample_table /\
     forall i, (i < nrows sample_table)%nat ->
       (ts !! i = Some VNull /\ dates !! i = Some VNull) \/
       (exists ns,
          ts !! i = Some (VTs ns) /\
          dates !! i = Some (VDate (ns / NS_PER_DAY)) /\
          (ns / NS_PER_DAY) * NS_PER_DAY <= ns
            < (ns / NS_PER_DAY + 1) * NS_PER_DAY)) /\
  read_only explore_data /\
  read_only (analyze_daily_trends sample_env) /\
  read_only (analyze_city_trends sample_env) /\
  (forall daily_orders city_trends,
     read_only (create_visualizations sample_env daily_orders city_trends)) /\
  read_only analyze_business_insights /\
  (forall out r df', run sample_env = (out, inr (r, df')) -> df' = sample_table).
Proof.
  apply (order_date_truncates_datetime sample_env sample_table).
  vm_compute. reflexivity.
Defined.

(** ** The daily stage succeeds once the series is built *)


Lemma series_mean_ints zs :
  series_mean (map VInt zs) = inr (mean_of (map inject_Z zs)).
Proof. unfold series_mean. now rewrite to_floats_ints, observed_ints. Qed.





(** ** Group sizes of a column *)

Lemma groupby_size_keys keys :
  map fst (groupby_size keys)
  = map fst (group_rows value_compare
               (map (fun k => (k, tt)) (filter (fun k => notnull k = true) keys))).
Proof. unfold groupby_size. now rewrite map_map. Qed.

Lemma map_fst_tagged {A} (l : list A) : map fst (map (fun k => (k, tt)) l) = l.
Proof. rewrite map_map. simpl. apply map_id. Qed.

Lemma groupby_size_sorted keys :
  StronglySorted (cmp_lt value_compare) (map fst (groupby_size keys)).
Proof. rewrite groupby_size_keys. apply group_rows_sorted. apply _. Qed.

Lemma groupby_size_sound keys k :
  k ∈ map fst (groupby_size keys) -> k ∈ keys /\ notnull k = true.
Proof.
  rewrite groupby_size_keys. intros H.
  apply group_rows_sound in H. rewrite map_fst_tagged in H.
  apply list_elem_of_filter in H as [H1 H2]. auto.
Qed.

Lemma groupby_size_complete keys k :
  k ∈ keys -> notnull k = true ->
  exists k', k' ∈ map fst (groupby_size keys) /\ value_compare k k' = Eq.
Proof.
  intros Hin Hnn. rewrite groupby_size_keys.
  destruct (group_rows_complete value_compare k tt
              (map (fun k => (k, tt)) (filter (fun k => notnull k = true) keys)))
    as (k' & vs & Hg & Heq).
  { apply (list_elem_of_fmap_2 (fun k => (k, tt))).
    apply list_elem_of_filter. auto. }
  exists k'. split; [|exact Heq].
  apply (list_elem_of_fmap_2 fst) in Hg. exact Hg.
Qed.

Lemma sum_list_sizes (g : list (value * list unit)) :
  sum_list (map snd (map (fun g => (fst g, length (snd g))) g)) = total_rows g.
Proof. unfold total_rows. now rewrite map_map. Qed.

(** The group sizes add up to the number of rows whose key is not null. *)
Lemma groupby_size_total keys :
  sum_list (map snd (groupby_size keys))
  = length (filter (fun k => notnull k = true) keys).
Proof.
  unfold groupby_size. rewrite sum_list_sizes, group_rows_total.
  now rewrite length_map.
Qed.

(** ** Dates of the daily series *)











(** ** Counting categories *)

Lemma value_eqb_refl k : value_eqb k k = true.
Proof. unfold value_eqb. now rewrite (cmp_refl (cmp:=value_compare)). Qed.

Lemma value_eqb_sym a b : value_eqb a b = value_eqb b a.
Proof.
  unfold value_eqb. rewrite (value_compare_antisym a b).
  now destruct (value_compare a b).
Qed.

Lemma value_eqb_compat a b c :
  value_eqb a b = true -> value_eqb c a = value_eqb c b.
Proof.
  unfold value_eqb. destruct (value_compare a b) eqn:E; try discriminate.
  intros _. now rewrite (cmp_eq_compat_r value_compare a b c E).
Qed.

Lemma value_eqb_null k : notnull k = true -> value_eqb k VNull = false.
Proof. now destruct k. Qed.

Lemma sum_list_map {A} (f : A -> nat) l : sum_list (map f l) = sum_list_with f l.
Proof. induction l as [|x l IH]; simpl; [reflexivity|]. now rewrite IH. Qed.

Lemma groupby_size_total_count keys :
  total_count (groupby_size keys) = count_notnull keys.
Proof. unfold total_count. rewrite <- sum_list_map. apply groupby_size_total. Qed.




Lemma sort_values_desc_perm {A} (cell : A -> value) (s : list (value * A)) :
  sort_values_desc cell s ≡ₚ s.
Proof. apply sort_desc_perm. Qed.


Lemma city_stats_total city : total_count (city_stats city) = count_notnull city.
Proof.
  unfold city_stats, total_count.
  rewrite sort_values_desc_perm. apply groupby_size_total_count.
Qed.

Lemma tally_tallied k k' l :
  tallied k (tally k' l) = ((if value_eqb k k' then 1 else 0) + tallied k l)%nat.
Proof.
  induction l as [|[k2 n] l IH]; simpl.
  - lia.
  - destruct (value_eqb k' k2) eqn:E; simpl.
    + rewrite (value_eqb_compat k' k2 k E).
      destruct (value_eqb k k2); lia.
    + rewrite IH. lia.
Qed.

Lemma fold_tally_tallied k ks : forall acc,
  tallied k (fold_left (fun acc k => tally k acc) ks acc)
  = (count_equal k ks + tallied k acc)%nat.
Proof.
  unfold count_equal.
  induction ks as [|k' ks IH]; intros acc; simpl; [reflexivity|].
  rewrite IH, tally_tallied. rewrite filter_cons.
  destruct (decide _) as [->|Hne]; simpl; [lia|].
  destruct (value_eqb k k'); [congruence|lia].
Qed.

Lemma tally_keys_Forall (P : value * nat -> Prop) k l :
  (forall n, P (k, n)) ->
  (forall k' n, P (k', n) -> P (k', S n)) ->
  Forall P l -> Forall P (tally k l).
Proof.
  intros Hk HS. induction l as [|[k' n] l IH]; simpl; intros Hl.
  - now repeat constructor.
  - apply Forall_cons in Hl as [H1 H2].
    destruct (value_eqb k k'); constructor; auto.
Qed.

Lemma tally_distinct k l : distinct_keys l -> distinct_keys (tally k l).
Proof.
  induction l as [|[k' n] l IH]; simpl; intros Hd.
  - split; [constructor|exact I].
  - destruct Hd as [Hk' Hd].
    destruct (value_eqb k k') eqn:E; simpl.
    + now split.
    + split; [|now apply IH].
      apply tally_keys_Forall; simpl; auto.
      intros _. now rewrite value_eqb_sym.
Qed.

Lemma fold_tally_distinct ks : forall acc,
  distinct_keys acc -> distinct_keys (fold_left (fun acc k => tally k acc) ks acc).
Proof.
  induction ks as [|k ks IH]; intros acc H; simpl; [exact H|].
  apply IH, tally_distinct, H.
Qed.

Lemma distinct_tallied k n l :
  distinct_keys l -> (k, n) ∈ l -> tallied k l = n.
Proof.
  induction l as [|[k' n'] l IH]; simpl; intros Hd Hin.
  - now apply elem_of_nil in Hin.
  - destruct Hd as [Hk' Hd].
    apply elem_of_cons in Hin as [Heq|Hin].
    + injection Heq as -> ->. rewrite value_eqb_refl.
      assert (tallied k' l = 0%nat) as ->; [|lia].
      clear IH Hd. induction l as [|[k2 m] l IH]; simpl; [reflexivity|].
      apply Forall_cons in Hk' as [H1 H2]. simpl in H1. rewrite H1. simpl. auto.
    + rewrite (IH Hd Hin).
      rewrite Forall_forall in Hk'. specialize (Hk' _ Hin). simpl in Hk'.
      rewrite value_eqb_sym, Hk'. reflexivity.
Qed.

Lemma count_equal_notnull k s :
  notnull k = true ->
  count_equal k (filter (fun v => notnull v = true) s) = count_equal k s.
Proof.
  intros Hk. unfold count_equal.
  induction s as [|v s IH]; simpl; [reflexivity|].
  rewrite !filter_cons. destruct (decide (notnull v = true)) as [Hv|Hv].
  - rewrite filter_cons. destruct (decide _); simpl; now rewrite IH.
  - destruct (decide _) as [He|He]; [|exact IH].
    destruct v; try (exfalso; apply Hv; reflexivity).
    rewrite value_eqb_null in He by exact Hk. discriminate.
Qed.

Lemma tally_keys_from k l x :
  x ∈ map fst (tally k l) -> x = k \/ x ∈ map fst l.
Proof.
  induction l as [|[k' n] l IH]; simpl.
  - intros H. apply list_elem_of_singleton in H. now left.
  - destruct (value_eqb k k'); simpl; intros H.
    + now right.
    + apply elem_of_cons in H as [->|H]; [right; apply list_elem_of_here|].
      destruct (IH H) as [->|H']; [now left|right; now apply list_elem_of_further].
Qed.

Lemma tally_all_keys s k :
  k ∈ map fst (tally_all s) -> k ∈ s /\ notnull k = true.
Proof.
  unfold tally_all.
  assert (forall ks acc,
            k ∈ map fst (fold_left (fun acc k => tally k acc) ks acc) ->
            k ∈ ks \/ k ∈ map fst acc) as H.
  { induction ks as [|k' ks IH]; intros acc; simpl; [now right|].
    intros Hx. destruct (IH _ Hx) as [Hx'|Hx'].
    - left. now apply list_elem_of_further.
    - destruct (tally_keys_from _ _ _ Hx') as [->|Hx2];
        [left; apply list_elem_of_here|now right]. }
  intros Hk. destruct (H _ _ Hk) as [Hk'|Hk'].
  - apply list_elem_of_filter in Hk' as [H1 H2]. auto.
  - now apply elem_of_nil in Hk'.
Qed.

(** [value_counts] reports, for a category, the number of cells equal to
    it; a null is never a category. *)
Lemma value_counts_spec s k n :
  (k, n) ∈ value_counts s ->
  k ∈ s /\ notnull k = true /\ n = count_equal k s.
Proof.
  unfold value_counts. rewrite sort_values_desc_perm. intros Hin.
  destruct (tally_all_keys s k) as [Hk Hnn].
  { apply (list_elem_of_fmap_2 fst) in Hin. exact Hin. }
  split; [exact Hk|]. split; [exact Hnn|].
  rewrite <- (count_equal_notnull k s Hnn).
  pose proof (fold_tally_tallied k (filter (fun v => notnull v = true) s) []) as Ht.
  simpl in Ht. rewrite Nat.add_0_r in Ht. rewrite <- Ht.
  symmetry. apply distinct_tallied; [|exact Hin].
  apply fold_tally_distinct. exact I.
Qed.

Lemma filter_tagged_length k (l : list value) :
  length (rows_of value_compare k (map (fun v => (v, tt)) l)) = count_equal k l.
Proof.
  unfold rows_of, count_equal. rewrite length_map.
  induction l as [|v l IH]; simpl; [reflexivity|].
  rewrite !filter_cons. simpl.
  change (is_Eq (value_compare k v)) with (value_eqb k v).
  destruct (decide (value_eqb k v = true)); simpl; now rewrite IH.
Qed.

(** [groupby(...).size()] reports, for a key, the number of rows that
    carry it; a null is never a key. *)
Lemma groupby_size_spec s k n :
  (k, n) ∈ groupby_size s ->
  k ∈ s /\ notnull k = true /\ n = count_equal k s.
Proof.
  intros Hin.
  destruct (groupby_size_sound s k) as [Hk Hnn].
  { apply (list_elem_of_fmap_2 fst) in Hin. exact Hin. }
  split; [exact Hk|]. split; [exact Hnn|].
  unfold groupby_size in Hin.
  apply list_elem_of_fmap in Hin as ([k' vs] & Heq & Hg).
  simpl in Heq. injection Heq as -> ->.
  apply group_rows_spec in Hg; [|apply _]. subst vs.
  rewrite filter_tagged_length. now apply count_equal_notnull.
Qed.

Lemma filter_length_all {A} (P : A -> Prop) `{!forall x, Decision (P x)} (l : list A) :
  length (filter P l) = length l <-> Forall P l.
Proof.
  induction l as [|x l IH]; simpl.
  - split; [constructor|reflexivity].
  - rewrite filter_cons. destruct (decide (P x)) as [Hx|Hx]; simpl.
    + split.
      * intros Hf. constructor; [exact Hx|]. apply IH. lia.
      * intros Hf. apply Forall_cons in Hf as [_ Hf]. apply IH in Hf. lia.
    + pose proof (length_filter P l). split; [lia|].
      intros Hf. apply Forall_cons in Hf as [Hf _]. contradiction.
Qed.

(** ** The city stage *)

Lemma analyze_city_trends_inv env df out city_trends df' :
  analyze_city_trends env df = (out, inr (city_trends, df')) ->
  exists city od avg,
    getcol df "city" = inr city /\
    getcol df "order_date" = inr od /\
    city_series env od city = inr city_trends /\
    avg_daily_city city_trends = inr avg /\
    out = [Line banner; Line "CITY TRENDS ANALYSIS"; Line banner;
           Line "Total orders by city:";
           ShowSeries (show_sizes (city_stats city));
           Line "Average daily orders per city:";
           ShowSeries (round_series 1 avg)] /\
    df' = df.
Proof.
  unfold analyze_city_trends. intros H. run_ok H.
  rewrite mret_run in H. injection H as <- <- <-.
  rewrite Hrun in Hrun1. injection Hrun1 as <-.
  exists a, a0, a3. repeat (split; [assumption|]). split; reflexivity.
Qed.

(** C3, amended. The per-city totals printed by the city stage add up to
    the number of rows whose city is not null; they add up to the row
    count of the table exactly when no row lacks a city. *)
Theorem city_totals_count_rows env df out city_trends df' :
  loaded env = Some df ->
  analyze_city_trends env df = (out, inr (city_trends, df')) ->
  exists city,
    getcol df "city" = inr city /\
    ShowSeries (show_sizes (city_stats city)) ∈ out /\
    total_count (city_stats city) = count_notnull city /\
    (total_count (city_stats city) = nrows df <->
     Forall (fun v => notnull v = true) city).
Proof.
  intros Hl H.
  apply analyze_city_trends_inv in H as (city & od & avg & Hc & _ & _ & _ & -> & _).
  destruct (loaded_columns env df Hl) as (ts & _ & _ & _ & _ & Hwf).
  exists city. split; [exact Hc|]. split.
  { do 4 apply list_elem_of_further. apply list_elem_of_here. }
  split; [apply city_stats_total|].
  rewrite city_stats_total. unfold count_notnull.
  rewrite <- (getcol_length df "city" city Hwf Hc).
  apply filter_length_all.
Qed.

Lemma city_totals_count_rows_witness :
  exists (out : list Out) city,
    getcol sample_table "city" = inr city /\
    ShowSeries (show_sizes (city_stats city)) ∈ out /\
    total_count (city_stats city) = count_notnull city /\
    (total_count (city_stats city) = nrows sample_table <->
     Forall (fun v => notnull v = true) city).
Proof.
  eexists.
  eapply (city_totals_count_rows sample_env sample_table).
  - vm_compute. reflexivity.
  - vm_compute. reflexivity.
Defined.

(** C3 as stated fails: in the sample table one of the three orders has
    no city, and the per-city totals add up to two. *)
Lemma city_totals_miss_rows :
  exists (out : list Out) city_trends city,
    loaded sample_env = Some sample_table /\
    analyze_city_trends sample_env sample_table
      = (out, inr (city_trends, sample_table)) /\
    getcol sample_table "city" = inr city /\
    ShowSeries (show_sizes (city_stats city)) ∈ out /\
    total_count (city_stats city) = 2%nat /\
    nrows sample_table = 3%nat /\
    total_count (city_stats city) <> nrows sample_table.
Proof.
  eexists _, _, _.
  split; [vm_compute; reflexivity|].
  split; [vm_compute; reflexivity|].
  split; [vm_compute; reflexivity|].
  split; [do 4 apply list_elem_of_further; apply list_elem_of_here|].
  split; [vm_compute; reflexivity|].
  split; [reflexivity|].
  vm_compute. discriminate.
Qed.

(** ** The busiest days *)

Lemma value_geb_total a b : value_geb a b = true \/ value_geb b a = true.
Proof.
  unfold value_geb. rewrite (value_compare_antisym a b).
  destruct (value_compare a b); simpl; auto.
Qed.

Lemma value_geb_trans a b c :
  value_geb a b = true -> value_geb b c = true -> value_geb a c = true.
Proof.
  unfold value_geb.
  destruct (value_compare a c) eqn:Eac; auto.
  destruct (value_compare a b) eqn:Eab; try discriminate; intros _.
  - rewrite <- (value_compare_eq_compat a b c Eab), Eac. discriminate.
  - destruct (value_compare b c) eqn:Ebc; try discriminate; intros _.
    + rewrite (cmp_eq_compat_r value_compare b c a Ebc) in Eab. congruence.
    + assert (value_compare c a = Lt) as Hca.
      { eapply value_compare_lt_trans; [|apply cmp_gt_lt; [apply _|exact Eab]].
        apply cmp_gt_lt; [apply _|exact Ebc]. }
      rewrite (value_compare_antisym a c), Eac in Hca. discriminate.
Qed.

Lemma value_geb_ints a b : value_geb (VInt a) (VInt b) = true -> b <= a.
Proof.
  unfold value_geb. simpl.
  destruct (Z.compare_spec a b); [lia|discriminate|lia].
Qed.

Lemma by_cell_desc_total a b : by_cell_desc a b = true \/ by_cell_desc b a = true.
Proof. apply value_geb_total. Qed.

Lemma by_cell_desc_trans a b c :
  by_cell_desc a b = true -> by_cell_desc b c = true -> by_cell_desc a c = true.
Proof. apply value_geb_trans. Qed.

Lemma zip_seq_elem {A} (s : list A) start i v :
  (i, v) ∈ zip (seq start (length s)) s <->
  (start <= i)%nat /\ s !! (i - start)%nat = Some v.
Proof.
  revert start. induction s as [|x s IH]; intros start; simpl.
  - split; [intros H; now apply elem_of_nil in H|intros [_ H]; discriminate].
  - rewrite elem_of_cons, IH. split.
    + intros [Heq|[Hle Hl]].
      * injection Heq as -> ->. split; [lia|]. now rewrite Nat.sub_diag.
      * split; [lia|]. replace (i - start)%nat with (S (i - S start)) by lia.
        exact Hl.
    + intros [Hle Hl]. destruct (decide (i = start)) as [->|Hne].
      * left. rewrite Nat.sub_diag in Hl. simpl in Hl. congruence.
      * right. split; [lia|].
        replace (i - start)%nat with (S (i - S start)) in Hl by lia. exact Hl.
Qed.

Lemma zip_seq_fst {A} (s : list A) start :
  map fst (zip (seq start (length s)) s) = seq start (length s).
Proof.
  revert start. induction s as [|x s IH]; intros start; simpl; [reflexivity|].
  now rewrite IH.
Qed.

Lemma filter_all {A} (P : A -> Prop) `{!forall x, Decision (P x)} (l : list A) :
  Forall P l -> filter P l = l.
Proof.
  induction 1 as [|x l Hx Hl IH]; [reflexivity|].
  rewrite filter_cons. destruct (decide (P x)); [|contradiction]. now rewrite IH.
Qed.

Lemma NoDup_take {A} n (l : list A) : NoDup l -> NoDup (take n l).
Proof.
  intros H. rewrite <- (take_drop n l) in H. now apply NoDup_app in H as [H _].
Qed.

(** Positions picked by [nlargest] over a column of integers: distinct
    rows, as many as asked for if there are that many, and no row left
    out holds more than a row picked. *)
Lemma largest_positions_ints n (zs : list Z) :
  let idx := largest_positions n (map VInt zs) in
  length idx = Nat.min n (length zs) /\
  NoDup idx /\
  (forall i, i ∈ idx -> (i < length zs)%nat) /\
  (forall i j ci cj,
     i ∈ idx -> j ∉ idx ->
     zs !! i = Some ci -> zs !! j = Some cj -> cj <= ci) /\
  StronglySorted (fun i j => exists ci cj,
                    zs !! i = Some ci /\ zs !! j = Some cj /\ cj <= ci) idx.
Proof.
  unfold largest_positions.
  set (rows := zip (seq 0 (length (map VInt zs))) (map VInt zs)).
  assert (Forall (fun iv : nat * value => exists c, snd iv = VInt c) rows) as Hints.
  { apply Forall_forall. intros [i v] Hin.
    apply zip_seq_elem in Hin as [_ Hin]. rewrite lookup_map in Hin.
    destruct (zs !! _) as [c|]; [|discriminate]. injection Hin as <-. now exists c. }
  assert (filter (fun iv : nat * value => notnull (snd iv) = true) rows = rows) as ->.
  { apply filter_all. eapply Forall_impl; [exact Hints|].
    intros iv [c ->]. reflexivity. }
  assert (filter (fun iv : nat * value => is_null (snd iv) = true) rows = []) as ->.
  { clear -Hints. induction Hints as [|iv l [c Hc] Hl IH]; [reflexivity|].
    rewrite filter_cons. destruct (decide _) as [E|E]; [|exact IH].
    rewrite Hc in E. discriminate. }
  rewrite app_nil_r.
  set (sorted := sort_desc by_cell_desc rows).
  assert (sorted ≡ₚ rows) as Hperm by apply sort_desc_perm.
  assert (StronglySorted (desc by_cell_desc) sorted) as Hsorted.
  { apply sort_desc_sorted; [apply by_cell_desc_total|apply by_cell_desc_trans]. }
  assert (forall i v, (i, v) ∈ sorted <-> exists c, v = VInt c /\ zs !! i = Some c) as Hel.
  { intros i v. rewrite Hperm. unfold rows. rewrite zip_seq_elem.
    rewrite Nat.sub_0_r, lookup_map. split.
    - intros [_ H]. destruct (zs !! i) as [c|]; [|discriminate].
      injection H as <-. eauto.
    - intros (c & -> & ->). split; [lia|reflexivity]. }
  assert (NoDup (map fst sorted)) as Hnd.
  { change (map fst sorted) with (fst <$> sorted). rewrite Hperm.
    unfold rows. change (fst <$> ?l) with (map fst l).
    rewrite zip_seq_fst. apply NoDup_seq. }
  assert (length sorted = length zs) as Hlen.
  { rewrite Hperm. unfold rows. rewrite length_zip, length_seq, length_map. lia. }
  simpl. split; [|split; [|split; [|split]]].
  - rewrite length_map, length_take. lia.
  - rewrite <- firstn_map. now apply NoDup_take.
  - intros i Hi. apply list_elem_of_fmap in Hi as ([i' v] & -> & Hin).
    apply elem_of_take in Hin as (k & Hk & _).
    apply list_elem_of_lookup_2 in Hk. apply Hel in Hk as (c & _ & Hc).
    simpl. now apply lookup_lt_Some in Hc.
  - intros i j ci cj Hi Hj Hci Hcj.
    apply list_elem_of_fmap in Hi as ([i' v] & Heq & Hin). simpl in Heq. subst i'.
    assert ((j, VInt cj) ∈ drop n sorted) as Hdrop.
    { assert ((j, VInt cj) ∈ sorted) as Hs by (apply Hel; eauto).
      rewrite <- (take_drop n sorted) in Hs.
      apply elem_of_app in Hs as [Hs|Hs]; [|exact Hs].
      exfalso. apply Hj. apply (list_elem_of_fmap_2 fst) in Hs. exact Hs. }
    pose proof (sorted_take_drop by_cell_desc n sorted _ _ Hsorted Hin Hdrop) as Hge.
    assert ((i, v) ∈ sorted) as Hiv.
    { rewrite <- (take_drop n sorted). apply elem_of_app. now left. }
    apply Hel in Hiv as (c & -> & Hc). rewrite Hci in Hc. injection Hc as <-.
    now apply value_geb_ints.
  - assert (StronglySorted (desc by_cell_desc) (take n sorted)) as Ht.
    { clear -Hsorted. revert n. induction Hsorted as [|x l Hs IH Hx]; intros [|n]; simpl;
        try constructor; auto.
      apply Forall_forall. intros y Hy. rewrite Forall_forall in Hx. apply Hx.
      apply elem_of_take in Hy as (k & Hk & _). eapply list_elem_of_lookup_2; eauto. }
    assert (Forall (fun r => (r.1, r.2) ∈ sorted) (take n sorted)) as Hin.
    { apply Forall_forall. intros [i v] Hy. simpl.
      rewrite <- (take_drop n sorted). apply elem_of_app. now left. }
    induction Ht as [|[i v] l Hs IH Hx]; simpl; [constructor|].
    apply Forall_cons in Hin as [Hi Hin].
    constructor; [now apply IH|].
    apply Forall_forall. intros j Hj.
    apply list_elem_of_fmap in Hj as ([j' w] & -> & Hjw).
    rewrite Forall_forall in Hx, Hin.
    specialize (Hx _ Hjw). specialize (Hin _ Hjw). simpl in *.
    apply Hel in Hi as (ci & -> & Hci). apply Hel in Hin as (cj & -> & Hcj).
    exists ci, cj. split; [exact Hci|]. split; [exact Hcj|].
    now apply value_geb_ints.
Qed.

Lemma analyze_daily_trends_top env df out daily df' :
  analyze_daily_trends env df = (out, inr (daily, df')) ->
  exists top, busiest_days daily = inr top /\ ShowFrame top ∈ out.
Proof.
  unfold analyze_daily_trends. intros H. run_ok H.
  rewrite mret_run in H. injection H as <- <- <-.
  eexists. split; [eassumption|].
  rewrite !elem_of_app, !list_elem_of_singleton. tauto.
Qed.

(** C5. The busiest days printed by the daily stage are rows of the daily
    series: five of them (all rows when the series has fewer), no row
    twice, listed with the largest counts first, and no row left out
    has a larger count than a row listed. *)
Theorem busiest_days_are_largest env df out daily df' :
  analyze_daily_trends env df = (out, inr (daily, df')) ->
  exists dates counts idx,
    getcol daily "order_date" = inr dates /\
    getcol daily "order_count" = inr (map VInt counts) /\
    length dates = nrows daily /\ length counts = nrows daily /\
    ShowFrame [("order_date", map (fun i => nth i dates VNull) idx);
               ("order_count", map (fun i => nth i (map VInt counts) VNull) idx)] ∈ out /\
    length idx = Nat.min 5 (nrows daily) /\
    NoDup idx /\
    (forall i, i ∈ idx -> (i < nrows daily)%nat) /\
    (forall i j ci cj,
       i ∈ idx -> j ∉ idx ->
       counts !! i = Some ci -> counts !! j = Some cj -> cj <= ci) /\
    StronglySorted (fun i j => exists ci cj,
                      counts !! i = Some ci /\ counts !! j = Some cj /\ cj <= ci) idx.
Proof.
  intros H.
  destruct (analyze_daily_trends_top _ _ _ _ _ H) as (top & Htop & Hout).
  apply analyze_daily_trends_inv in H as (od & _ & H & _).
  apply daily_series_inv in H as (ts & Hts & ->).
  set (g := groupby_size od) in *.
  assert (length (sizes_Z g) = length g) as Hlen.
  { unfold sizes_Z. now rewrite length_map. }
  destruct (largest_positions_ints 5 (sizes_Z g)) as (H1 & H2 & H3 & H4 & H5).
  exists ts, (sizes_Z g), (largest_positions 5 (map VInt (sizes_Z g))).
  split; [reflexivity|]. split; [reflexivity|].
  split. { rewrite (to_datetime_length _ _ _ Hts). now rewrite length_map. }
  split; [exact Hlen|].
  split. { injection Htop as <-. exact Hout. }
  cbn [nrows]. rewrite <- Hlen. auto.
Qed.

Lemma busiest_days_are_largest_witness :
  exists (out : list Out) dates counts idx,
    getcol week_daily "order_date" = inr dates /\
    getcol week_daily "order_count" = inr (map VInt counts) /\
    length dates = nrows week_daily /\ length counts = nrows week_daily /\
    ShowFrame [("order_date", map (fun i => nth i dates VNull) idx);
               ("order_count", map (fun i => nth i (map VInt counts) VNull) idx)] ∈ out /\
    length idx = Nat.min 5 (nrows week_daily) /\
    NoDup idx /\
    (forall i, i ∈ idx -> (i < nrows week_daily)%nat) /\
    (forall i j ci cj,
       i ∈ idx -> j ∉ idx ->
       counts !! i = Some ci -> counts !! j = Some cj -> cj <= ci) /\
    StronglySorted (fun i j => exists ci cj,
                      counts !! i = Some ci /\ counts !! j = Some cj /\ cj <= ci) idx.
Proof.
  eexists.
  eapply (busiest_days_are_largest quiet_env week_table).
  vm_compute. reflexivity.
Defined.

(** ** Mean daily orders per city *)

Lemma value_compare_eq_null a b :
  value_compare a b = Eq -> is_null a = is_null b.
Proof. destruct a, b; simpl; try discriminate; reflexivity. Qed.

Lemma zip_floats_of_ints (keys : Series) (counts : list Z) :
  zip keys (floats_of_ints counts)
  = map (fun r => (fst r, Some (inject_Z (snd r)))) (zip keys counts).
Proof.
  revert counts. induction keys as [|k keys IH]; intros [|z counts]; simpl;
    try reflexivity.
  now rewrite IH.
Qed.

(** Rows filed under a non-null key are the same with or without the rows
    whose key is null. *)
Lemma rows_of_notnull {V} c (rows : list (value * V)) :
  notnull c = true ->
  rows_of value_compare c (filter (fun r => notnull (fst r) = true) rows)
  = rows_of value_compare c rows.
Proof.
  intros Hc. unfold rows_of. f_equal.
  induction rows as [|[k v] rows IH]; simpl; [reflexivity|].
  rewrite !filter_cons. simpl. destruct (decide (notnull k = true)) as [Hk|Hk].
  - rewrite filter_cons. simpl. destruct (decide _); now rewrite IH.
  - destruct (decide _) as [He|He]; [|exact IH].
    exfalso. apply Hk. destruct (value_compare c k) eqn:E; try discriminate.
    apply value_compare_eq_null in E. unfold notnull in *.
    rewrite <- E. exact Hc.
Qed.

Lemma rows_of_counts c (cities : Series) (counts : list Z) :
  rows_of value_compare c
    (map (fun r => (fst r, Some (inject_Z (snd r)))) (zip cities counts))
  = floats_of_ints (counts_of_city c cities counts).
Proof.
  unfold rows_of, counts_of_city, floats_of_ints.
  induction (zip cities counts) as [|[k z] l IH]; simpl; [reflexivity|].
  rewrite !filter_cons. simpl.
  change (is_Eq (value_compare c k)) with (value_eqb c k).
  destruct (decide (value_eqb c k = true)); simpl; [|exact IH].
  f_equal. exact IH.
Qed.

Lemma value_geb_nums a b : value_geb (VNum a) (VNum b) = true -> (b <= a)%Q.
Proof.
  unfold value_geb. simpl. destruct (Qcompare_spec a b) as [H|H|H];
    [intros _|discriminate|intros _].
  - rewrite H. apply Qle_refl.
  - now apply Qlt_le_weak.
Qed.

(** The per-key means of [groupby(key)[col].mean()] over integer cells:
    one entry per key of the column, each the mean of that key's cells. *)
Lemma groupby_mean_ints (cities : Series) (counts : list Z) :
  exists means,
    groupby_mean cities (map VInt counts) = inr means /\
    (forall c m, (c, m) ∈ means ->
       c ∈ cities /\ notnull c = true /\
       counts_of_city c cities counts <> [] /\
       exists q, m = VNum q /\
         (q == inject_Z (Zsum (counts_of_city c cities counts))
               / Qnat (length (counts_of_city c cities counts)))%Q) /\
    (forall c z, (c, z) ∈ zip cities counts -> notnull c = true ->
       exists c' m, (c', m) ∈ means /\ value_compare c c' = Eq).
Proof.
  unfold groupby_mean. rewrite to_floats_ints. eexists. split; [reflexivity|].
  rewrite zip_floats_of_ints.
  set (rows := map (fun r : value * Z => (fst r, Some (inject_Z (snd r)))) (zip cities counts)).
  set (kept := filter (fun r : value * option Q => notnull (fst r) = true) rows).
  split.
  - intros c m Hin.
    apply list_elem_of_fmap in Hin as ([c' vs] & Heq & Hg).
    simpl in Heq. injection Heq as -> ->.
    assert (c' ∈ map fst kept) as Hk.
    { apply (group_rows_sound value_compare).
      apply (list_elem_of_fmap_2 fst) in Hg. exact Hg. }
    apply list_elem_of_fmap in Hk as ([k x] & -> & Hk). simpl.
    apply list_elem_of_filter in Hk as [Hnn Hk]. simpl in Hnn.
    assert (k ∈ cities) as Hc.
    { apply list_elem_of_fmap in Hk as ([k' z] & Heq & Hz).
      simpl in Heq. injection Heq as -> _.
      apply elem_of_zip_l in Hz. exact Hz. }
    pose proof (group_rows_nonempty value_compare kept) as Hne.
    rewrite Forall_forall in Hne. specialize (Hne _ Hg). simpl in Hne.
    apply group_rows_spec in Hg; [|apply _].
    unfold kept in Hg. rewrite rows_of_notnull in Hg by exact Hnn.
    unfold rows in Hg. rewrite rows_of_counts in Hg. cbn [fst] in Hg.
    assert (observed vs = map inject_Z (counts_of_city k cities counts)) as Hobs.
    { subst vs. apply observed_ints. }
    assert (counts_of_city k cities counts <> []) as Hne'.
    { intros E. apply Hne. subst vs. now rewrite E. }
    split; [exact Hc|]. split; [exact Hnn|]. split; [exact Hne'|].
    rewrite Hobs. unfold mean_of.
    destruct (map inject_Z (counts_of_city k cities counts)) as [|y ys] eqn:Em.
    + destruct (counts_of_city k cities counts); [contradiction|discriminate].
    + eexists. split; [reflexivity|].
      rewrite <- Em. rewrite Qsum_inject, length_map. reflexivity.
  - intros c z Hin Hnn.
    destruct (group_rows_complete value_compare c (Some (inject_Z z)) kept)
      as (c' & vs & Hg & Heq).
    { unfold kept. apply list_elem_of_filter. split; [exact Hnn|].
      unfold rows. apply (list_elem_of_fmap_2 (fun r : value * Z => (fst r, Some (inject_Z (snd r)))) _ _ Hin). }
    exists c', (mean_of (observed vs)). split; [|exact Heq].
    apply (list_elem_of_fmap_2 (fun g : value * list (option Q) => (fst g, mean_of (observed (snd g)))) _ _ Hg).
Qed.

(** ** Rounding *)

Lemma round_half_even_error x :
  (Qabs (inject_Z (round_half_even x) - x) <= 1 # 2)%Q.
Proof.
  unfold round_half_even.
  pose proof (Qfloor_le x) as H1. pose proof (Qlt_floor x) as H2.
  rewrite inject_Z_plus in H2. change (inject_Z 1) with 1%Q in H2.
  apply Qabs_Qle_condition.
  destruct (Qcompare_spec (x - inject_Z (Qfloor x)) (1 # 2)) as [H|H|H].
  - destruct (Z.even (Qfloor x)); rewrite ?inject_Z_plus;
      change (inject_Z 1) with 1%Q; split; lra.
  - split; lra.
  - rewrite inject_Z_plus. change (inject_Z 1) with 1%Q. split; lra.
Qed.

(** Rounding to one decimal moves a number by at most 0.05. *)
Lemma round_dec_1_error q : (Qabs (round_dec 1 q - q) <= 1 # 20)%Q.
Proof.
  unfold round_dec. change (pow10 1) with 10%Q.
  pose proof (round_half_even_error (q * 10)) as H.
  apply Qabs_Qle_condition in H. apply Qabs_Qle_condition.
  set (y := inject_Z (round_half_even (q * 10))) in *.
  unfold Qdiv. change (/ 10)%Q with (1 # 10)%Q.
  split; lra.
Qed.

(** ** binary64 arithmetic *)

Lemma pow2_pos e : (0 < pow2 e)%Q.
Proof. unfold pow2. apply Qpower_0_lt. reflexivity. Qed.

Lemma pow2_plus a b : (pow2 (a + b) == pow2 a * pow2 b)%Q.
Proof. unfold pow2. apply Qpower_plus. discriminate. Qed.

Lemma pow2_succ a : (pow2 (a + 1) == 2 * pow2 a)%Q.
Proof. rewrite pow2_plus. change (pow2 1) with 2%Q. ring. Qed.

Lemma pow2_nonneg_le a n : 0 <= n -> (pow2 a <= pow2 (a + n))%Q.
Proof.
  revert n. apply (natlike_ind (fun n => (pow2 a <= pow2 (a + n))%Q)).
  - rewrite Z.add_0_r. apply Qle_refl.
  - intros n Hn IH. replace (a + Z.succ n) with ((a + n) + 1) by lia.
    rewrite pow2_succ. pose proof (pow2_pos (a + n)). lra.
Qed.

Lemma pow2_le a b : a <= b -> (pow2 a <= pow2 b)%Q.
Proof.
  intros H. replace b with (a + (b - a)) by lia. apply pow2_nonneg_le. lia.
Qed.

Lemma pow2_lt a b : a < b -> (pow2 a < pow2 b)%Q.
Proof.
  intros H. apply Qlt_le_trans with (pow2 (a + 1)).
  - rewrite pow2_succ. pose proof (pow2_pos a). lra.
  - apply pow2_le. lia.
Qed.

Lemma pow2_le_inv a b : (pow2 a <= pow2 b)%Q -> a <= b.
Proof.
  intros H. destruct (Z_le_gt_dec a b) as [Hle|Hgt]; [exact Hle|].
  exfalso. apply (Qlt_not_le _ _ (pow2_lt b a ltac:(lia)) H).
Qed.

Lemma pow2_nat n : 0 <= n -> (pow2 n == inject_Z (2 ^ n))%Q.
Proof. intros Hn. unfold pow2. now rewrite Zpower_Qpower by exact Hn. Qed.

Lemma Qabs_fraction q :
  (Qabs q == inject_Z (Z.abs (Qnum q)) / inject_Z (Zpos (Qden q)))%Q.
Proof. destruct q as [n d]. simpl. apply Qmake_Qdiv. Qed.

(** [ilog2] never overshoots: [2 ^ ilog2 q <= |q|]. *)
Lemma ilog2_le q : ~ (q == 0)%Q -> (pow2 (ilog2 q) <= Qabs q)%Q.
Proof.
  intros Hq. unfold ilog2.
  set (a := Z.log2 (Z.abs (Qnum q))). set (b := Z.log2 (Zpos (Qden q))).
  destruct (Qle_bool (pow2 (a - b)) (Qabs q)) eqn:E.
  { now apply Qle_bool_iff. }
  assert (0 < Z.abs (Qnum q)) as Hn.
  { destruct q as [n d]. unfold Qeq in Hq. simpl in *. lia. }
  destruct (Z.log2_spec _ Hn) as [Ha _]. fold a in Ha.
  destruct (Z.log2_spec (Zpos (Qden q)) ltac:(lia)) as [_ Hb]. fold b in Hb.
  assert (0 <= a) as Ha0 by apply Z.log2_nonneg.
  assert (0 <= b) as Hb0 by apply Z.log2_nonneg.
  rewrite Qabs_fraction.
  assert (0 < inject_Z (Zpos (Qden q)))%Q as Hd.
  { change 0%Q with (inject_Z 0). rewrite <- Zlt_Qlt. lia. }
  apply Qle_shift_div_l; [exact Hd|].
  apply Qle_trans with (pow2 (a - b - 1) * pow2 (Z.succ b))%Q.
  - apply Qmult_le_l; [apply pow2_pos|].
    rewrite (pow2_nat (Z.succ b)) by lia. rewrite <- Zle_Qle. lia.
  - rewrite <- pow2_plus. replace (a - b - 1 + Z.succ b) with a by lia.
    rewrite (pow2_nat a) by lia. now rewrite <- Zle_Qle.
Qed.

(** Rounding to binary64 moves a number below [2 ^ k] by at most half a
    unit in the last place, [2 ^ (k - 53)]. *)
Lemma f64_error q k :
  (Qabs q <= pow2 k)%Q -> -1022 <= k ->
  (Qabs (f64 q - q) <= pow2 (k - 53))%Q.
Proof.
  intros Hq Hk. unfold f64.
  pose proof (pow2_pos (k - 53)) as Hp.
  destruct (Qeq_bool q 0) eqn:E.
  { apply Qeq_bool_iff in E. apply Qabs_Qle_condition. split; lra. }
  apply Qeq_bool_neq in E.
  set (m := Z.max (ilog2 q) (-1022)).
  assert (m <= k) as Hm.
  { apply Z.max_lub; [|exact Hk]. apply pow2_le_inv.
    apply Qle_trans with (Qabs q); [now apply ilog2_le|exact Hq]. }
  pose proof (pow2_pos (m - 52)) as Hu.
  pose proof (pow2_le (m - 53) (k - 53) ltac:(lia)) as Hle.
  pose proof (pow2_succ (m - 53)) as Hs.
  replace (m - 53 + 1) with (m - 52) in Hs by lia.
  set (u := pow2 (m - 52)) in *.
  pose proof (round_half_even_error (q / u)) as Hr.
  set (r := inject_Z (round_half_even (q / u))) in *.
  apply Qabs_Qle_condition in Hr. destruct Hr as [Hr1 Hr2].
  assert (q == q / u * u)%Q as Hqu by (field; lra).
  set (t := (q / u)%Q) in *.
  assert ((r - t) * u <= (1 # 2) * u)%Q as H1.
  { apply Qmult_le_compat_r; lra. }
  assert (- (1 # 2) * u <= (r - t) * u)%Q as H2.
  { apply Qmult_le_compat_r; lra. }
  apply Qabs_Qle_condition. split; lra.
Qed.

Lemma Qnat_nonneg n : (0 <= Qnat n)%Q.
Proof. unfold Qnat. change 0%Q with (inject_Z 0). rewrite <- Zle_Qle. lia. Qed.

Lemma Qnat_le a b : (a <= b)%nat -> (Qnat a <= Qnat b)%Q.
Proof. intros H. unfold Qnat. rewrite <- Zle_Qle. lia. Qed.

(** A count out of a total is a fraction between 0 and 1. *)
Lemma fraction_between c n :
  (c <= n)%nat -> (0 <= Qnat c / Qnat n)%Q /\ (Qnat c / Qnat n <= 1)%Q.
Proof.
  intros Hc. destruct n as [|n].
  { assert (c = 0%nat) as -> by lia. split; vm_compute; discriminate. }
  assert (0 < Qnat (S n))%Q as Hpos.
  { unfold Qnat. change 0%Q with (inject_Z 0). rewrite <- Zlt_Qlt. lia. }
  pose proof (Qnat_nonneg c). pose proof (Qnat_le _ _ Hc).
  split.
  - apply Qle_shift_div_l; [exact Hpos|]. lra.
  - apply Qle_shift_div_r; [exact Hpos|]. lra.
Qed.

Lemma FLOAT_SLACK_value : (FLOAT_SLACK == 1 # 35184372088832)%Q.
Proof. reflexivity. Qed.

(** The script's share is the exact share up to the two roundings. *)
Lemma percentage_f64_error c n :
  (c <= n)%nat ->
  (Qabs (percentage_f64 c n - percentage c n) <= FLOAT_SLACK)%Q.
Proof.
  intros Hc. unfold percentage_f64, percentage.
  destruct (fraction_between c n Hc) as [H0 H1].
  set (q := (Qnat c / Qnat n)%Q) in *.
  pose proof (f64_error q 0) as E1.
  assert (pow2 0 == 1)%Q as P0 by reflexivity.
  assert (pow2 (0 - 53) == 1 # 9007199254740992)%Q as P53 by reflexivity.
  assert (pow2 7 == 128)%Q as P7 by reflexivity.
  assert (pow2 (7 - 53) == 1 # 70368744177664)%Q as P46 by reflexivity.
  rewrite P0, P53 in E1.
  specialize (E1 ltac:(apply Qabs_Qle_condition; split; lra) ltac:(lia)).
  apply Qabs_Qle_condition in E1. destruct E1 as [E1 E1'].
  pose proof (f64_error (f64 q * 100) 7) as E2.
  rewrite P7, P46 in E2.
  specialize (E2 ltac:(apply Qabs_Qle_condition; split; lra) ltac:(lia)).
  apply Qabs_Qle_condition in E2. destruct E2 as [E2 E2'].
  rewrite FLOAT_SLACK_value. apply Qabs_Qle_condition. split; lra.
Qed.


(** ** The (date, city) series and the city means *)

Lemma city_series_inv env od city city_trends :
  city_series env od city = inr city_trends ->
  exists ts,
    to_datetime env (map (fun e => fst (fst e)) (groupby2_size od city)) = inr ts /\
    city_trends
    = {| nrows := length (groupby2_size od city);
         cols := [("order_date", ts);
                  ("city", map (fun e => snd (fst e)) (groupby2_size od city));
                  ("order_count", map VInt (sizes2_Z (groupby2_size od city)))] |}.
Proof.
  unfold city_series.
  change (getcol (reset_index2 "order_date" "city" "order_count" (groupby2_size od city))
            "order_date")
    with (inr (A:=Err) (map (fun e => fst (fst e)) (groupby2_size od city))).
  cbv iota. destruct (to_datetime env _) as [e|ts]; [discriminate|].
  intros H. injection H as <-. exists ts. split; [reflexivity|].
  unfold sizes2_Z. rewrite map_map. reflexivity.
Qed.

Lemma groupby2_size_cities od city c :
  c ∈ map (fun e => snd (fst e)) (groupby2_size od city) -> notnull c = true.
Proof.
  intros H. apply list_elem_of_fmap in H as ([[d c'] n] & -> & Hin). simpl.
  unfold groupby2_size in Hin.
  apply list_elem_of_fmap in Hin as ([k vs] & Heq & Hg).
  simpl in Heq. injection Heq as Hk _. subst k.
  apply (list_elem_of_fmap_2 fst) in Hg.
  apply (group_rows_sound pair_compare) in Hg.
  rewrite map_fst_tagged in Hg.
  apply list_elem_of_filter in Hg as [Hnn _].
  unfold both_notnull in Hnn. simpl in Hnn.
  now apply andb_true_iff in Hnn as [_ Hnn].
Qed.

(** C9. For every city of the (date, city) series the city stage reports
    the arithmetic mean of that city's per-date order counts; the cities
    are listed by this mean, largest first; and the value printed is the
    mean rounded to one decimal (so at most 0.05 away from it). *)
Theorem city_daily_means env df out city_trends df' :
  analyze_city_trends env df = (out, inr (city_trends, df')) ->
  exists cities counts avg,
    getcol city_trends "city" = inr cities /\
    getcol city_trends "order_count" = inr (map VInt counts) /\
    length cities = nrows city_trends /\ length counts = nrows city_trends /\
    avg_daily_city city_trends = inr avg /\
    ShowSeries (map (fun e => (fst e, round_cell 1 (snd e))) avg) ∈ out /\
    (forall c m, (c, m) ∈ avg ->
       c ∈ cities /\
       counts_of_city c cities counts <> [] /\
       exists q,
         m = VNum q /\
         (q == inject_Z (Zsum (counts_of_city c cities counts))
               / Qnat (length (counts_of_city c cities counts)))%Q /\
         round_cell 1 m = VNum (round_dec 1 q) /\
         (Qabs (round_dec 1 q - q) <= 1 # 20)%Q) /\
    (forall c, c ∈ cities -> exists c' m, (c', m) ∈ avg /\ value_compare c c' = Eq) /\
    StronglySorted
      (fun a b => exists qa qb,
         snd a = VNum qa /\ snd b = VNum qb /\ (qb <= qa)%Q) avg.
Proof.
  intros H.
  apply analyze_city_trends_inv in H as (city & od & avg & _ & _ & Hct & Havg & -> & _).
  apply city_series_inv in Hct as (ts & Hts & ->).
  set (g := groupby2_size od city) in *.
  set (cities := map (fun e : value * value * nat => snd (fst e)) g) in *.
  destruct (groupby_mean_ints cities (sizes2_Z g)) as (means & Hm & Hspec & Hall).
  unfold avg_daily_city in Havg.
  change (getcol _ "city") with (inr (A:=Err) cities) in Havg.
  change (getcol _ "order_count") with (inr (A:=Err) (map VInt (sizes2_Z g))) in Havg.
  cbv iota in Havg. rewrite Hm in Havg. injection Havg as <-.
  assert (length cities = length g) as Hlc by (unfold cities; now rewrite length_map).
  assert (length (sizes2_Z g) = length g) as Hln by (unfold sizes2_Z; now rewrite length_map).
  exists cities, (sizes2_Z g), (sort_values_desc id means).
  split; [reflexivity|]. split; [reflexivity|].
  split; [exact Hlc|]. split; [exact Hln|].
  split.
  { unfold avg_daily_city.
    change (getcol _ "city") with (inr (A:=Err) cities).
    change (getcol _ "order_count") with (inr (A:=Err) (map VInt (sizes2_Z g))).
    cbv iota. now rewrite Hm. }
  split.
  { unfold round_series. do 6 apply list_elem_of_further. apply list_elem_of_here. }
  split; [|split].
  - intros c m Hin. rewrite sort_values_desc_perm in Hin.
    destruct (Hspec c m Hin) as (Hc & _ & Hne & q & -> & Hq).
    split; [exact Hc|]. split; [exact Hne|].
    exists q. split; [reflexivity|]. split; [exact Hq|].
    split; [reflexivity|apply round_dec_1_error].
  - intros c Hc.
    assert (exists z, (c, z) ∈ zip cities (sizes2_Z g)) as [z Hz].
    { apply list_elem_of_lookup in Hc as [i Hi].
      destruct (lookup_lt_is_Some_2 (sizes2_Z g) i) as [z Hz].
      { apply lookup_lt_Some in Hi. lia. }
      exists z. apply list_elem_of_lookup. exists i.
      apply lookup_zip_with_Some. eauto. }
    destruct (Hall c z Hz) as (c' & m & Hin & Heq).
    { eapply groupby2_size_cities. exact Hc. }
    exists c', m. split; [|exact Heq]. now rewrite sort_values_desc_perm.
  - assert (StronglySorted
              (desc (fun a b : value * value => value_geb (id (snd a)) (id (snd b))))
              (sort_values_desc id means)) as Hs.
    { apply sort_desc_sorted.
      - intros a b. apply value_geb_total.
      - intros a b c. apply value_geb_trans. }
    assert (Forall (fun e => exists q, snd e = VNum q) (sort_values_desc id means)) as Hnum.
    { apply Forall_forall. intros [c m] Hin. rewrite sort_values_desc_perm in Hin.
      destruct (Hspec c m Hin) as (_ & _ & _ & q & -> & _). now exists q. }
    induction Hs as [|a l Hs IH Ha]; [constructor|].
    apply Forall_cons in Hnum as [[qa Hqa] Hnum].
    constructor; [now apply IH|].
    apply Forall_forall. intros b Hb.
    rewrite Forall_forall in Ha, Hnum.
    destruct (Hnum b Hb) as [qb Hqb]. specialize (Ha b Hb).
    exists qa, qb. split; [exact Hqa|]. split; [exact Hqb|].
    unfold desc, id in Ha. rewrite Hqa, Hqb in Ha. now apply value_geb_nums.
Qed.

Lemma city_daily_means_witness :
  exists (out : list Out) city_trends cities counts avg,
    getcol city_trends "city" = inr cities /\
    getcol city_trends "order_count" = inr (map VInt counts) /\
    length cities = nrows city_trends /\ length counts = nrows city_trends /\
    avg_daily_city city_trends = inr avg /\
    ShowSeries (map (fun e => (fst e, round_cell 1 (snd e))) avg) ∈ out /\
    (forall c m, (c, m) ∈ avg ->
       c ∈ cities /\
       counts_of_city c cities counts <> [] /\
       exists q,
         m = VNum q /\
         (q == inject_Z (Zsum (counts_of_city c cities counts))
               / Qnat (length (counts_of_city c cities counts)))%Q /\
         round_cell 1 m = VNum (round_dec 1 q) /\
         (Qabs (round_dec 1 q - q) <= 1 # 20)%Q) /\
    (forall c, c ∈ cities -> exists c' m, (c', m) ∈ avg /\ value_compare c c' = Eq) /\
    StronglySorted
      (fun a b => exists qa qb,
         snd a = VNum qa /\ snd b = VNum qb /\ (qb <= qa)%Q) avg.
Proof.
  eexists _, _.
  eapply (city_daily_means sample_env sample_table).
  vm_compute. reflexivity.
Defined.

(** ** The insights stage *)

Lemma print_each_shares total dist df :
  print_each (share_out total) dist df = (map (share_out total) dist, inr (tt, df)).
Proof.
  induction dist as [|e dist IH]; simpl; [reflexivity|].
  unfold mbind, M_bind. simpl. rewrite IH. reflexivity.
Qed.

Lemma ex_pre_app {A} (l1 rest tail : list A) :
  (exists pre, rest = pre ++ tail) -> exists pre, l1 ++ rest = pre ++ tail.
Proof. intros [pre ->]. exists (l1 ++ pre). now rewrite app_assoc. Qed.

Lemma analyze_business_insights_inv df out r df' :
  analyze_business_insights df = (out, inr (r, df')) ->
  exists pay promo cat,
    getcol df "payment_method" = inr pay /\
    getcol df "promo_code_used" = inr promo /\
    getcol df "restaurant_category" = inr cat /\
    exists pre,
      out = pre ++ [Line "Payment Methods:"]
                ++ map (share_out (nrows df)) (value_counts pay)
                ++ [Line "Promo Code Usage:"]
                ++ map (share_out (nrows df)) (value_counts promo)
                ++ [Line "Top Restaurant Categories:"]
                ++ map (share_out (nrows df)) (take 5 (value_counts cat)).
Proof.
  unfold analyze_business_insights. intros H. run_ok H.
  repeat match goal with
  | Hs : print_stat _ _ _ ?d = (_, inr (_, _)) |- _ =>
      pose proof (read_only_print_stat _ _ _ _ _ _ _ Hs); subst; clear Hs
  end.
  rewrite print_each_shares in *.
  repeat match goal with
  | Hs : (_, _) = (_, _) |- _ => injection Hs as <- <- <-
  end.
  eexists _, _, _. repeat (split; [eassumption|]).
  rewrite !app_nil_l.
  repeat first [ solve [exists []; reflexivity] | apply ex_pre_app ].
Qed.

(** ** Shares of a frequency distribution *)









Lemma count_equal_le k s : (count_equal k s <= length s)%nat.
Proof. unfold count_equal. apply length_filter. Qed.






(** Shares whose exact value is a tie between two decimals are printed
    from the float the script computes: 28.75 is shown as 28.7, 0.15 and
    0.05 as 0.1. *)
Example share_23_of_80 : (printed 1 (percentage_f64 23 80) == 287 # 10)%Q.
Proof. vm_compute. reflexivity. Qed.

Example share_3_of_2000 : (printed 1 (percentage_f64 3 2000) == 1 # 10)%Q.
Proof. vm_compute. reflexivity. Qed.

Example share_1_of_2000 : (printed 1 (percentage_f64 1 2000) == 1 # 10)%Q.
Proof. vm_compute. reflexivity. Qed.






(** ** Independence of the run-time state *)





Section SameInput.
Variables env1 env2 : Env.
Hypothesis Hparse : forall s, parse_datetime env1 s = parse_datetime env2 s.







End SameInput.



(** ** Failing runs *)

(** [main], stage by stage. *)
Lemma main_run env df0 :
  main env df0 =
  match load_and_prepare_data env DATASET df0 with
  | (o1, inl e) => (opening env ++ o1, inl e)
  | (o1, inr (_, df1)) =>
  match explore_data df1 with
  | (o2, inl e) => (opening env ++ o1 ++ o2, inl e)
  | (o2, inr (_, df2)) =>
  match analyze_daily_trends env df2 with
  | (o3, inl e) => (opening env ++ o1 ++ o2 ++ o3, inl e)
  | (o3, inr (daily_orders, df3)) =>
  match analyze_city_trends env df3 with
  | (o4, inl e) => (opening env ++ o1 ++ o2 ++ o3 ++ o4, inl e)
  | (o4, inr (city_trends, df4)) =>
  match create_visualizations env daily_orders city_trends df4 with
  | (o5, inl e) => (opening env ++ o1 ++ o2 ++ o3 ++ o4 ++ o5, inl e)
  | (o5, inr (_, df5)) =>
  match analyze_business_insights df5 with
  | (o6, inl e) => (opening env ++ o1 ++ o2 ++ o3 ++ o4 ++ o5 ++ o6, inl e)
  | (o6, inr (_, df6)) =>
      (opening env ++ o1 ++ o2 ++ o3 ++ o4 ++ o5 ++ o6 ++ closing env,
       inr (tt, df6))
  end end end end end end.
Proof.
  unfold main.
  do 3 (rewrite bind_run, print_run; cbn match).
  rewrite bind_run.
  destruct (load_and_prepare_data env DATASET df0) as [o1 [e|[[] df1]]];
    [reflexivity|].
  rewrite bind_run.
  destruct (explore_data df1) as [o2 [e|[[] df2]]]; [reflexivity|].
  rewrite bind_run.
  destruct (analyze_daily_trends env df2) as [o3 [e|[daily df3]]]; [reflexivity|].
  rewrite bind_run.
  destruct (analyze_city_trends env df3) as [o4 [e|[city df4]]]; [reflexivity|].
  rewrite bind_run.
  destruct (create_visualizations env daily city df4) as [o5 [e|[[] df5]]];
    [reflexivity|].
  rewrite bind_run.
  destruct (analyze_business_insights df5) as [o6 [e|[[] df6]]]; [reflexivity|].
  reflexivity.
Qed.

Lemma never_prints_bind {A B} x (m : M A) (k : A -> M B) :
  never_prints x m -> (forall a, never_prints x (k a)) -> never_prints x (m ≫= k).
Proof.
  intros Hm Hk df out r. rewrite bind_run.
  destruct (m df) as [o1 [e|[a df1]]] eqn:E.
  - intros H. injection H as <- <-. eapply Hm; eauto.
  - destruct (k a df1) as [o2 r2] eqn:E2. rewrite after_run.
    intros H. injection H as <- <-.
    intros Hin. apply elem_of_app in Hin as [Hin|Hin].
    + eapply Hm; eauto.
    + eapply Hk; eauto.
Qed.

Lemma never_prints_print x o : o <> x -> never_prints x (print o).
Proof.
  intros Hne df out r H. rewrite print_run in H. injection H as <- <-.
  intros Hin. apply list_elem_of_singleton in Hin. congruence.
Qed.

Lemma never_prints_silent {A} x (m : M A) :
  (forall df, fst (m df) = []) -> never_prints x m.
Proof.
  intros Hs df out r H. specialize (Hs df). rewrite H in Hs. simpl in Hs.
  subst out. apply not_elem_of_nil.
Qed.

Lemma never_prints_lift {A} x (r : Err + A) : never_prints x (lift r).
Proof. apply never_prints_silent. intros df. now destruct r. Qed.

Lemma never_prints_col x c : never_prints x (col c).
Proof. apply never_prints_silent. intros df. rewrite col_run. now destruct (getcol df c). Qed.

Lemma never_prints_len_df x : never_prints x len_df.
Proof. now apply never_prints_silent. Qed.

Lemma never_prints_get_df x : never_prints x get_df.
Proof. now apply never_prints_silent. Qed.

Lemma never_prints_put_df x f : never_prints x (put_df f).
Proof. now apply never_prints_silent. Qed.

Lemma never_prints_set_col x c s : never_prints x (set_col c s).
Proof. now apply never_prints_silent. Qed.

Lemma never_prints_ret {A} x (a : A) : never_prints x (mret a).
Proof. now apply never_prints_silent. Qed.

Create HintDb quiet discriminated.

#[global] Hint Resolve never_prints_lift never_prints_col never_prints_len_df
  never_prints_get_df never_prints_put_df never_prints_set_col
  never_prints_ret : quiet.

(** Walk through a computation; every line it prints differs from [x]. *)
Ltac never_prints_tac :=
  repeat first
    [ apply never_prints_bind; [|intros ?]
    | apply never_prints_print; unfold banner; discriminate
    | solve [auto with quiet] ].

Lemma never_prints_shares x total dist :
  (forall text args, x <> Stat text args) ->
  never_prints x (print_each (share_out total) dist).
Proof.
  intros Hx df out r H. rewrite print_each_shares in H. injection H as <- _.
  intros Hin. apply list_elem_of_fmap in Hin as (e & -> & _).
  eapply Hx. reflexivity.
Qed.

Lemma never_prints_print_stat x text d r :
  (forall text args, x <> Stat text args) ->
  never_prints x (print_stat text d r).
Proof.
  intros Hx. unfold print_stat. never_prints_tac.
  apply never_prints_print. intros E. symmetry in E. now apply Hx in E.
Qed.

Lemma never_prints_savefig x env file title plots :
  (forall f t p, x <> SaveFig f t p) ->
  never_prints x (savefig env file title plots).
Proof.
  intros Hx. unfold savefig. destruct (can_save env file).
  - apply never_prints_print. intros E. symmetry in E. now apply Hx in E.
  - now apply never_prints_silent.
Qed.

Lemma never_prints_lineplot x data c y hue : never_prints x (lineplot data c y hue).
Proof. unfold lineplot. now destruct (_ && _ && _)%bool; apply never_prints_silent. Qed.

#[global] Hint Resolve never_prints_lineplot : quiet.

Lemma load_never_completes env path :
  never_prints (Line "ANALYSIS COMPLETED") (load_and_prepare_data env path).
Proof. unfold load_and_prepare_data. never_prints_tac. Qed.

Lemma explore_never_completes :
  never_prints (Line "ANALYSIS COMPLETED") explore_data.
Proof. unfold explore_data. never_prints_tac. Qed.

Lemma daily_never_completes env :
  never_prints (Line "ANALYSIS COMPLETED") (analyze_daily_trends env).
Proof. unfold analyze_daily_trends. never_prints_tac. Qed.

Lemma city_never_completes env :
  never_prints (Line "ANALYSIS COMPLETED") (analyze_city_trends env).
Proof. unfold analyze_city_trends. never_prints_tac. Qed.

Lemma charts_never_complete env daily_orders city_trends :
  never_prints (Line "ANALYSIS COMPLETED")
    (create_visualizations env daily_orders city_trends).
Proof.
  unfold create_visualizations. never_prints_tac;
    apply never_prints_savefig; discriminate.
Qed.

Lemma insights_never_complete :
  never_prints (Line "ANALYSIS COMPLETED") analyze_business_insights.
Proof.
  unfold analyze_business_insights. never_prints_tac;
    first [ apply never_prints_print_stat | apply never_prints_shares ];
    discriminate.
Qed.

Lemma run_aborts env out e : run env = (out, inl e) <-> aborts env out e.
Proof.
  unfold run. rewrite main_run. split.
  - destruct (load_and_prepare_data env DATASET empty_frame)
      as [o1 [e1|[[] df1]]] eqn:E1.
    { intros H. injection H as <- <-.
      exact (aborts_in_load env o1 e1 E1). }
    destruct (explore_data df1) as [o2 [e2|[[] df2]]] eqn:E2.
    { intros H. injection H as <- <-.
      exact (aborts_in_explore env o1 df1 o2 e2 E1 E2). }
    pose proof (explore_data_read_only _ _ _ _ E2) as ->.
    destruct (analyze_daily_trends env df1) as [o3 [e3|[daily df3]]] eqn:E3.
    { intros H. injection H as <- <-.
      exact (aborts_in_daily env o1 df1 o2 o3 e3 E1 E2 E3). }
    pose proof (analyze_daily_trends_read_only _ _ _ _ _ E3) as ->.
    destruct (analyze_city_trends env df1) as [o4 [e4|[city df4]]] eqn:E4.
    { intros H. injection H as <- <-.
      exact (aborts_in_city env o1 df1 o2 o3 daily o4 e4 E1 E2 E3 E4). }
    pose proof (analyze_city_trends_read_only _ _ _ _ _ E4) as ->.
    destruct (create_visualizations env daily city df1) as [o5 [e5|[[] df5]]] eqn:E5.
    { intros H. injection H as <- <-.
      exact (aborts_in_charts env o1 df1 o2 o3 daily o4 city o5 e5 E1 E2 E3 E4 E5). }
    pose proof (create_visualizations_read_only _ _ _ _ _ _ _ E5) as ->.
    destruct (analyze_business_insights df1) as [o6 [e6|[[] df6]]] eqn:E6.
    { intros H. injection H as <- <-.
      exact (aborts_in_insights env o1 df1 o2 o3 daily o4 city o5 o6 e6
               E1 E2 E3 E4 E5 E6). }
    discriminate.
  - intros Ha. destruct Ha;
      repeat match goal with
      | H : _ = (_, _) |- _ => rewrite H; clear H
      end; reflexivity.
Qed.

Lemma aborts_never_completes env out e :
  aborts env out e -> Line "ANALYSIS COMPLETED" ∉ out.
Proof.
  intros Ha Hin. destruct Ha;
    repeat (apply elem_of_app in Hin as [Hin|Hin]);
    try (unfold opening, banner in Hin;
         repeat (apply elem_of_cons in Hin as [Hin|Hin]; [discriminate Hin|]);
         now apply elem_of_nil in Hin);
    repeat match goal with
    | H : load_and_prepare_data _ _ _ = (?o, _), Hin : _ ∈ ?o |- _ =>
        exact (load_never_completes _ _ _ _ _ H Hin)
    | H : explore_data _ = (?o, _), Hin : _ ∈ ?o |- _ =>
        exact (explore_never_completes _ _ _ H Hin)
    | H : analyze_daily_trends _ _ = (?o, _), Hin : _ ∈ ?o |- _ =>
        exact (daily_never_completes _ _ _ _ H Hin)
    | H : analyze_city_trends _ _ = (?o, _), Hin : _ ∈ ?o |- _ =>
        exact (city_never_completes _ _ _ _ H Hin)
    | H : create_visualizations _ _ _ _ = (?o, _), Hin : _ ∈ ?o |- _ =>
        exact (charts_never_complete _ _ _ _ _ _ H Hin)
    | H : analyze_business_insights _ = (?o, _), Hin : _ ∈ ?o |- _ =>
        exact (insights_never_complete _ _ _ H Hin)
    end.
Qed.

(** How loading fails. *)
Lemma load_fails env path df0 :
  (read_file env path = None ->
   load_and_prepare_data env path df0
   = ([Line "Loading dataset..."], inl (FileNotFoundError path))) /\
  (forall f e,
     read_csv env path = inr f -> getcol f "order_datetime" = inl e ->
     load_and_prepare_data env path df0 = ([Line "Loading dataset..."], inl e)) /\
  (forall f raw e,
     read_csv env path = inr f -> getcol f "order_datetime" = inr raw ->
     to_datetime env raw = inl e ->
     load_and_prepare_data env path df0 = ([Line "Loading dataset..."], inl e)).
Proof.
  split; [|split].
  - intros H. unfold load_and_prepare_data.
    rewrite bind_run, print_run. cbn match. rewrite bind_run.
    unfold read_csv. rewrite H. reflexivity.
  - intros f e Hf Hc. unfold load_and_prepare_data.
    rewrite bind_run, print_run. cbn match. rewrite bind_run, Hf. cbn [lift].
    rewrite mret_run. cbn match. rewrite bind_run, put_df_run. cbn match.
    rewrite bind_run, col_run, Hc. reflexivity.
  - intros f raw e Hf Hc Ht. unfold load_and_prepare_data.
    rewrite bind_run, print_run. cbn match. rewrite bind_run, Hf. cbn [lift].
    rewrite mret_run. cbn match. rewrite bind_run, put_df_run. cbn match.
    rewrite bind_run, col_run, Hc. cbn match. rewrite bind_run, Ht. reflexivity.
Qed.

Lemma lineplot_ok data x y df a b :
  getcol data x = inr a -> getcol data y = inr b ->
  lineplot data x y None df
  = ([], inr ({| plot_data := data; plot_x := x; plot_y := y; plot_hue := None |}, df)).
Proof.
  unfold getcol, lineplot, has_col.
  destruct (assoc x (cols data)); [|discriminate].
  destruct (assoc y (cols data)); [|discriminate].
  reflexivity.
Qed.

(** How the first chart fails when it cannot be written. *)
Lemma charts_fail env df daily_orders city_trends a b c :
  getcol daily_orders "order_date" = inr a ->
  getcol daily_orders "rolling_avg" = inr b ->
  getcol daily_orders "order_count" = inr c ->
  can_save env "daily_orders_trend.png" = false ->
  create_visualizations env daily_orders city_trends df
  = ([Line banner; Line "CREATING VISUALIZATIONS"; Line banner],
     inl (SaveError "daily_orders_trend.png")).
Proof.
  intros Ha Hb Hc Hs. unfold create_visualizations.
  do 3 (rewrite bind_run, print_run; cbn match).
  rewrite bind_run, (lineplot_ok _ _ _ _ _ _ Ha Hb). cbn match.
  rewrite bind_run, (lineplot_ok _ _ _ _ _ _ Ha Hc). cbn match.
  rewrite bind_run. unfold savefig at 1. rewrite Hs. reflexivity.
Qed.

(** C8. No error is caught: the run fails with error [e] exactly when
    some stage raises [e] after all stages before it have returned, and
    then nothing is printed after that stage's own output; in
    particular the completion banner never appears.  A missing input
    file, a missing timestamp column, an unparsable timestamp and a chart
    that cannot be written each end the run at that point with their own
    error. *)
Theorem errors_abort_the_run env :
  (forall out e, run env = (out, inl e) <-> aborts env out e) /\
  (forall out e, run env = (out, inl e) -> Line "ANALYSIS COMPLETED" ∉ out) /\
  (read_file env DATASET = None ->
   run env = (opening env ++ [Line "Loading dataset..."],
              inl (FileNotFoundError DATASET))) /\
  (forall f,
     read_csv env DATASET = inr f -> assoc "order_datetime" (cols f) = None ->
     run env = (opening env ++ [Line "Loading dataset..."],
                inl (KeyError "order_datetime"))) /\
  (forall f raw e,
     read_csv env DATASET = inr f -> getcol f "order_datetime" = inr raw ->
     to_datetime env raw = inl e ->
     run env = (opening env ++ [Line "Loading dataset..."], inl e)) /\
  (forall o1 df o2 o3 daily_orders o4 city_trends,
     load_and_prepare_data env DATASET empty_frame = (o1, inr (tt, df)) ->
     explore_data df = (o2, inr (tt, df)) ->
     analyze_daily_trends env df = (o3, inr (daily_orders, df)) ->
     analyze_city_trends env df = (o4, inr (city_trends, df)) ->
     can_save env "daily_orders_trend.png" = false ->
     run env = (opening env ++ o1 ++ o2 ++ o3 ++ o4
                ++ [Line banner; Line "CREATING VISUALIZATIONS"; Line banner],
                inl (SaveError "daily_orders_trend.png"))).
Proof.
  destruct (load_fails env DATASET empty_frame) as (Hio & Hkey & Hparse).
  split; [|split; [|split; [|split; [|split]]]].
  - intros out e. apply run_aborts.
  - intros out e H. apply run_aborts in H. eapply aborts_never_completes; eauto.
  - intros H. apply run_aborts. apply aborts_in_load. now apply Hio.
  - intros f Hf Hc. apply run_aborts. apply aborts_in_load.
    apply (Hkey f); [exact Hf|]. unfold getcol. now rewrite Hc.
  - intros f raw e Hf Hc Ht. apply run_aborts. apply aborts_in_load.
    now apply (Hparse f raw).
  - intros o1 df o2 o3 daily o4 city H1 H2 H3 H4 Hs.
    apply run_aborts.
    apply (aborts_in_charts env o1 df o2 o3 daily o4 city _ _ H1 H2 H3 H4).
    apply analyze_daily_trends_inv in H3 as (od & _ & Hd & _).
    apply daily_series_inv in Hd as (ts & _ & ->).
    eapply charts_fail; [reflexivity..|exact Hs].
Qed.

Lemma errors_abort_the_run_witness :
  run quiet_env
  = (opening quiet_env ++ [Line "Loading dataset..."],
     inl (FileNotFoundError DATASET)).
Proof.
  destruct (errors_abort_the_run quiet_env) as (_ & _ & H & _).
  apply H. reflexivity.
Defined.

(** ** Scenarios *)

(** Fourteen daily counts: no average before the seventh day, 79/7 on
    the seventh, 108/7 on the last. *)
Example rolling_scenario :
  roll_mean 7 (floats_of_ints fortnight) !! 5%nat = Some VNull /\
  roll_mean 7 (floats_of_ints fortnight) !! 6%nat = Some (VNum (79 # 7)) /\
  roll_mean 7 (floats_of_ints fortnight) !! 13%nat = Some (VNum (108 # 7)).
Proof. repeat split; vm_compute; reflexivity. Qed.

(** A table with a single row: a daily series of one row without rolling
    average, one city with one order, and one order of value zero. *)
Example single_row_scenario :
  exists df out1 out2 out3 daily city_trends,
    loaded single_env = Some df /\
    explore_data df = (out1, inr (tt, df)) /\
    Stat "Zero order values: {}" [VInt 1] ∈ out1 /\
    analyze_daily_trends single_env df = (out2, inr (daily, df)) /\
    nrows daily = 1%nat /\
    getcol daily "rolling_avg" = inr [VNull] /\
    analyze_city_trends single_env df = (out3, inr (city_trends, df)) /\
    ShowSeries [(VStr "Dubai", VInt 1)] ∈ out3.
Proof.
  eexists _, _, _, _, _, _.
  split; [vm_compute; reflexivity|].
  split; [vm_compute; reflexivity|].
  split; [repeat first [apply list_elem_of_here | apply list_elem_of_further]|].
  split; [vm_compute; reflexivity|].
  split; [reflexivity|].
  split; [reflexivity|].
  split; [vm_compute; reflexivity|].
  repeat first [apply list_elem_of_here | apply list_elem_of_further].
Qed.

(** * Further properties of the stages *)

(** ** The file behind a loaded table *)

Lemma read_csv_inv env path f :
  read_csv env path = inr f ->
  exists csv, read_file env path = Some csv /\ f = csv_frame csv /\
    header csv <> [] /\
    Forall (fun r => (length r <= csv_width csv)%nat) (records csv).
Proof.
  unfold read_csv. destruct (read_file env path) as [csv|]; [|discriminate].
  destruct (header csv) as [|c cs] eqn:Eh; [discriminate|].
  destruct (forallb _ _) eqn:Ef; [|discriminate].
  intros H. injection H as <-. exists csv. rewrite Eh.
  split; [reflexivity|]. split; [reflexivity|]. split; [discriminate|].
  apply Forall_forall. intros r Hr.
  rewrite forallb_forall in Ef. apply Nat.leb_le. apply Ef.
  now apply list_elem_of_In.
Qed.

Lemma loaded_rows_of_file env path df0 out r df :
  load_and_prepare_data env path df0 = (out, inr (r, df)) ->
  exists csv, read_file env path = Some csv /\ nrows df = length (records csv).
Proof.
  intros H. apply load_inv in H as (f & raw & ts & Hf & Hraw & Hts & ->).
  apply read_csv_inv in Hf as (csv & Hfile & -> & _ & _).
  exists csv. split; [exact Hfile|reflexivity].
Qed.

(** ** Days counted by the loader and by the daily stage *)

Lemma value_eqb_trans a b c :
  value_eqb a b = true -> value_eqb b c = true -> value_eqb a c = true.
Proof. intros Hab Hbc. now rewrite <- (value_eqb_compat b c a Hbc). Qed.

(** Cells that are pairwise apart can be matched with equal cells of
    another list only if that list is at least as long. *)
Lemma apart_length_le (l1 l2 : Series) :
  StronglySorted apart l1 ->
  (forall x, x ∈ l1 -> exists y, y ∈ l2 /\ value_eqb x y = true) ->
  (length l1 <= length l2)%nat.
Proof.
  revert l2. induction l1 as [|x l1 IH]; intros l2 Hs Hc; simpl; [lia|].
  apply StronglySorted_inv in Hs as [Hs Hx].
  destruct (Hc x (list_elem_of_here x l1)) as (y & Hy & Hxy).
  apply list_elem_of_split in Hy as (a & b & ->).
  rewrite length_app. simpl.
  enough (length l1 <= length (a ++ b))%nat by (rewrite length_app in *; lia).
  apply IH; [exact Hs|].
  intros x' Hx'.
  destruct (Hc x' (list_elem_of_further _ _ _ Hx')) as (y' & Hy' & Hxy').
  exists y'. split; [|exact Hxy'].
  apply elem_of_app in Hy' as [Hy'|Hy']; [apply elem_of_app; now left|].
  apply elem_of_cons in Hy' as [->|Hy']; [|apply elem_of_app; now right].
  exfalso. rewrite Forall_forall in Hx. specialize (Hx x' Hx'). unfold apart in Hx.
  rewrite value_eqb_sym in Hxy'.
  now rewrite (value_eqb_trans x y x' Hxy Hxy') in Hx.
Qed.

Lemma unique_elem s x : x ∈ unique s -> x ∈ s.
Proof.
  revert x. induction s as [|v s IH]; intros x; simpl; [auto|].
  intros H. apply elem_of_cons in H as [->|H]; [apply list_elem_of_here|].
  apply list_elem_of_filter in H as [_ H]. apply list_elem_of_further. auto.
Qed.

Lemma unique_covers s x :
  x ∈ s -> exists y, y ∈ unique s /\ value_eqb x y = true.
Proof.
  induction s as [|v s IH]; intros H; [now apply elem_of_nil in H|].
  simpl. apply elem_of_cons in H as [->|H].
  - exists v. split; [apply list_elem_of_here|apply value_eqb_refl].
  - destruct (IH H) as (y & Hy & Hxy).
    destruct (value_eqb v y) eqn:E.
    + exists v. split; [apply list_elem_of_here|].
      rewrite value_eqb_sym in E. exact (value_eqb_trans x y v Hxy E).
    + exists y. split; [|exact Hxy].
      apply list_elem_of_further. apply list_elem_of_filter. auto.
Qed.

Lemma StronglySorted_filter_list {A} (R : A -> A -> Prop) (P : A -> Prop)
    `{!forall x, Decision (P x)} (l : list A) :
  StronglySorted R l -> StronglySorted R (filter P l).
Proof.
  induction l as [|x l IH]; intros Hs; [constructor|].
  apply StronglySorted_inv in Hs as [Hs Hx].
  rewrite filter_cons. destruct (decide (P x)); [|auto].
  constructor; [auto|].
  apply Forall_forall. intros y Hy. apply list_elem_of_filter in Hy as [_ Hy].
  rewrite Forall_forall in Hx. auto.
Qed.

Lemma unique_apart s : StronglySorted apart (unique s).
Proof.
  induction s as [|v s IH]; simpl; [constructor|].
  constructor; [now apply StronglySorted_filter_list|].
  apply Forall_forall. intros y Hy. now apply list_elem_of_filter in Hy as [Hy _].
Qed.

Lemma StronglySorted_weaken {A} (R1 R2 : A -> A -> Prop) (l : list A) :
  (forall a b, R1 a b -> R2 a b) -> StronglySorted R1 l -> StronglySorted R2 l.
Proof.
  intros HR. induction 1 as [|x l Hs IH Hx]; constructor; [exact IH|].
  eapply Forall_impl; [exact Hx|]. auto.
Qed.

Lemma groupby_size_apart s : StronglySorted apart (map fst (groupby_size s)).
Proof.
  eapply StronglySorted_weaken; [|apply groupby_size_sorted].
  intros a b H. unfold cmp_lt in H. unfold apart, value_eqb. now rewrite H.
Qed.

Lemma value_eqb_is_null a b : value_eqb a b = true -> is_null a = is_null b.
Proof.
  unfold value_eqb. destruct (value_compare a b) eqn:E; try discriminate.
  intros _. now apply value_compare_eq_null.
Qed.

Lemma filter_split_length {A} (p : A -> bool) (l : list A) :
  length l
  = (length (filter (fun x => p x = true) l)
     + length (filter (fun x => p x = false) l))%nat.
Proof.
  induction l as [|x l IH]; [reflexivity|].
  rewrite !filter_cons. destruct (p x); simpl.
  - destruct (decide (true = true)); [|congruence].
    destruct (decide (true = false)); [congruence|]. simpl. lia.
  - destruct (decide (false = true)); [congruence|].
    destruct (decide (false = false)); [|congruence]. simpl. lia.
Qed.

Lemma nulls_of_unique s :
  length (filter (fun v => notnull v = false) (unique s))
  = if has_null s then 1%nat else 0%nat.
Proof.
  assert (forall l, StronglySorted apart l ->
            Forall (fun v => notnull v = false) l -> (length l <= 1)%nat) as Hone.
  { intros [|a [|b l]] Hs Hn; simpl; try lia.
    exfalso. apply StronglySorted_inv in Hs as [_ Ha].
    apply Forall_cons in Ha as [Hab _].
    apply Forall_cons in Hn as [Hna Hn]. apply Forall_cons in Hn as [Hnb _].
    destruct a; try discriminate. destruct b; discriminate. }
  pose proof (Hone (filter (fun v => notnull v = false) (unique s))) as H1.
  destruct (has_null s) eqn:E.
  - unfold has_null in E. apply existsb_exists in E as (x & Hx & Hnx).
    destruct x; try discriminate. apply list_elem_of_In in Hx.
    destruct (unique_covers s VNull Hx) as (y & Hy & Hxy).
    assert (y = VNull) as -> by (destruct y; try discriminate; reflexivity).
    assert (VNull ∈ filter (fun v => notnull v = false) (unique s)) as Hin.
    { apply list_elem_of_filter. auto. }
    destruct (filter _ (unique s)) as [|a l] eqn:Ef; [now apply elem_of_nil in Hin|].
    simpl in *. enough (length l <= 0)%nat by lia.
    enough (S (length l) <= 1)%nat by lia. apply H1.
    + rewrite <- Ef. apply StronglySorted_filter_list, unique_apart.
    + rewrite <- Ef. apply Forall_forall. intros v Hv.
      now apply list_elem_of_filter in Hv as [Hv _].
  - destruct (filter _ (unique s)) as [|a l] eqn:Ef; [reflexivity|]. exfalso.
    assert (a ∈ filter (fun v => notnull v = false) (unique s)) as Hin
      by (rewrite Ef; apply list_elem_of_here).
    apply list_elem_of_filter in Hin as [Hna Hin]. apply unique_elem in Hin.
    unfold has_null in E.
    assert (existsb is_null s = true) as E'; [|congruence].
    apply existsb_exists. exists a. split; [now apply list_elem_of_In|].
    now destruct a.
Qed.

(** [unique] finds one cell per group of [groupby], and NaN besides when
    the column has a missing cell. *)
Lemma unique_groups s :
  length (unique s)
  = (length (groupby_size s) + (if has_null s then 1 else 0))%nat.
Proof.
  rewrite (filter_split_length notnull (unique s)), nulls_of_unique.
  f_equal. rewrite <- (length_map fst (groupby_size s)).
  apply Nat.le_antisymm.
  - apply apart_length_le.
    + apply StronglySorted_filter_list, unique_apart.
    + intros x Hx. apply list_elem_of_filter in Hx as [Hnn Hx].
      apply unique_elem in Hx.
      destruct (groupby_size_complete s x Hx Hnn) as (k & Hk & Heq).
      exists k. split; [exact Hk|]. unfold value_eqb. now rewrite Heq.
  - apply apart_length_le; [apply groupby_size_apart|].
    intros k Hk. apply groupby_size_sound in Hk as [Hk Hnn].
    destruct (unique_covers s k Hk) as (y & Hy & Hky).
    exists y. split; [|exact Hky].
    apply list_elem_of_filter. split; [|exact Hy].
    unfold notnull in *. now rewrite <- (value_eqb_is_null k y Hky).
Qed.

(** What the daily stage prints. *)
Lemma analyze_daily_trends_out env df out daily df' :
  analyze_daily_trends env df = (out, inr (daily, df')) ->
  exists od shown top,
    getcol df "order_date" = inr od /\
    daily_series env od = inr daily /\
    fmt 1 (mean_of (map inject_Z (sizes_Z (groupby_size od)))) = inr shown /\
    busiest_days daily = inr top /\
    out = [Line banner; Line "DAILY TRENDS ANALYSIS"; Line banner;
           Stat "Total days: {}" [int_cell (nrows daily)];
           Stat "Average orders per day: {:.1f}" [shown];
           Stat "Max orders in a day: {}"
             [series_max (map VInt (sizes_Z (groupby_size od)))];
           Stat "Min orders in a day: {}"
             [series_min (map VInt (sizes_Z (groupby_size od)))];
           Line "Top 5 busiest days:"; ShowFrame top].
Proof.
  unfold analyze_daily_trends. intros H. run_ok H.
  unfold mret, M_ret in H. injection H as <- <- <-.
  destruct (daily_series_inv _ _ _ Hrun0) as (ts & _ & Hshape).
  assert (a1 = map VInt (sizes_Z (groupby_size a))) as ->.
  { subst a0.
    change (getcol _ "order_count")
      with (inr (A:=Err) (map VInt (sizes_Z (groupby_size a)))) in Hrun1.
    congruence. }
  rewrite series_mean_ints in Hrun2. injection Hrun2 as <-.
  exists a, a3, a4. repeat (split; [assumption|]). reflexivity.
Qed.

(** X2. The loader prints the number of records and the number of
    distinct values of [order_date], where a missing timestamp counts as
    one more day: the day count is the "Total days" of the daily stage,
    plus one when some row has no timestamp. *)
Theorem load_reports_orders_and_days env path df0 out r df :
  load_and_prepare_data env path df0 = (out, inr (r, df)) ->
  exists csv dates,
    read_file env path = Some csv /\
    getcol df "order_date" = inr dates /\
    out = [Line "Loading dataset...";
           Stat "Dataset loaded: {} orders from {} days"
             [int_cell (length (records csv));
              int_cell (length (groupby_size dates)
                        + (if has_null dates then 1 else 0))]] /\
    (forall env' out' daily df',
       analyze_daily_trends env' df = (out', inr (daily, df')) ->
       Stat "Total days: {}" [int_cell (length (groupby_size dates))] ∈ out').
Proof.
  intros H.
  destruct (loaded_rows_of_file _ _ _ _ _ _ H) as (csv & Hfile & Hrows).
  unfold load_and_prepare_data in H. run_ok H.
  rewrite print_run in H. injection H as <- <- <-.
  exists csv, a3. split; [exact Hfile|]. split; [exact Hrun3|]. split.
  - cbn [nrows setcol] in *. rewrite unique_groups, Hrows. reflexivity.
  - intros env' out' daily df' Hd.
    apply analyze_daily_trends_out in Hd as (od & shown & top & Hod & Hs & _ & _ & ->).
    rewrite Hrun3 in Hod. injection Hod as <-.
    apply daily_series_inv in Hs as (ts & _ & ->). cbn [nrows].
    do 3 apply list_elem_of_further. apply list_elem_of_here.
Qed.


Lemma load_reports_orders_and_days_witness :
  exists (out : list Out) csv dates,
    read_file sample_env DATASET = Some csv /\
    getcol sample_table "order_date" = inr dates /\
    out = [Line "Loading dataset...";
           Stat "Dataset loaded: {} orders from {} days"
             [int_cell (length (records csv));
              int_cell (length (groupby_size dates)
                        + (if has_null dates then 1 else 0))]] /\
    (forall env' out' daily df',
       analyze_daily_trends env' sample_table = (out', inr (daily, df')) ->
       Stat "Total days: {}" [int_cell (length (groupby_size dates))] ∈ out').
Proof.
  eexists.
  eapply (load_reports_orders_and_days sample_env DATASET empty_frame _ tt sample_table).
  vm_compute. reflexivity.
Defined.

(** ** The figures of the daily stage *)

Lemma filter_notnull_ints zs :
  filter (fun v => notnull v = true) (map VInt zs) = map VInt zs.
Proof.
  apply filter_all. apply Forall_forall. intros v Hv.
  apply list_elem_of_fmap in Hv as (z & -> & _). reflexivity.
Qed.

Lemma foldl_max_ints zs : forall z,
  foldl (fun m x => if value_geb m x then m else x) (VInt z) (map VInt zs)
  = VInt (foldl Z.max z zs).
Proof.
  induction zs as [|x zs IH]; intros z; simpl; [reflexivity|].
  rewrite <- IH. f_equal.
  unfold value_geb, Z.max. simpl. now destruct (z ?= x).
Qed.

Lemma foldl_min_ints zs : forall z,
  foldl (fun m x => if value_leb m x then m else x) (VInt z) (map VInt zs)
  = VInt (foldl Z.min z zs).
Proof.
  induction zs as [|x zs IH]; intros z; simpl; [reflexivity|].
  rewrite <- IH. f_equal.
  unfold value_leb, value_geb, Z.min. simpl.
  rewrite (Z.compare_antisym z x). now destruct (z ?= x).
Qed.

Lemma series_max_ints z zs : series_max (map VInt (z :: zs)) = VInt (foldl Z.max z zs).
Proof.
  unfold series_max. rewrite filter_notnull_ints. simpl. apply foldl_max_ints.
Qed.

Lemma series_min_ints z zs : series_min (map VInt (z :: zs)) = VInt (foldl Z.min z zs).
Proof.
  unfold series_min. rewrite filter_notnull_ints. simpl. apply foldl_min_ints.
Qed.

Lemma foldl_max_spec zs : forall z,
  foldl Z.max z zs ∈ z :: zs /\ Forall (fun c => c <= foldl Z.max z zs) (z :: zs).
Proof.
  induction zs as [|x zs IH]; intros z; simpl.
  - split; [apply list_elem_of_here|]. repeat constructor. lia.
  - destruct (IH (Z.max z x)) as [Hin Hall].
    apply Forall_cons in Hall as [Hm Hall]. split.
    + apply elem_of_cons in Hin as [Hin|Hin].
      * rewrite Hin. destruct (Z.max_spec z x) as [[_ ->]|[_ ->]].
        -- apply list_elem_of_further, list_elem_of_here.
        -- apply list_elem_of_here.
      * now do 2 apply list_elem_of_further.
    + constructor; [lia|]. constructor; [lia|exact Hall].
Qed.

Lemma foldl_min_spec zs : forall z,
  foldl Z.min z zs ∈ z :: zs /\ Forall (fun c => foldl Z.min z zs <= c) (z :: zs).
Proof.
  induction zs as [|x zs IH]; intros z; simpl.
  - split; [apply list_elem_of_here|]. repeat constructor. lia.
  - destruct (IH (Z.min z x)) as [Hin Hall].
    apply Forall_cons in Hall as [Hm Hall]. split.
    + apply elem_of_cons in Hin as [Hin|Hin].
      * rewrite Hin. destruct (Z.min_spec z x) as [[_ ->]|[_ ->]].
        -- apply list_elem_of_here.
        -- apply list_elem_of_further, list_elem_of_here.
      * now do 2 apply list_elem_of_further.
    + constructor; [lia|]. constructor; [lia|exact Hall].
Qed.

Lemma Zsum_sizes (g : list (value * nat)) :
  Zsum (sizes_Z g) = Z.of_nat (total_count g).
Proof.
  unfold sizes_Z, total_count.
  induction g as [|e g IH]; simpl; [reflexivity|]. rewrite IH. lia.
Qed.

(** Every group of [groupby(...).size()] has at least one row. *)
Lemma groupby_size_positive s : Forall (fun c => 1 <= c) (sizes_Z (groupby_size s)).
Proof.
  unfold sizes_Z, groupby_size. rewrite map_map. simpl.
  apply Forall_forall. intros c Hc.
  apply list_elem_of_fmap in Hc as (g & -> & Hg).
  pose proof (group_rows_nonempty value_compare
                (map (fun k => (k, tt)) (filter (fun k => notnull k = true) s))) as Hne.
  rewrite Forall_forall in Hne. specialize (Hne g Hg).
  destruct (snd g); [congruence|]. simpl. lia.
Qed.

Example average_21_on_20 : (printed 1 (f64 (21 # 20)) == 11 # 10)%Q.
Proof. vm_compute. reflexivity. Qed.

(** X3. The summary of the daily stage.  "Total days" is the length of
    the series; the average is the float nearest to the number of dated
    orders divided by the number of days, shown with one decimal (21
    orders on 20 days show 1.1); the maximum and the minimum
    are counts of the series that bound all others, and the minimum is at
    least 1, since a day without orders has no row.  Without dated orders
    the series is empty and the three figures are NaN. *)
Theorem daily_summary_figures env df out daily df' :
  analyze_daily_trends env df = (out, inr (daily, df')) ->
  exists od counts avg hi lo top,
    getcol df "order_date" = inr od /\
    getcol daily "order_count" = inr (map VInt counts) /\
    out = [Line banner; Line "DAILY TRENDS ANALYSIS"; Line banner;
           Stat "Total days: {}" [VInt (Z.of_nat (length counts))];
           Stat "Average orders per day: {:.1f}" [avg];
           Stat "Max orders in a day: {}" [hi];
           Stat "Min orders in a day: {}" [lo];
           Line "Top 5 busiest days:"; ShowFrame top] /\
    (counts = [] <-> count_notnull od = 0%nat) /\
    (counts = [] -> avg = VNull /\ hi = VNull /\ lo = VNull) /\
    (counts <> [] ->
     exists q zhi zlo,
       avg = VNum (printed 1 (f64 q)) /\
       (q * Qnat (length counts) == Qnat (count_notnull od))%Q /\
       hi = VInt zhi /\ zhi ∈ counts /\ Forall (fun c => c <= zhi) counts /\
       lo = VInt zlo /\ zlo ∈ counts /\ Forall (fun c => zlo <= c) counts /\
       1 <= zlo).
Proof.
  intros H.
  apply analyze_daily_trends_out in H
    as (od & shown & top & Hod & Hs & Hfmt & Htop & ->).
  apply daily_series_inv in Hs as (ts & _ & ->).
  assert (length (sizes_Z (groupby_size od)) = length (groupby_size od)) as Hlen
    by (unfold sizes_Z; now rewrite length_map).
  assert (Zsum (sizes_Z (groupby_size od)) = Z.of_nat (count_notnull od)) as Hsum
    by (now rewrite Zsum_sizes, groupby_size_total_count).
  pose proof (groupby_size_positive od) as Hpos.
  remember (sizes_Z (groupby_size od)) as counts eqn:Hcounts.
  exists od, counts, shown, (series_max (map VInt counts)),
    (series_min (map VInt counts)), top.
  split; [exact Hod|]. split; [reflexivity|]. split.
  { cbn [nrows]. unfold int_cell. now rewrite Hlen. }
  split; [|split].
  - split.
    + intros E. rewrite E in Hsum. simpl in Hsum. lia.
    + intros E. destruct counts as [|c cs]; [reflexivity|]. exfalso.
      apply Forall_cons in Hpos as [Hc Hcs].
      assert (0 <= Zsum cs) as Hnn.
      { clear -Hcs. induction Hcs; simpl; lia. }
      simpl in Hsum. lia.
  - intros E. rewrite E in *. simpl in Hfmt. injection Hfmt as <-. auto.
  - intros Hne. destruct counts as [|c cs] eqn:Ec; [congruence|].
    rewrite <- Ec in *.
    assert (mean_of (map inject_Z counts)
            = VNum (Qsum (map inject_Z counts) / Qnat (length counts))) as Hm.
    { rewrite Ec. simpl. now rewrite length_map. }
    rewrite Hm in Hfmt. cbn [fmt] in Hfmt. injection Hfmt as <-.
    destruct (foldl_max_spec cs c) as [Hhi1 Hhi2].
    destruct (foldl_min_spec cs c) as [Hlo1 Hlo2].
    exists (Qsum (map inject_Z counts) / Qnat (length counts))%Q,
      (foldl Z.max c cs), (foldl Z.min c cs).
    split; [reflexivity|]. split.
    { rewrite Qsum_inject, Hsum. unfold Qnat at 3.
      assert (~ Qnat (length counts) == 0)%Q as Hnz.
      { rewrite Ec. unfold Qnat. simpl length. intros Hq.
        apply (Qeq_bool_iff _ _) in Hq. vm_compute in Hq.
        unfold Qeq in Hq. simpl in Hq. lia. }
      field. exact Hnz. }
    rewrite Ec, series_max_ints, series_min_ints.
    repeat (split; [first [reflexivity | assumption]|]).
    rewrite <- Ec in Hlo1. rewrite Forall_forall in Hpos. now apply Hpos.
Qed.

Lemma daily_summary_figures_witness :
  exists (out : list Out) od counts avg hi lo top,
    getcol week_table "order_date" = inr od /\
    getcol week_daily "order_count" = inr (map VInt counts) /\
    out = [Line banner; Line "DAILY TRENDS ANALYSIS"; Line banner;
           Stat "Total days: {}" [VInt (Z.of_nat (length counts))];
           Stat "Average orders per day: {:.1f}" [avg];
           Stat "Max orders in a day: {}" [hi];
           Stat "Min orders in a day: {}" [lo];
           Line "Top 5 busiest days:"; ShowFrame top] /\
    (counts = [] <-> count_notnull od = 0%nat) /\
    (counts = [] -> avg = VNull /\ hi = VNull /\ lo = VNull) /\
    (counts <> [] ->
     exists q zhi zlo,
       avg = VNum (printed 1 (f64 q)) /\
       (q * Qnat (length counts) == Qnat (count_notnull od))%Q /\
       hi = VInt zhi /\ zhi ∈ counts /\ Forall (fun c => c <= zhi) counts /\
       lo = VInt zlo /\ zlo ∈ counts /\ Forall (fun c => zlo <= c) counts /\
       1 <= zlo).
Proof.
  eexists.
  eapply (daily_summary_figures quiet_env week_table _ week_daily week_table).
  vm_compute. reflexivity.
Defined.

(** ** Frequency tables: every category once, most frequent first *)

Lemma distinct_keys_perm (l l' : list (value * nat)) :
  l ≡ₚ l' -> distinct_keys l -> distinct_keys l'.
Proof.
  induction 1 as [|[k n] l l' Hp IH|[k1 n1] [k2 n2] l|l1 l2 l3 _ IH1 _ IH2];
    simpl; auto.
  - intros [Hk Hd]. split; [now rewrite <- Hp|auto].
  - intros (Hk2 & Hk1 & Hd).
    apply Forall_cons in Hk2 as [H21 Hk2]. simpl in H21.
    split; [|split; [|exact Hd]]; [|exact Hk2].
    constructor; [|exact Hk1]. simpl. now rewrite value_eqb_sym.
Qed.

Lemma apart_distinct (l : list (value * nat)) :
  StronglySorted apart (map fst l) -> distinct_keys l.
Proof.
  induction l as [|[k n] l IH]; simpl; [auto|].
  intros Hs. apply StronglySorted_inv in Hs as [Hs Hk]. split; [|auto].
  apply Forall_forall. intros e He. rewrite Forall_forall in Hk.
  apply Hk. now apply (list_elem_of_fmap_2 fst).
Qed.

Lemma groupby_size_distinct s : distinct_keys (groupby_size s).
Proof. apply apart_distinct, groupby_size_apart. Qed.

Lemma value_counts_distinct s : distinct_keys (value_counts s).
Proof.
  eapply distinct_keys_perm.
  - symmetry. apply sort_values_desc_perm.
  - apply fold_tally_distinct. exact I.
Qed.

Lemma city_stats_distinct s : distinct_keys (city_stats s).
Proof.
  eapply distinct_keys_perm.
  - symmetry. apply sort_values_desc_perm.
  - apply groupby_size_distinct.
Qed.

(** [sort_values(ascending=False)] on counts: no entry is followed by a
    larger one. *)
Lemma sort_values_desc_counts (l : list (value * nat)) :
  StronglySorted (fun a b => (snd b <= snd a)%nat) (sort_values_desc int_cell l).
Proof.
  unfold sort_values_desc.
  eapply StronglySorted_weaken; [|apply sort_desc_sorted].
  - intros a b H. unfold desc, int_cell in H. apply value_geb_ints in H. lia.
  - intros a b. apply value_geb_total.
  - intros a b c. apply value_geb_trans.
Qed.

Lemma tallied_elem k (l : list (value * nat)) :
  (0 < tallied k l)%nat ->
  exists k' n, (k', n) ∈ l /\ value_eqb k k' = true /\ (0 < n)%nat.
Proof.
  induction l as [|[k' n] l IH]; simpl; [lia|].
  destruct (value_eqb k k') eqn:E.
  - destruct n as [|n].
    + simpl. intros H. destruct (IH H) as (k2 & n2 & Hin & Heq & Hn).
      exists k2, n2. split; [now apply list_elem_of_further|auto].
    + intros _. exists k', (S n). split; [apply list_elem_of_here|]. split; [exact E|lia].
  - simpl. intros H. destruct (IH H) as (k2 & n2 & Hin & Heq & Hn).
    exists k2, n2. split; [now apply list_elem_of_further|auto].
Qed.

Lemma count_equal_elem k s : k ∈ s -> (0 < count_equal k s)%nat.
Proof.
  intros Hk. unfold count_equal.
  assert (k ∈ filter (fun v => value_eqb k v = true) s) as Hin.
  { apply list_elem_of_filter. split; [apply value_eqb_refl|exact Hk]. }
  destruct (filter _ s); [now apply elem_of_nil in Hin|simpl; lia].
Qed.

(** Every non-null cell of a column is a category of its
    [value_counts]. *)
Lemma value_counts_complete s k :
  k ∈ s -> notnull k = true ->
  exists k' n, (k', n) ∈ value_counts s /\ value_eqb k k' = true.
Proof.
  intros Hk Hnn.
  pose proof (fold_tally_tallied k (filter (fun v => notnull v = true) s) []) as Ht.
  simpl in Ht. rewrite Nat.add_0_r, (count_equal_notnull k s Hnn) in Ht.
  pose proof (count_equal_elem k s Hk) as Hpos. rewrite <- Ht in Hpos.
  apply tallied_elem in Hpos as (k' & n & Hin & Heq & _).
  exists k', n. split; [|exact Heq].
  unfold value_counts. rewrite sort_values_desc_perm. exact Hin.
Qed.

Lemma city_stats_complete s k :
  k ∈ s -> notnull k = true ->
  exists k' n, (k', n) ∈ city_stats s /\ value_eqb k k' = true.
Proof.
  intros Hk Hnn.
  destruct (groupby_size_complete s k Hk Hnn) as (k' & Hk' & Heq).
  apply list_elem_of_fmap in Hk' as ([k2 n] & -> & Hin).
  exists k2, n. split.
  - unfold city_stats. rewrite sort_values_desc_perm. exact Hin.
  - unfold value_eqb. simpl in Heq. now rewrite Heq.
Qed.

(** X4. "Total orders by city" lists every city of the table exactly
    once, with the number of its rows (at least one), and no city is
    followed by one with a larger total. *)
Theorem city_totals_largest_first env df out city_trends df' :
  analyze_city_trends env df = (out, inr (city_trends, df')) ->
  exists city totals,
    getcol df "city" = inr city /\
    out !! 4%nat
    = Some (ShowSeries (map (fun e => (fst e, VInt (Z.of_nat (snd e)))) totals)) /\
    StronglySorted (fun a b => (snd b <= snd a)%nat) totals /\
    distinct_keys totals /\
    (forall c n, (c, n) ∈ totals ->
       c ∈ city /\ n = count_equal c city /\ (1 <= n)%nat) /\
    (forall c, c ∈ city -> notnull c = true ->
       exists c' n, (c', n) ∈ totals /\ value_eqb c c' = true).
Proof.
  intros H.
  apply analyze_city_trends_inv in H
    as (city & od & avg & Hcity & _ & _ & _ & -> & _).
  exists city, (city_stats city).
  split; [exact Hcity|]. split; [reflexivity|].
  split; [apply sort_values_desc_counts|].
  split; [apply city_stats_distinct|]. split.
  - intros c n Hin.
    unfold city_stats in Hin. rewrite sort_values_desc_perm in Hin.
    apply groupby_size_spec in Hin as (Hc & _ & ->).
    split; [exact Hc|]. split; [reflexivity|].
    pose proof (count_equal_elem c city Hc). lia.
  - intros c Hc Hnn. now apply city_stats_complete.
Qed.

Lemma city_totals_largest_first_witness :
  exists (out : list Out) city totals,
    getcol sample_table "city" = inr city /\
    out !! 4%nat
    = Some (ShowSeries (map (fun e => (fst e, VInt (Z.of_nat (snd e)))) totals)) /\
    StronglySorted (fun a b => (snd b <= snd a)%nat) totals /\
    distinct_keys totals /\
    (forall c n, (c, n) ∈ totals ->
       c ∈ city /\ n = count_equal c city /\ (1 <= n)%nat) /\
    (forall c, c ∈ city -> notnull c = true ->
       exists c' n, (c', n) ∈ totals /\ value_eqb c c' = true).
Proof.
  eexists.
  eapply (city_totals_largest_first sample_env sample_table).
  vm_compute. reflexivity.
Defined.

(** ** The (date, city) series *)

Section GroupWeights.
Context {K V : Type} (cmp : K -> K -> comparison) (P : K -> bool).
Hypothesis P_compat : forall k k', cmp k k' = Eq -> P k = P k'.
Local Abbreviation weight :=
  (sum_list_with (fun g : K * list V => if P (fst g) then length (snd g) else 0%nat)).

Lemma place_weight k v (l : list (K * list V)) :
  weight (place cmp k v l) = (weight l + if P k then 1 else 0)%nat.
Proof.
  induction l as [|[k' vs] l IH]; simpl.
  - destruct (P k); reflexivity.
  - destruct (cmp k k') eqn:E; simpl.
    + rewrite (P_compat k k' E). destruct (P k'); [|lia].
      rewrite length_app. simpl. lia.
    + destruct (P k), (P k'); lia.
    + rewrite IH. lia.
Qed.

Lemma fold_place_weight (rows : list (K * V)) : forall acc,
  weight (fold_left (fun acc r => place cmp (fst r) (snd r) acc) rows acc)
  = (weight acc + length (filter (fun r => P (fst r) = true) rows))%nat.
Proof.
  induction rows as [|r rows IH]; intros acc; simpl; [lia|].
  rewrite IH, place_weight, filter_cons.
  destruct (P (fst r)); simpl.
  - destruct (decide (true = true)); [simpl; lia|congruence].
  - destruct (decide (false = true)); [congruence|lia].
Qed.

(** The groups whose key satisfies [P] hold the rows whose key does. *)
Lemma group_rows_weight (rows : list (K * V)) :
  weight (group_rows cmp rows) = length (filter (fun r => P (fst r) = true) rows).
Proof. unfold group_rows. now rewrite fold_place_weight. Qed.

End GroupWeights.

Lemma sum_list_with_map {A B} (f : B -> nat) (h : A -> B) (l : list A) :
  sum_list_with f (map h l) = sum_list_with (fun x => f (h x)) l.
Proof. induction l as [|x l IH]; simpl; [reflexivity|]. now rewrite IH. Qed.

Lemma filter_length_map {A B} (h : A -> B) (p : B -> bool) (l : list A) :
  length (filter (fun y => p y = true) (map h l))
  = length (filter (fun x => p (h x) = true) l).
Proof.
  induction l as [|x l IH]; simpl; [reflexivity|].
  rewrite !filter_cons. destruct (decide (p (h x) = true)); simpl; now rewrite IH.
Qed.

Lemma filter_filter_length {A} (p q : A -> bool) (l : list A) :
  length (filter (fun x => p x = true) (filter (fun x => q x = true) l))
  = length (filter (fun x => (q x && p x)%bool = true) l).
Proof.
  induction l as [|x l IH]; simpl; [reflexivity|].
  rewrite !filter_cons. destruct (q x) eqn:Eq; simpl.
  - destruct (decide (true = true)); [|congruence].
    rewrite filter_cons. destruct (decide (p x = true)); simpl; now rewrite IH.
  - destruct (decide (false = true)); [congruence|].
    destruct (decide (false = true)); [congruence|]. exact IH.
Qed.

Lemma filter_length_ext {A} (p q : A -> bool) (l : list A) :
  (forall x, x ∈ l -> p x = q x) ->
  length (filter (fun x => p x = true) l) = length (filter (fun x => q x = true) l).
Proof.
  induction l as [|x l IH]; intros H; [reflexivity|].
  rewrite !filter_cons, <- (H x (list_elem_of_here x l)).
  destruct (decide (p x = true)); simpl; rewrite IH; auto;
    intros y Hy; apply H; now apply list_elem_of_further.
Qed.

Lemma filter_length_ext_prop {A} (P Q : A -> Prop)
    `{!forall x, Decision (P x)} `{!forall x, Decision (Q x)} (l : list A) :
  (forall x, P x <-> Q x) -> length (filter P l) = length (filter Q l).
Proof.
  intros Hpq. induction l as [|x l IH]; [reflexivity|].
  rewrite !filter_cons.
  destruct (decide (P x)) as [Hp|Hp], (decide (Q x)) as [Hq|Hq]; simpl;
    rewrite ?IH; try reflexivity; exfalso.
  - apply Hq. now apply Hpq.
  - apply Hp. now apply Hpq.
Qed.

Lemma pair_compare_eq_notnull p r :
  pair_compare p r = Eq -> both_notnull p = both_notnull r.
Proof.
  unfold pair_compare, both_notnull, notnull.
  destruct (value_compare (fst p) (fst r)) eqn:E1; try discriminate.
  intros E2.
  now rewrite (value_compare_eq_null _ _ E1), (value_compare_eq_null _ _ E2).
Qed.

Lemma groupby2_size_keys od city :
  map fst (groupby2_size od city)
  = map fst (group_rows pair_compare
               (map (fun r => (r, tt))
                  (filter (fun r => both_notnull r = true) (zip od city)))).
Proof. unfold groupby2_size. now rewrite map_map. Qed.

Lemma groupby2_size_sorted od city :
  StronglySorted (cmp_lt pair_compare) (map fst (groupby2_size od city)).
Proof. rewrite groupby2_size_keys. apply group_rows_sorted. apply _. Qed.

(** [groupby([...]).size()] reports, for a pair of keys, the number of
    rows that carry both; a pair with a null is never reported. *)
Lemma groupby2_size_spec od city d c n :
  ((d, c), n) ∈ groupby2_size od city ->
  notnull d = true /\ notnull c = true /\
  (d, c) ∈ zip od city /\ n = count_pair d c od city /\ (1 <= n)%nat.
Proof.
  intros Hin. unfold groupby2_size in Hin.
  apply list_elem_of_fmap in Hin as ([k vs] & Heq & Hg).
  simpl in Heq. injection Heq as <- ->.
  assert ((d, c) ∈ filter (fun r => both_notnull r = true) (zip od city)) as Hk.
  { pose proof (list_elem_of_fmap_2 fst _ _ Hg) as Hk. simpl in Hk.
    apply (group_rows_sound pair_compare) in Hk.
    now rewrite map_fst_tagged in Hk. }
  apply list_elem_of_filter in Hk as [Hnn Hk].
  pose proof Hnn as Hnn'. unfold both_notnull in Hnn'. simpl in Hnn'.
  apply andb_true_iff in Hnn' as [Hd Hc].
  split; [exact Hd|]. split; [exact Hc|]. split; [exact Hk|].
  pose proof (group_rows_nonempty pair_compare
                (map (fun r => (r, tt))
                   (filter (fun r => both_notnull r = true) (zip od city)))) as Hne.
  rewrite Forall_forall in Hne. specialize (Hne _ Hg). simpl in Hne.
  apply group_rows_spec in Hg; [|apply _]. subst vs.
  split; [|destruct (rows_of _ _ _); [congruence|simpl; lia]].
  unfold rows_of, count_pair. rewrite length_map.
  rewrite (filter_length_map (fun r => (r, tt))
             (fun y => is_Eq (pair_compare (d, c) (fst y)))).
  simpl.
  rewrite (filter_filter_length (fun r => is_Eq (pair_compare (d, c) r)) both_notnull).
  apply filter_length_ext. intros r _.
  destruct (is_Eq (pair_compare (d, c) r)) eqn:E; [|apply andb_false_r].
  assert (pair_compare (d, c) r = Eq) as E'
    by (destruct (pair_compare (d, c) r); try discriminate; reflexivity).
  rewrite <- (pair_compare_eq_notnull _ _ E'), Hnn. reflexivity.
Qed.


Lemma Zsum_sizes2 (g : list ((value * value) * nat)) :
  Zsum (sizes2_Z g) = Z.of_nat (sum_list_with snd g).
Proof.
  unfold sizes2_Z.
  induction g as [|e g IH]; simpl; [reflexivity|]. rewrite IH. lia.
Qed.

Lemma groupby2_size_total od city :
  sum_list_with snd (groupby2_size od city)
  = length (filter (fun r => both_notnull r = true) (zip od city)).
Proof.
  unfold groupby2_size. rewrite sum_list_with_map. simpl.
  rewrite <- sum_list_map.
  change (sum_list (map (fun g : value * value * list unit => length (snd g)) ?l))
    with (total_rows l).
  rewrite group_rows_total. now rewrite length_map.
Qed.

(** X5. The (date, city) series has one row per pair that occurs in the
    table with both cells present, in ascending order of date and then
    city; a row's count is the number of orders of that city on that
    date, at least 1; the counts add up to the number of orders that
    have both a date and a city. *)
Theorem city_series_rows env df out city_trends df' :
  analyze_city_trends env df = (out, inr (city_trends, df')) ->
  exists od city pairs counts dates,
    getcol df "order_date" = inr od /\
    getcol df "city" = inr city /\
    getcol city_trends "order_date" = inr dates /\
    to_datetime env (map fst pairs) = inr dates /\
    getcol city_trends "city" = inr (map snd pairs) /\
    getcol city_trends "order_count" = inr (map VInt counts) /\
    length pairs = nrows city_trends /\
    length counts = nrows city_trends /\
    StronglySorted (cmp_lt pair_compare) pairs /\
    (forall i d c n,
       pairs !! i = Some (d, c) -> counts !! i = Some n ->
       notnull d = true /\ notnull c = true /\ (d, c) ∈ zip od city /\
       n = Z.of_nat (count_pair d c od city) /\ 1 <= n) /\
    Zsum counts
    = Z.of_nat (length (filter (fun r => both_notnull r = true) (zip od city))).
Proof.
  intros H.
  apply analyze_city_trends_inv in H
    as (city & od & avg & Hcity & Hod & Hs & _ & _ & _).
  apply city_series_inv in Hs as (ts & Hts & ->).
  exists od, city, (map fst (groupby2_size od city)),
    (sizes2_Z (groupby2_size od city)), ts.
  split; [exact Hod|]. split; [exact Hcity|]. split; [reflexivity|].
  split; [now rewrite map_map|]. split; [now rewrite map_map|].
  split; [reflexivity|]. split; [now rewrite length_map|].
  split; [unfold sizes2_Z; now rewrite length_map|].
  split; [apply groupby2_size_sorted|]. split.
  - intros i d c n Hp Hn.
    rewrite lookup_map in Hp. unfold sizes2_Z in Hn. rewrite lookup_map in Hn.
    destruct (groupby2_size od city !! i) as [[p m]|] eqn:E; [|discriminate].
    simpl in Hp, Hn. injection Hp as ->. injection Hn as <-.
    apply list_elem_of_lookup_2 in E.
    apply groupby2_size_spec in E as (Hd & Hc & Hin & -> & Hpos).
    repeat (split; [assumption|]). split; [reflexivity|lia].
  - now rewrite Zsum_sizes2, groupby2_size_total.
Qed.

Lemma city_series_rows_witness :
  exists city_trends od city pairs counts dates,
    getcol sample_table "order_date" = inr od /\
    getcol sample_table "city" = inr city /\
    getcol city_trends "order_date" = inr dates /\
    to_datetime sample_env (map fst pairs) = inr dates /\
    getcol city_trends "city" = inr (map snd pairs) /\
    getcol city_trends "order_count" = inr (map VInt counts) /\
    length pairs = nrows city_trends /\
    length counts = nrows city_trends /\
    StronglySorted (cmp_lt pair_compare) pairs /\
    (forall i d c n,
       pairs !! i = Some (d, c) -> counts !! i = Some n ->
       notnull d = true /\ notnull c = true /\ (d, c) ∈ zip od city /\
       n = Z.of_nat (count_pair d c od city) /\ 1 <= n) /\
    Zsum counts
    = Z.of_nat (length (filter (fun r => both_notnull r = true) (zip od city))).
Proof.
  eexists.
  eapply (city_series_rows sample_env sample_table).
  vm_compute. reflexivity.
Defined.

Lemma counts_of_city_groups c (g : list ((value * value) * nat)) :
  Zsum (counts_of_city c (map (fun e => snd (fst e)) g) (sizes2_Z g))
  = Z.of_nat (sum_list_with
                (fun e => if value_eqb c (snd (fst e)) then snd e else 0%nat) g).
Proof.
  unfold counts_of_city, sizes2_Z.
  induction g as [|e g IH]; [reflexivity|].
  cbn [map zip zip_with sum_list_with]. rewrite filter_cons. cbn [fst snd].
  destruct (decide (value_eqb c (snd (fst e)) = true)) as [E|E].
  - rewrite E. cbn [map Zsum foldr snd].
    change (foldr Z.add 0 ?l) with (Zsum l). rewrite IH. lia.
  - destruct (value_eqb c (snd (fst e))); [congruence|]. rewrite IH. lia.
Qed.

Lemma count_dated_all c od city :
  Forall (fun d => notnull d = true) od -> length od = length city ->
  count_dated c od city = count_equal c city.
Proof.
  intros Hod Hlen. unfold count_dated, count_equal.
  rewrite <- (snd_zip od city) at 2 by lia.
  change (zip od city).*2 with (map snd (zip od city)).
  rewrite (filter_length_map snd (fun v => value_eqb c v)).
  apply filter_length_ext. intros [d c'] Hin. simpl.
  apply elem_of_zip_l in Hin. rewrite Forall_forall in Hod.
  now rewrite (Hod d Hin).
Qed.

(** The per-date counts of a city add up to its dated orders. *)
Lemma city_counts_sum od city c :
  notnull c = true ->
  Zsum (counts_of_city c (map (fun e => snd (fst e)) (groupby2_size od city))
          (sizes2_Z (groupby2_size od city)))
  = Z.of_nat (count_dated c od city).
Proof.
  intros Hc. rewrite counts_of_city_groups. f_equal.
  unfold groupby2_size. rewrite sum_list_with_map. cbn [fst snd].
  rewrite (group_rows_weight pair_compare (fun k => value_eqb c (snd k))).
  - rewrite (filter_length_map (fun r => (r, tt))
               (fun y => value_eqb c (snd (fst y)))).
    cbn [fst].
    rewrite (filter_filter_length (fun r => value_eqb c (snd r)) both_notnull).
    unfold count_dated. apply filter_length_ext. intros [d c'] _.
    unfold both_notnull. cbn [fst snd].
    destruct (value_eqb c c') eqn:E; [|now rewrite !andb_false_r].
    rewrite !andb_true_r.
    assert (notnull c' = true) as ->; [|apply andb_true_r].
    unfold notnull in *. now rewrite <- (value_eqb_is_null c c' E).
  - intros k k' E. unfold pair_compare in E.
    destruct (value_compare (fst k) (fst k')); try discriminate.
    apply value_eqb_compat. unfold value_eqb. now rewrite E.
Qed.

(** X6. The two aggregations of the city stage agree: for every city
    its per-date counts add up to the number of its orders that have a
    date, hence to its total in "Total orders by city" when no order
    lacks a date. *)
Theorem city_daily_counts_add_up env df out city_trends df' :
  analyze_city_trends env df = (out, inr (city_trends, df')) ->
  exists od city cities counts,
    getcol df "order_date" = inr od /\
    getcol df "city" = inr city /\
    getcol city_trends "city" = inr cities /\
    getcol city_trends "order_count" = inr (map VInt counts) /\
    (forall c, notnull c = true ->
       Zsum (counts_of_city c cities counts) = Z.of_nat (count_dated c od city)) /\
    (length od = length city -> Forall (fun d => notnull d = true) od ->
     forall c n, (c, n) ∈ city_stats city ->
       Zsum (counts_of_city c cities counts) = Z.of_nat n).
Proof.
  intros H.
  apply analyze_city_trends_inv in H
    as (city & od & avg & Hcity & Hod & Hs & _ & _ & _).
  apply city_series_inv in Hs as (ts & Hts & ->).
  exists od, city, (map (fun e => snd (fst e)) (groupby2_size od city)),
    (sizes2_Z (groupby2_size od city)).
  split; [exact Hod|]. split; [exact Hcity|]. split; [reflexivity|].
  split; [reflexivity|].
  pose proof (city_counts_sum od city) as Hsum.
  split; [exact Hsum|].
  intros Hlen Hall c n Hin.
  unfold city_stats in Hin. rewrite sort_values_desc_perm in Hin.
  apply groupby_size_spec in Hin as (_ & Hnn & ->).
  rewrite (Hsum c Hnn). f_equal. now apply count_dated_all.
Qed.

Lemma city_daily_counts_add_up_witness :
  exists city_trends od city cities counts,
    getcol sample_table "order_date" = inr od /\
    getcol sample_table "city" = inr city /\
    getcol city_trends "city" = inr cities /\
    getcol city_trends "order_count" = inr (map VInt counts) /\
    (forall c, notnull c = true ->
       Zsum (counts_of_city c cities counts) = Z.of_nat (count_dated c od city)) /\
    (length od = length city -> Forall (fun d => notnull d = true) od ->
     forall c n, (c, n) ∈ city_stats city ->
       Zsum (counts_of_city c cities counts) = Z.of_nat n).
Proof.
  eexists.
  eapply (city_daily_counts_add_up sample_env sample_table).
  vm_compute. reflexivity.
Defined.

(** ** Days that count in a city's average *)

Lemma groupby2_size_positive od city :
  Forall (fun n => 1 <= n) (sizes2_Z (groupby2_size od city)).
Proof.
  apply Forall_forall. intros n Hn. unfold sizes2_Z in Hn.
  apply list_elem_of_fmap in Hn as ([[d c] m] & -> & Hin).
  apply groupby2_size_spec in Hin as (_ & _ & _ & _ & Hm). simpl. lia.
Qed.

Lemma counts_of_city_elem c cities counts z :
  z ∈ counts_of_city c cities counts -> z ∈ counts.
Proof.
  unfold counts_of_city. intros H.
  apply list_elem_of_fmap in H as ([c' z'] & -> & Hin).
  apply list_elem_of_filter in Hin as [_ Hin].
  now apply elem_of_zip_r in Hin.
Qed.

Lemma Zsum_ge_length l : Forall (fun n => 1 <= n) l -> Z.of_nat (length l) <= Zsum l.
Proof. induction 1 as [|x l Hx _ IH]; simpl; lia. Qed.

(** X7. The average daily orders of a city is taken over the days on
    which the city has orders, not over the days of the dataset: times
    the number of those days it gives the city's dated orders, and it is
    never below 1. *)
Theorem city_means_skip_idle_days env df out city_trends df' :
  analyze_city_trends env df = (out, inr (city_trends, df')) ->
  exists od city cities counts avg,
    getcol df "order_date" = inr od /\
    getcol df "city" = inr city /\
    getcol city_trends "city" = inr cities /\
    getcol city_trends "order_count" = inr (map VInt counts) /\
    avg_daily_city city_trends = inr avg /\
    forall c m, (c, m) ∈ avg ->
      exists q,
        m = VNum q /\
        (1 <= length (counts_of_city c cities counts))%nat /\
        (q * Qnat (length (counts_of_city c cities counts))
         == Qnat (count_dated c od city))%Q /\
        (1 <= q)%Q.
Proof.
  intros H.
  apply analyze_city_trends_inv in H
    as (city & od & avg & Hcity & Hod & Hs & Havg & _ & _).
  apply city_series_inv in Hs as (ts & Hts & ->).
  exists od, city, (map (fun e => snd (fst e)) (groupby2_size od city)),
    (sizes2_Z (groupby2_size od city)), avg.
  split; [exact Hod|]. split; [exact Hcity|]. split; [reflexivity|].
  split; [reflexivity|]. split; [exact Havg|].
  destruct (groupby_mean_ints (map (fun e => snd (fst e)) (groupby2_size od city))
              (sizes2_Z (groupby2_size od city))) as (means & Hm & Hspec & _).
  unfold avg_daily_city in Havg.
  change (getcol _ "city")
    with (inr (A:=Err) (map (fun e : value * value * nat => snd (fst e))
                          (groupby2_size od city))) in Havg.
  change (getcol _ "order_count")
    with (inr (A:=Err) (map VInt (sizes2_Z (groupby2_size od city)))) in Havg.
  cbv iota in Havg. rewrite Hm in Havg. injection Havg as <-.
  intros c m Hin. rewrite sort_values_desc_perm in Hin.
  destruct (Hspec c m Hin) as (_ & Hnn & Hne & q & -> & Hq).
  remember (counts_of_city c (map (fun e => snd (fst e)) (groupby2_size od city))
              (sizes2_Z (groupby2_size od city))) as coc eqn:Hcoc.
  assert (Zsum coc = Z.of_nat (count_dated c od city)) as Hsum
    by (subst coc; now apply city_counts_sum).
  assert (Z.of_nat (length coc) <= Zsum coc) as Hge.
  { apply Zsum_ge_length. apply Forall_forall. intros z Hz. subst coc.
    apply counts_of_city_elem in Hz.
    pose proof (groupby2_size_positive od city) as Hp.
    rewrite Forall_forall in Hp. auto. }
  assert (1 <= length coc)%nat as Hlen by (destruct coc; [congruence|simpl; lia]).
  assert (0 < Qnat (length coc))%Q as Hpos.
  { unfold Qnat. change 0%Q with (inject_Z 0). rewrite <- Zlt_Qlt. lia. }
  exists q. split; [reflexivity|]. split; [exact Hlen|]. split.
  - rewrite Hq, Hsum. unfold Qnat at 3. field.
    intros E. rewrite E in Hpos. now apply Qlt_irrefl in Hpos.
  - rewrite Hq. apply Qle_shift_div_l; [exact Hpos|].
    rewrite Qmult_1_l. unfold Qnat. now rewrite <- Zle_Qle.
Qed.

Lemma city_means_skip_idle_days_witness :
  exists city_trends od city cities counts avg,
    getcol sample_table "order_date" = inr od /\
    getcol sample_table "city" = inr city /\
    getcol city_trends "city" = inr cities /\
    getcol city_trends "order_count" = inr (map VInt counts) /\
    avg_daily_city city_trends = inr avg /\
    forall c m, (c, m) ∈ avg ->
      exists q,
        m = VNum q /\
        (1 <= length (counts_of_city c cities counts))%nat /\
        (q * Qnat (length (counts_of_city c cities counts))
         == Qnat (count_dated c od city))%Q /\
        (1 <= q)%Q.
Proof.
  eexists.
  eapply (city_means_skip_idle_days sample_env sample_table).
  vm_compute. reflexivity.
Defined.

(** ** Columns that can be converted *)

Lemma to_datetime_days env s :
  Forall is_day s -> exists ts, to_datetime env s = inr ts.
Proof.
  induction s as [|v s IH]; intros H; simpl; [eauto|].
  apply Forall_cons in H as [Hv Hs]. destruct (IH Hs) as [ts ->].
  destruct Hv as [->|[d ->]]; simpl; eauto.
Qed.

Lemma to_floats_ok s :
  Forall (fun v => is_number v = true) s <-> exists xs, to_floats s = inr xs.
Proof.
  induction s as [|v s IH]; simpl.
  - split; [eauto|constructor].
  - split.
    + intros H. apply Forall_cons in H as [Hv Hs].
      apply IH in Hs as [xs ->].
      destruct v; simpl in *; try discriminate; eauto.
    + intros [xs H].
      destruct (to_float v) as [e|x] eqn:E; [discriminate|].
      destruct (to_floats s) as [e|xs'] eqn:E'; [discriminate|].
      constructor; [|apply IH; eauto].
      destruct v; simpl in *; try discriminate; reflexivity.
Qed.

(** ** The exploration stage *)

(** Run the next step of a computation whose steps are known. *)
Ltac run_step :=
  rewrite bind_run;
  first
    [ rewrite print_run
    | rewrite get_df_run
    | rewrite len_df_run
    | rewrite set_col_run
    | rewrite put_df_run
    | match goal with
      | H : getcol ?df ?c = inr _ |- context [col ?c ?df] => rewrite col_run, H
      end
    | match goal with
      | H : ?r = inr _ |- context [lift ?r] => rewrite H; cbn [lift]; rewrite mret_run
      end ];
  cbn match.

Lemma explore_data_ok df v t f nt nf :
  getcol df "order_value" = inr v ->
  getcol df "delivery_time_min" = inr t -> count_negative t = inr nt ->
  getcol df "delivery_fee" = inr f -> count_negative f = inr nf ->
  explore_data df
  = ([Line banner; Line "DATA EXPLORATION"; Line banner;
      Line "Dataset Info:"; ShowInfo df;
      Line "Summary Statistics:"; ShowDescribe df;
      Line "Missing Values:"; ShowSeries (isnull_sum df);
      Line "Data Quality Checks:";
      Stat "Zero order values: {}" [VInt (count_zero v)];
      Stat "Negative delivery times: {}" [VInt nt];
      Stat "Negative delivery fees: {}" [VInt nf]],
     inr (tt, df)).
Proof.
  intros Hv Ht Hnt Hf Hnf. unfold explore_data.
  repeat run_step. rewrite print_run, !after_run. reflexivity.
Qed.

Lemma explore_data_out df out r df' :
  explore_data df = (out, inr (r, df')) ->
  exists v t f nt nf,
    getcol df "order_value" = inr v /\
    getcol df "delivery_time_min" = inr t /\ count_negative t = inr nt /\
    getcol df "delivery_fee" = inr f /\ count_negative f = inr nf /\
    out = [Line banner; Line "DATA EXPLORATION"; Line banner;
           Line "Dataset Info:"; ShowInfo df;
           Line "Summary Statistics:"; ShowDescribe df;
           Line "Missing Values:"; ShowSeries (isnull_sum df);
           Line "Data Quality Checks:";
           Stat "Zero order values: {}" [VInt (count_zero v)];
           Stat "Negative delivery times: {}" [VInt nt];
           Stat "Negative delivery fees: {}" [VInt nf]].
Proof.
  unfold explore_data. intros H. run_ok H.
  rewrite print_run in H. injection H as <- <- <-.
  eexists _, _, _, _, _. repeat (split; [eassumption|]). reflexivity.
Qed.

Ltac run_fail :=
  rewrite bind_run;
  first
    [ match goal with
      | H : getcol ?df ?c = inl _ |- context [col ?c ?df] => rewrite col_run, H
      end
    | match goal with
      | H : ?r = inl _ |- context [lift ?r] => rewrite H; cbn [lift]; unfold raise
      end ];
  cbn match; rewrite ?after_run.

Lemma getcol_err f c e : getcol f c = inl e -> e = KeyError c.
Proof.
  unfold getcol. destruct (assoc c (cols f)); [discriminate|].
  intros H. now injection H as <-.
Qed.

Lemma to_floats_err s e : to_floats s = inl e -> e = TypeError.
Proof.
  induction s as [|v s IH]; simpl; [discriminate|].
  destruct (to_float v) as [e'|x] eqn:E.
  - intros H. injection H as <-. destruct v; simpl in E; try discriminate;
      now injection E as <-.
  - destruct (to_floats s) as [e'|xs]; [|discriminate].
    intros H. injection H as <-. now apply IH.
Qed.

Lemma count_negative_ok s :
  Forall (fun v => is_number v = true) s <-> exists n, count_negative s = inr n.
Proof.
  rewrite to_floats_ok. unfold count_negative. split.
  - intros [xs ->]. eauto.
  - intros [n H]. destruct (to_floats s) as [e|xs]; [discriminate|eauto].
Qed.

Lemma count_negative_err s e : count_negative s = inl e -> e = TypeError.
Proof.
  unfold count_negative. destruct (to_floats s) as [e'|xs] eqn:E; [|discriminate].
  intros H. injection H as <-. eapply to_floats_err; eauto.
Qed.

(** X9. The exploration stage succeeds exactly when the table has the
    columns [order_value], [delivery_time_min] and [delivery_fee] and the
    two delivery columns hold nothing but numbers and NaN.  Otherwise it
    raises a [KeyError] for the first missing column or a [TypeError],
    after the info, summary and missing-value listings have been
    printed. *)
Theorem explore_data_outcome df :
  ((exists out, explore_data df = (out, inr (tt, df))) <->
   (exists v t f,
      getcol df "order_value" = inr v /\
      getcol df "delivery_time_min" = inr t /\
      Forall (fun x => is_number x = true) t /\
      getcol df "delivery_fee" = inr f /\
      Forall (fun x => is_number x = true) f)) /\
  (forall out e,
     explore_data df = (out, inl e) ->
     (e = KeyError "order_value" \/ e = KeyError "delivery_time_min" \/
      e = KeyError "delivery_fee" \/ e = TypeError) /\
     exists checks,
       out = [Line banner; Line "DATA EXPLORATION"; Line banner;
              Line "Dataset Info:"; ShowInfo df;
              Line "Summary Statistics:"; ShowDescribe df;
              Line "Missing Values:"; ShowSeries (isnull_sum df);
              Line "Data Quality Checks:"] ++ checks).
Proof.
  split.
  - split.
    + intros [out H]. apply explore_data_out in H
        as (v & t & f & nt & nf & Hv & Ht & Hnt & Hf & Hnf & _).
      exists v, t, f. repeat (split; [assumption|]).
      split; [apply count_negative_ok; eauto|].
      split; [assumption|apply count_negative_ok; eauto].
    + intros (v & t & f & Hv & Ht & Hnt & Hf & Hnf).
      apply count_negative_ok in Hnt as [nt Hnt].
      apply count_negative_ok in Hnf as [nf Hnf].
      eexists. eapply explore_data_ok; eauto.
  - intros out e.
    destruct (getcol df "order_value") as [e1|v] eqn:Hv.
    { unfold explore_data. repeat run_step. run_fail.
      intros H. injection H as <- <-. apply getcol_err in Hv.
      split; [auto|]. exists []. reflexivity. }
    destruct (getcol df "delivery_time_min") as [e1|t] eqn:Ht.
    { unfold explore_data. repeat run_step. run_fail.
      intros H. injection H as <- <-. apply getcol_err in Ht.
      split; [auto|]. eexists. reflexivity. }
    destruct (count_negative t) as [e1|nt] eqn:Hnt.
    { unfold explore_data. repeat run_step. run_fail.
      intros H. injection H as <- <-. apply count_negative_err in Hnt.
      split; [auto|]. eexists. reflexivity. }
    destruct (getcol df "delivery_fee") as [e1|f] eqn:Hf.
    { unfold explore_data. repeat run_step. run_fail.
      intros H. injection H as <- <-. apply getcol_err in Hf.
      split; [auto 6|]. eexists. reflexivity. }
    destruct (count_negative f) as [e1|nf] eqn:Hnf.
    { unfold explore_data. repeat run_step. run_fail.
      intros H. injection H as <- <-. apply count_negative_err in Hnf.
      split; [auto 6|]. eexists. reflexivity. }
    rewrite (explore_data_ok df v t f nt nf Hv Ht Hnt Hf Hnf). discriminate.
Qed.

Lemma explore_data_outcome_witness :
  exists out, explore_data sample_table = (out, inr (tt, sample_table)).
Proof.
  apply (proj1 (explore_data_outcome sample_table)).
  eexists _, _, _.
  split; [vm_compute; reflexivity|].
  split; [vm_compute; reflexivity|].
  split; [repeat constructor|].
  split; [vm_compute; reflexivity|].
  repeat constructor.
Defined.

Lemma count_zero_notnull v : 0 <= count_zero v <= Z.of_nat (count_notnull v).
Proof.
  unfold count_zero, count_notnull. split; [lia|]. apply inj_le.
  induction v as [|x v IH]; simpl; [lia|].
  rewrite !filter_cons.
  destruct (decide (is_zero x = true)) as [Hz|Hz].
  - destruct (decide (notnull x = true)) as [Hn|Hn]; [simpl; lia|].
    destruct x; try discriminate; exfalso; apply Hn; reflexivity.
  - destruct (decide (notnull x = true)); simpl; lia.
Qed.

Lemma count_negative_notnull s n :
  count_negative s = inr n -> 0 <= n <= Z.of_nat (count_notnull s).
Proof.
  unfold count_negative, count_notnull.
  destruct (to_floats s) as [e|xs] eqn:E; [discriminate|].
  intros H. injection H as <-. split; [lia|]. apply inj_le.
  revert xs E. induction s as [|v s IH]; simpl; intros xs E.
  - injection E as <-. simpl. lia.
  - destruct (to_float v) as [e|x] eqn:Ev; [discriminate|].
    destruct (to_floats s) as [e|xs'] eqn:Es; [discriminate|].
    injection E as <-. specialize (IH xs' eq_refl).
    rewrite !filter_cons.
    destruct (decide (is_negative x = true)) as [Hx|Hx].
    + destruct (decide (notnull v = true)) as [Hn|Hn]; [simpl; lia|].
      destruct v; try (exfalso; apply Hn; reflexivity).
      simpl in Ev. injection Ev as <-. discriminate.
    + destruct (decide (notnull v = true)); simpl; lia.
Qed.

Lemma isnull_sum_entry df c s :
  (c, s) ∈ cols df ->
  (VStr c, VInt (Z.of_nat (length s) - Z.of_nat (count_notnull s))) ∈ isnull_sum df.
Proof.
  intros Hin. unfold isnull_sum.
  apply (list_elem_of_fmap_2
           (fun cs => (VStr (fst cs),
                       int_cell (length (filter (fun v => is_null v = true) (snd cs))))))
    in Hin.
  simpl in Hin.
  replace (VInt (Z.of_nat (length s) - Z.of_nat (count_notnull s)))
    with (int_cell (length (filter (fun v => is_null v = true) s))); [exact Hin|].
  unfold int_cell, count_notnull. f_equal.
  rewrite (filter_split_length is_null s).
  assert (length (filter (fun v => is_null v = false) s)
          = length (filter (fun v => notnull v = true) s)) as ->; [|lia].
  apply filter_length_ext_prop. intros v. unfold notnull.
  destruct (is_null v); simpl; split; congruence.
Qed.

Lemma getcol_elem f c s : getcol f c = inr s -> (c, s) ∈ cols f.
Proof.
  unfold getcol. destruct (assoc c (cols f)) as [s'|] eqn:E; [|discriminate].
  intros H. injection H as <-. now apply assoc_elem.
Qed.

(** X10. A missing cell is counted by none of the three data-quality
    checks: each count lies between 0 and the number of non-null cells of
    its column, while the missing cells of the column are reported under
    "Missing Values". *)
Theorem quality_checks_skip_missing_cells df out r df' :
  explore_data df = (out, inr (r, df')) ->
  exists v t f nz nt nf,
    getcol df "order_value" = inr v /\
    getcol df "delivery_time_min" = inr t /\
    getcol df "delivery_fee" = inr f /\
    out !! 8%nat = Some (ShowSeries (isnull_sum df)) /\
    out !! 10%nat = Some (Stat "Zero order values: {}" [VInt nz]) /\
    out !! 11%nat = Some (Stat "Negative delivery times: {}" [VInt nt]) /\
    out !! 12%nat = Some (Stat "Negative delivery fees: {}" [VInt nf]) /\
    0 <= nz <= Z.of_nat (count_notnull v) /\
    0 <= nt <= Z.of_nat (count_notnull t) /\
    0 <= nf <= Z.of_nat (count_notnull f) /\
    (VStr "order_value", VInt (Z.of_nat (length v) - Z.of_nat (count_notnull v)))
      ∈ isnull_sum df /\
    (VStr "delivery_time_min", VInt (Z.of_nat (length t) - Z.of_nat (count_notnull t)))
      ∈ isnull_sum df /\
    (VStr "delivery_fee", VInt (Z.of_nat (length f) - Z.of_nat (count_notnull f)))
      ∈ isnull_sum df.
Proof.
  intros H. apply explore_data_out in H
    as (v & t & f & nt & nf & Hv & Ht & Hnt & Hf & Hnf & ->).
  exists v, t, f, (count_zero v), nt, nf.
  repeat (split; [first [assumption | reflexivity]|]).
  split; [apply count_zero_notnull|].
  split; [now apply count_negative_notnull|].
  split; [now apply count_negative_notnull|].
  split; [|split]; apply isnull_sum_entry; now apply getcol_elem.
Qed.

Lemma quality_checks_skip_missing_cells_witness :
  exists (out : list Out) v t f nz nt nf,
    getcol sample_table "order_value" = inr v /\
    getcol sample_table "delivery_time_min" = inr t /\
    getcol sample_table "delivery_fee" = inr f /\
    out !! 8%nat = Some (ShowSeries (isnull_sum sample_table)) /\
    out !! 10%nat = Some (Stat "Zero order values: {}" [VInt nz]) /\
    out !! 11%nat = Some (Stat "Negative delivery times: {}" [VInt nt]) /\
    out !! 12%nat = Some (Stat "Negative delivery fees: {}" [VInt nf]) /\
    0 <= nz <= Z.of_nat (count_notnull v) /\
    0 <= nt <= Z.of_nat (count_notnull t) /\
    0 <= nf <= Z.of_nat (count_notnull f) /\
    (VStr "order_value", VInt (Z.of_nat (length v) - Z.of_nat (count_notnull v)))
      ∈ isnull_sum sample_table /\
    (VStr "delivery_time_min", VInt (Z.of_nat (length t) - Z.of_nat (count_notnull t)))
      ∈ isnull_sum sample_table /\
    (VStr "delivery_fee", VInt (Z.of_nat (length f) - Z.of_nat (count_notnull f)))
      ∈ isnull_sum sample_table.
Proof.
  eexists.
  eapply (quality_checks_skip_missing_cells sample_table _ tt sample_table).
  vm_compute. reflexivity.
Defined.

(** ** The charts *)

Lemma lineplot_run data x y hue df :
  has_col data x = true -> has_col data y = true ->
  match hue with Some h => has_col data h = true | None => True end ->
  lineplot data x y hue df
  = ([], inr ({| plot_data := data; plot_x := x; plot_y := y; plot_hue := hue |}, df)).
Proof.
  intros Hx Hy Hh. unfold lineplot. rewrite Hx, Hy.
  destruct hue as [h|]; [rewrite Hh|]; reflexivity.
Qed.

(** The chart stage on frames that have the columns it draws. *)
Lemma create_visualizations_run env daily_orders city_trends df :
  has_col daily_orders "order_date" = true ->
  has_col daily_orders "rolling_avg" = true ->
  has_col daily_orders "order_count" = true ->
  has_col city_trends "order_date" = true ->
  has_col city_trends "order_count" = true ->
  has_col city_trends "city" = true ->
  create_visualizations env daily_orders city_trends df
  = if can_save env "daily_orders_trend.png" then
      if can_save env "city_trends.png" then
        ([Line banner; Line "CREATING VISUALIZATIONS"; Line banner;
          SaveFig "daily_orders_trend.png"
            "Talabat UAE - Daily Orders Trend (7-Day Moving Average)"
            [rolling_plot daily_orders; daily_plot daily_orders];
          Line "✓ Daily orders trend plot saved";
          SaveFig "city_trends.png" "Talabat UAE - Daily Orders by City"
            [city_plot city_trends];
          Line "✓ City trends plot saved"],
         inr (tt, df))
      else
        ([Line banner; Line "CREATING VISUALIZATIONS"; Line banner;
          SaveFig "daily_orders_trend.png"
            "Talabat UAE - Daily Orders Trend (7-Day Moving Average)"
            [rolling_plot daily_orders; daily_plot daily_orders];
          Line "✓ Daily orders trend plot saved"],
         inl (SaveError "city_trends.png"))
    else
      ([Line banner; Line "CREATING VISUALIZATIONS"; Line banner],
       inl (SaveError "daily_orders_trend.png")).
Proof.
  intros H1 H2 H3 H4 H5 H6. unfold create_visualizations.
  do 3 run_step.
  rewrite bind_run, (lineplot_run daily_orders _ _ None df H1 H2 I). cbn match.
  rewrite bind_run, (lineplot_run daily_orders _ _ None df H1 H3 I). cbn match.
  rewrite bind_run. unfold savefig at 1.
  destruct (can_save env "daily_orders_trend.png"); [|reflexivity].
  rewrite print_run. cbn match. run_step.
  rewrite bind_run, (lineplot_run city_trends _ _ (Some "city") df H4 H5 H6). cbn match.
  rewrite bind_run. unfold savefig.
  destruct (can_save env "city_trends.png"); [|reflexivity].
  reflexivity.
Qed.

(** X11. On the series returned by the daily and the city stage the
    chart stage never fails for lack of a column; its outcome depends on
    the two files only.  If both can be written it saves the daily chart
    (rolling average and daily counts) and then the city chart (one line
    per city); if only the first can be written, that file has been saved
    when the stage fails; if the first cannot be written nothing is
    saved. *)
Theorem charts_need_only_writable_files
    env df o3 daily_orders df1 o4 city_trends df2 df3 :
  analyze_daily_trends env df = (o3, inr (daily_orders, df1)) ->
  analyze_city_trends env df = (o4, inr (city_trends, df2)) ->
  create_visualizations env daily_orders city_trends df3
  = if can_save env "daily_orders_trend.png" then
      if can_save env "city_trends.png" then
        ([Line banner; Line "CREATING VISUALIZATIONS"; Line banner;
          SaveFig "daily_orders_trend.png"
            "Talabat UAE - Daily Orders Trend (7-Day Moving Average)"
            [rolling_plot daily_orders; daily_plot daily_orders];
          Line "✓ Daily orders trend plot saved";
          SaveFig "city_trends.png" "Talabat UAE - Daily Orders by City"
            [city_plot city_trends];
          Line "✓ City trends plot saved"],
         inr (tt, df3))
      else
        ([Line banner; Line "CREATING VISUALIZATIONS"; Line banner;
          SaveFig "daily_orders_trend.png"
            "Talabat UAE - Daily Orders Trend (7-Day Moving Average)"
            [rolling_plot daily_orders; daily_plot daily_orders];
          Line "✓ Daily orders trend plot saved"],
         inl (SaveError "city_trends.png"))
    else
      ([Line banner; Line "CREATING VISUALIZATIONS"; Line banner],
       inl (SaveError "daily_orders_trend.png")).
Proof.
  intros Hd Hc.
  apply analyze_daily_trends_inv in Hd as (od & _ & Hd & _).
  apply daily_series_inv in Hd as (ts & _ & ->).
  apply analyze_city_trends_inv in Hc as (city & od' & avg & _ & _ & Hc & _).
  apply city_series_inv in Hc as (ts' & _ & ->).
  apply create_visualizations_run; reflexivity.
Qed.

Lemma charts_need_only_writable_files_witness :
  exists daily_orders city_trends,
    create_visualizations sample_env daily_orders city_trends sample_table
    = if can_save sample_env "daily_orders_trend.png" then
        if can_save sample_env "city_trends.png" then
          ([Line banner; Line "CREATING VISUALIZATIONS"; Line banner;
            SaveFig "daily_orders_trend.png"
              "Talabat UAE - Daily Orders Trend (7-Day Moving Average)"
              [rolling_plot daily_orders; daily_plot daily_orders];
            Line "✓ Daily orders trend plot saved";
            SaveFig "city_trends.png" "Talabat UAE - Daily Orders by City"
              [city_plot city_trends];
            Line "✓ City trends plot saved"],
           inr (tt, sample_table))
        else
          ([Line banner; Line "CREATING VISUALIZATIONS"; Line banner;
            SaveFig "daily_orders_trend.png"
              "Talabat UAE - Daily Orders Trend (7-Day Moving Average)"
              [rolling_plot daily_orders; daily_plot daily_orders];
            Line "✓ Daily orders trend plot saved"],
           inl (SaveError "city_trends.png"))
      else
        ([Line banner; Line "CREATING VISUALIZATIONS"; Line banner],
         inl (SaveError "daily_orders_trend.png")).
Proof.
  eexists _, _.
  eapply (charts_need_only_writable_files sample_env sample_table).
  - vm_compute. reflexivity.
  - vm_compute. reflexivity.
Defined.

(** ** The figures of the insights stage *)

Lemma print_stat_run text d r v shown df :
  r = inr v -> fmt d v = inr shown ->
  print_stat text d r df = ([Stat text [shown]], inr (tt, df)).
Proof.
  intros -> Hs. unfold print_stat.
  rewrite bind_run. cbn [lift]. rewrite mret_run. cbn match.
  rewrite bind_run, Hs. cbn [lift]. rewrite mret_run. cbn match.
  rewrite print_run. reflexivity.
Qed.

Lemma print_stat_inv text d r df out u df' :
  print_stat text d r df = (out, inr (u, df')) ->
  exists v shown, r = inr v /\ fmt d v = inr shown /\
    out = [Stat text [shown]] /\ df' = df.
Proof.
  unfold print_stat. intros H. run_ok H.
  rewrite print_run in H. injection H as <- <- <-.
  eauto 10.
Qed.

Lemma fmt_shown d v :
  (v = VNull \/ exists q, v = VNum q) -> fmt d v = inr (shown_cell d v).
Proof. intros [->|[q ->]]; reflexivity. Qed.

Lemma series_sum_cell s total :
  series_sum s = inr total -> exists q, total = VNum q.
Proof.
  unfold series_sum. destruct (to_floats s); [discriminate|].
  destruct (forallb is_int s); intros H; injection H as <-; eauto.
Qed.

Lemma mean_of_cell obs : mean_of obs = VNull \/ exists q, mean_of obs = VNum q.
Proof. destruct obs; simpl; eauto. Qed.

Lemma median_of_cell obs : median_of obs = VNull \/ exists q, median_of obs = VNum q.
Proof.
  unfold median_of. destruct (length (sort_desc Qleb obs)); [auto|].
  destruct (Nat.even _); eauto.
Qed.


(** What the insights stage prints. *)
Lemma analyze_business_insights_out df out r df' :
  analyze_business_insights df = (out, inr (r, df')) ->
  exists v t f pay promo cat xs ts fs total,
    getcol df "order_value" = inr v /\ to_floats v = inr xs /\
    getcol df "delivery_time_min" = inr t /\ to_floats t = inr ts /\
    getcol df "delivery_fee" = inr f /\ to_floats f = inr fs /\
    getcol df "payment_method" = inr pay /\
    getcol df "promo_code_used" = inr promo /\
    getcol df "restaurant_category" = inr cat /\
    series_sum v = inr total /\
    out = [Line banner; Line "BUSINESS INSIGHTS"; Line banner;
           Line "Order Value Analysis:";
           Stat "Average order value: AED {:.2f}" [shown_cell 2 (mean_of (observed xs))];
           Stat "Median order value: AED {:.2f}" [shown_cell 2 (median_of (observed xs))];
           Stat "Total revenue: AED {:,.2f}" [shown_cell 2 total];
           Line "Delivery Analysis:";
           Stat "Average delivery time: {:.1f} minutes"
             [shown_cell 1 (mean_of (observed ts))];
           Stat "Average delivery fee: AED {:.2f}"
             [shown_cell 2 (mean_of (observed fs))];
           Line "Payment Methods:"]
          ++ map (share_out (nrows df)) (value_counts pay)
          ++ [Line "Promo Code Usage:"]
          ++ map (share_out (nrows df)) (value_counts promo)
          ++ [Line "Top Restaurant Categories:"]
          ++ map (share_out (nrows df)) (take 5 (value_counts cat)).
Proof.
  unfold analyze_business_insights. intros H. run_ok H.
  repeat match goal with
  | Hs : print_stat _ _ _ _ = (_, inr (_, _)) |- _ =>
      apply print_stat_inv in Hs as (? & ? & ? & ? & -> & ->)
  end.
  rewrite print_each_shares in *.
  repeat match goal with
  | Hs : (_, _) = (_, _) |- _ => injection Hs as <- <- <-
  end.
  rewrite Hrun in Hrun1, Hrun3.
  injection Hrun1 as <-. injection Hrun3 as <-.
  match goal with
  | Hs : series_sum a = inr ?x |- _ =>
      destruct (series_sum_cell _ _ Hs) as [total ->]; rename Hs into Hsum
  end.
  unfold series_mean, series_median in *.
  destruct (to_floats a) as [e|xs] eqn:Exs; [discriminate|].
  destruct (to_floats a5) as [e|ts] eqn:Ets; [discriminate|].
  destruct (to_floats a7) as [e|fs] eqn:Efs; [discriminate|].
  repeat match goal with
  | Hs : inr (mean_of _) = inr _ |- _ => injection Hs as <-
  | Hs : inr (median_of _) = inr _ |- _ => injection Hs as <-
  end.
  repeat match goal with
  | Hs : fmt _ (mean_of ?o) = inr _ |- _ =>
      rewrite (fmt_shown _ _ (mean_of_cell o)) in Hs; injection Hs as <-
  | Hs : fmt _ (median_of ?o) = inr _ |- _ =>
      rewrite (fmt_shown _ _ (median_of_cell o)) in Hs; injection Hs as <-
  | Hs : fmt _ (VNum _) = inr _ |- _ => cbn [fmt] in Hs; injection Hs as <-
  end.
  exists a, a5, a7, a9, a11, a13, xs, ts, fs, (VNum total).
  repeat (split; [first [assumption | reflexivity]|]). reflexivity.
Qed.

(** ** Shares that are percentages *)

Lemma round_half_even_between a b q :
  (inject_Z a - (1 # 2) < q)%Q -> (q < inject_Z b + (1 # 2))%Q ->
  a <= round_half_even q <= b.
Proof.
  intros Ha Hb.
  pose proof (round_half_even_error q) as Hr.
  apply Qabs_Qle_condition in Hr. destruct Hr as [Hr1 Hr2].
  remember (round_half_even q) as z eqn:Ez. clear Ez.
  assert (inject_Z (a - 1) < inject_Z z)%Q as H1.
  { unfold Z.sub. rewrite inject_Z_plus, inject_Z_opp. change (inject_Z 1) with 1%Q. lra. }
  assert (inject_Z z < inject_Z (b + 1))%Q as H2.
  { rewrite inject_Z_plus. change (inject_Z 1) with 1%Q. lra. }
  rewrite <- Zlt_Qlt in H1, H2. lia.
Qed.

Lemma printed_1_between q : (- (1 # 20) < q)%Q -> (q < 100 + (1 # 20))%Q ->
  (0 <= printed 1 q)%Q /\ (printed 1 q <= 100)%Q.
Proof.
  intros H0 H100. unfold printed, round_dec.
  change (pow10 1) with 10%Q.
  destruct (round_half_even_between 0 1000 (q * 10)) as [Hlo Hhi].
  - change (inject_Z 0) with 0%Q. lra.
  - change (inject_Z 1000) with 1000%Q. lra.
  - split.
    + apply Qle_shift_div_l; [reflexivity|]. rewrite Qmult_0_l.
      change 0%Q with (inject_Z 0). now rewrite <- Zle_Qle.
    + apply Qle_shift_div_r; [reflexivity|].
      change (100 * 10)%Q with (inject_Z 1000). now rewrite <- Zle_Qle.
Qed.

Lemma percentage_between n total :
  (n <= total)%nat ->
  (0 <= percentage n total)%Q /\ (percentage n total <= 100)%Q.
Proof.
  intros Hn. unfold percentage.
  destruct (fraction_between n total Hn) as [H0 H1]. split; lra.
Qed.

(** A share line of a column of a well-formed table. *)
Lemma share_of_column df c s e :
  wf_frame df -> getcol df c = inr s -> e ∈ value_counts s ->
  (0 < nrows df)%nat /\ (1 <= snd e <= nrows df)%nat /\
  (0 <= printed 1 (percentage_f64 (snd e) (nrows df)))%Q /\
  (printed 1 (percentage_f64 (snd e) (nrows df)) <= 100)%Q.
Proof.
  intros Hwf Hs He. destruct e as [k n].
  apply value_counts_spec in He as (Hk & _ & ->). simpl.
  pose proof (getcol_length _ _ _ Hwf Hs) as Hlen.
  pose proof (count_equal_elem k s Hk) as Hpos.
  pose proof (count_equal_le k s) as Hle.
  assert (0 < nrows df)%nat as Hrows by lia.
  split; [exact Hrows|]. split; [lia|].
  assert (count_equal k s <= nrows df)%nat as Hn by lia.
  destruct (percentage_between _ _ Hn) as [P0 P100].
  pose proof (percentage_f64_error _ _ Hn) as E.
  apply Qabs_Qle_condition in E. rewrite FLOAT_SLACK_value in E.
  apply printed_1_between; lra.
Qed.

(** X12. Every frequency line the insights stage prints for a
    well-formed table shows a count between 1 and the number of rows
    and, as its percentage, the digits that [.1f] prints of the float
    [count / len(df) * 100], a number between 0 and 100; in particular
    [count / len(df)] is only evaluated for a table that has rows, so it
    never divides by zero. *)
Theorem shares_are_percentages df out r df' :
  wf_frame df ->
  analyze_business_insights df = (out, inr (r, df')) ->
  forall args, Stat "{}: {} ({:.1f}%)" args ∈ out ->
    exists k n,
      args = [k; VInt (Z.of_nat n);
              VNum (printed 1 (percentage_f64 n (nrows df)))] /\
      (0 < nrows df)%nat /\ (1 <= n <= nrows df)%nat /\
      (0 <= printed 1 (percentage_f64 n (nrows df)))%Q /\
      (printed 1 (percentage_f64 n (nrows df)) <= 100)%Q.
Proof.
  intros Hwf H args Hin.
  apply analyze_business_insights_out in H
    as (v & t & f & pay & promo & cat & xs & ts & fs & total
        & _ & _ & _ & _ & _ & _ & Hpay & Hpromo & Hcat & _ & ->).
  assert (exists c s e, getcol df c = inr s /\ e ∈ value_counts s /\
            Stat "{}: {} ({:.1f}%)" args = share_out (nrows df) e)
    as (c & s & e & Hs & He & Heq).
  { repeat (apply elem_of_cons in Hin as [Hin|Hin]; [discriminate Hin|]).
    apply elem_of_app in Hin as [Hin|Hin].
    { apply list_elem_of_fmap in Hin as (e & -> & He). eauto 10. }
    apply elem_of_cons in Hin as [Hin|Hin]; [discriminate Hin|].
    apply elem_of_app in Hin as [Hin|Hin].
    { apply list_elem_of_fmap in Hin as (e & -> & He). eauto 10. }
    apply elem_of_cons in Hin as [Hin|Hin]; [discriminate Hin|].
    apply list_elem_of_fmap in Hin as (e & -> & He).
    apply elem_of_take in He as (i & He & _).
    apply list_elem_of_lookup_2 in He. eauto 10. }
  destruct (share_of_column df c s e Hwf Hs He) as (Hrows & Hn & Hlo & Hhi).
  unfold share_out in Heq. injection Heq as ->.
  exists (fst e), (snd e). split; [reflexivity|]. auto.
Qed.

Lemma shares_are_percentages_witness :
  exists k n,
    [VStr "Card"; VInt 1; VNum (333 # 10)]
    = [k; VInt (Z.of_nat n);
       VNum (printed 1 (percentage_f64 n (nrows sample_table)))] /\
    (0 < nrows sample_table)%nat /\ (1 <= n <= nrows sample_table)%nat /\
    (0 <= printed 1 (percentage_f64 n (nrows sample_table)))%Q /\
    (printed 1 (percentage_f64 n (nrows sample_table)) <= 100)%Q.
Proof.
  eapply (shares_are_percentages sample_table _ tt sample_table).
  - repeat constructor.
  - vm_compute. reflexivity.
  - vm_compute. repeat first [apply list_elem_of_here | apply list_elem_of_further].
Defined.

(** ** The order of the frequency tables *)

Lemma value_counts_sorted s :
  StronglySorted (fun a b => (snd b <= snd a)%nat) (value_counts s).
Proof. apply sort_values_desc_counts. Qed.

Lemma count_equal_compat k k' s :
  value_eqb k k' = true -> count_equal k s = count_equal k' s.
Proof.
  intros E. unfold count_equal. apply filter_length_ext. intros x _.
  rewrite (value_eqb_sym k x), (value_eqb_sym k' x). now apply value_eqb_compat.
Qed.

(** X13. The payment-method and promo-code distributions list every
    value that occurs in the column exactly once, with the number of its
    rows, and no value is followed by a more frequent one. *)
Theorem distributions_list_each_value_once df out r df' :
  analyze_business_insights df = (out, inr (r, df')) ->
  exists pay promo,
    getcol df "payment_method" = inr pay /\
    getcol df "promo_code_used" = inr promo /\
    (exists pre post,
       out = pre ++ [Line "Payment Methods:"]
                 ++ map (share_out (nrows df)) (value_counts pay)
                 ++ [Line "Promo Code Usage:"]
                 ++ map (share_out (nrows df)) (value_counts promo)
                 ++ post) /\
    (forall s, s = pay \/ s = promo ->
       StronglySorted (fun a b => (snd b <= snd a)%nat) (value_counts s) /\
       distinct_keys (value_counts s) /\
       (forall k, k ∈ s -> notnull k = true ->
          exists k' n, (k', n) ∈ value_counts s /\ value_eqb k k' = true /\
                       n = count_equal k s)).
Proof.
  intros H.
  apply analyze_business_insights_out in H
    as (v & t & f & pay & promo & cat & xs & ts & fs & total
        & _ & _ & _ & _ & _ & _ & Hpay & Hpromo & Hcat & _ & ->).
  exists pay, promo. split; [exact Hpay|]. split; [exact Hpromo|]. split.
  { eexists (_ :: _ :: _ :: _ :: _ :: _ :: _ :: _ :: _ :: _ :: []), _.
    reflexivity. }
  intros s _. split; [apply value_counts_sorted|].
  split; [apply value_counts_distinct|].
  intros k Hk Hnn.
  destruct (value_counts_complete s k Hk Hnn) as (k' & n & Hin & Heq).
  exists k', n. split; [exact Hin|]. split; [exact Heq|].
  apply value_counts_spec in Hin as (_ & _ & ->).
  symmetry. now apply count_equal_compat.
Qed.

Lemma distributions_list_each_value_once_witness :
  exists (out : list Out) pay promo,
    getcol sample_table "payment_method" = inr pay /\
    getcol sample_table "promo_code_used" = inr promo /\
    (exists pre post,
       out = pre ++ [Line "Payment Methods:"]
                 ++ map (share_out (nrows sample_table)) (value_counts pay)
                 ++ [Line "Promo Code Usage:"]
                 ++ map (share_out (nrows sample_table)) (value_counts promo)
                 ++ post) /\
    (forall s, s = pay \/ s = promo ->
       StronglySorted (fun a b => (snd b <= snd a)%nat) (value_counts s) /\
       distinct_keys (value_counts s) /\
       (forall k, k ∈ s -> notnull k = true ->
          exists k' n, (k', n) ∈ value_counts s /\ value_eqb k k' = true /\
                       n = count_equal k s)).
Proof.
  eexists.
  eapply (distributions_list_each_value_once sample_table _ tt sample_table).
  vm_compute. reflexivity.
Defined.

(** X14. "Top Restaurant Categories" lists five categories (all of
    them when there are fewer), each once and with the number of its
    rows, most frequent first; a category that is not listed occurs no
    more often than any category listed. *)
Theorem top_categories_are_most_frequent df out r df' :
  analyze_business_insights df = (out, inr (r, df')) ->
  exists cat shown,
    getcol df "restaurant_category" = inr cat /\
    (exists pre,
       out = pre ++ [Line "Top Restaurant Categories:"]
                 ++ map (share_out (nrows df)) shown) /\
    length shown = Nat.min 5 (length (value_counts cat)) /\
    StronglySorted (fun a b => (snd b <= snd a)%nat) shown /\
    distinct_keys shown /\
    (forall k n, (k, n) ∈ shown ->
       k ∈ cat /\ notnull k = true /\ n = count_equal k cat) /\
    (forall k, k ∈ cat -> notnull k = true ->
       (forall e, e ∈ shown -> value_eqb k (fst e) = false) ->
       forall e, e ∈ shown -> (count_equal k cat <= snd e)%nat).
Proof.
  intros H.
  destruct (analyze_business_insights_inv _ _ _ _ H)
    as (pay & promo & cat & _ & _ & Hcat & pre & ->).
  pose proof (value_counts_sorted cat) as Hs.
  pose proof (value_counts_distinct cat) as Hd.
  rewrite <- (take_drop 5 (value_counts cat)) in Hs, Hd.
  exists cat, (take 5 (value_counts cat)).
  split; [exact Hcat|]. split.
  { eexists. rewrite !app_assoc. reflexivity. }
  split; [apply length_take|].
  split; [eapply StronglySorted_app_1_l; exact Hs|].
  split.
  { clear -Hd. induction (take 5 (value_counts cat)) as [|[k n] l IH]; [exact I|].
    simpl in *. destruct Hd as [Hk Hd]. split; [|auto].
    apply Forall_app in Hk. tauto. }
  split.
  - intros k n Hin. apply elem_of_take in Hin as (i & Hin & _).
    apply list_elem_of_lookup_2 in Hin. now apply value_counts_spec.
  - intros k Hk Hnn Hout e He.
    destruct (value_counts_complete cat k Hk Hnn) as (k' & n & Hin & Heq).
    pose proof Hin as Hn. apply value_counts_spec in Hn as (_ & _ & ->).
    rewrite (count_equal_compat k k' cat Heq).
    rewrite <- (take_drop 5 (value_counts cat)) in Hin.
    apply elem_of_app in Hin as [Hin|Hin].
    + specialize (Hout _ Hin). simpl in Hout. congruence.
    + pose proof (value_counts_sorted cat) as Hs'.
      unfold value_counts, sort_values_desc in *.
      assert (desc (fun a b : value * nat => value_geb (int_cell (snd a)) (int_cell (snd b)))
                e (k', count_equal k' cat)) as Hdesc.
      { eapply sorted_take_drop; [|exact He|exact Hin].
        apply sort_desc_sorted.
        - intros a b. apply value_geb_total.
        - intros a b c. apply value_geb_trans. }
      unfold desc, int_cell in Hdesc. apply value_geb_ints in Hdesc. simpl in *. lia.
Qed.

Lemma top_categories_are_most_frequent_witness :
  exists (out : list Out) cat shown,
    getcol sample_table "restaurant_category" = inr cat /\
    (exists pre,
       out = pre ++ [Line "Top Restaurant Categories:"]
                 ++ map (share_out (nrows sample_table)) shown) /\
    length shown = Nat.min 5 (length (value_counts cat)) /\
    StronglySorted (fun a b => (snd b <= snd a)%nat) shown /\
    distinct_keys shown /\
    (forall k n, (k, n) ∈ shown ->
       k ∈ cat /\ notnull k = true /\ n = count_equal k cat) /\
    (forall k, k ∈ cat -> notnull k = true ->
       (forall e, e ∈ shown -> value_eqb k (fst e) = false) ->
       forall e, e ∈ shown -> (count_equal k cat <= snd e)%nat).
Proof.
  eexists.
  eapply (top_categories_are_most_frequent sample_table _ tt sample_table).
  vm_compute. reflexivity.
Defined.

(** ** Mean, median and total of the order values *)












(** An int64 sum that leaves int64 wraps around. *)
Example int64_sum_wraps :
  series_sum [VInt (2 ^ 62); VInt (2 ^ 62)] = inr (VNum (inject_Z (- 2 ^ 63))).
Proof. reflexivity. Qed.




(** ** Runs that complete *)

Lemma load_and_prepare_data_ok env path df0 f raw ts :
  read_csv env path = inr f ->
  getcol f "order_datetime" = inr raw ->
  to_datetime env raw = inr ts ->
  load_and_prepare_data env path df0
  = ([Line "Loading dataset...";
      Stat "Dataset loaded: {} orders from {} days"
        [int_cell (nrows f); int_cell (length (unique (dt_date ts)))]],
     inr (tt, setcol (setcol f "order_datetime" ts) "order_date" (dt_date ts))).
Proof.
  intros Hf Hraw Hts.
  pose proof (getcol_setcol_eq f "order_datetime" ts) as H1.
  pose proof (getcol_setcol_eq (setcol f "order_datetime" ts) "order_date" (dt_date ts))
    as H2.
  unfold load_and_prepare_data.
  repeat run_step. rewrite print_run, !after_run. reflexivity.
Qed.

Lemma has_col_getcol f c : has_col f c = true <-> exists s, getcol f c = inr s.
Proof.
  unfold has_col, getcol. destruct (assoc c (cols f)); split; eauto;
    try discriminate. intros [s H]. discriminate.
Qed.

(** The city stage succeeds on every table that has a city column and a
    column of order dates. *)
Lemma analyze_city_trends_ok env df city od :
  getcol df "city" = inr city ->
  getcol df "order_date" = inr od ->
  Forall is_day od ->
  exists out city_trends, analyze_city_trends env df = (out, inr (city_trends, df)).
Proof.
  intros Hcity Hod Hdays.
  assert (exists ts, to_datetime env (map (fun e => fst (fst e)) (groupby2_size od city))
                     = inr ts) as [ts Hts].
  { apply to_datetime_days. apply Forall_forall. intros d Hd.
    apply list_elem_of_fmap in Hd as ([[d' c] n] & -> & Hin). simpl.
    apply groupby2_size_spec in Hin as (_ & _ & Hin & _).
    apply elem_of_zip_l in Hin. rewrite Forall_forall in Hdays.
    auto. }
  assert (exists ct, city_series env od city = inr ct /\
            getcol ct "city"
            = inr (map (fun e => snd (fst e)) (groupby2_size od city)) /\
            getcol ct "order_count"
            = inr (map VInt (sizes2_Z (groupby2_size od city))))
    as (ct & Hct & Hk & Hv).
  { unfold city_series.
    change (getcol (reset_index2 "order_date" "city" "order_count"
                      (groupby2_size od city)) "order_date")
      with (inr (A:=Err) (map (fun e => fst (fst e)) (groupby2_size od city))).
    cbv iota. rewrite Hts. eexists. split; [reflexivity|].
    split; [reflexivity|]. unfold sizes2_Z. rewrite map_map. reflexivity. }
  destruct (groupby_mean_ints (map (fun e => snd (fst e)) (groupby2_size od city))
              (sizes2_Z (groupby2_size od city))) as (means & Hm & _).
  assert (avg_daily_city ct = inr (sort_values_desc id means)) as Havg.
  { unfold avg_daily_city. now rewrite Hk, Hv, Hm. }
  exists [Line banner; Line "CITY TRENDS ANALYSIS"; Line banner;
          Line "Total orders by city:"; ShowSeries (show_sizes (city_stats city));
          Line "Average daily orders per city:";
          ShowSeries (round_series 1 (sort_values_desc id means))], ct.
  unfold analyze_city_trends.
  repeat run_step. rewrite mret_run, !after_run. reflexivity.
Qed.

Lemma print_stat_ok text d r v df :
  r = inr v -> (v = VNull \/ exists q, v = VNum q) ->
  print_stat text d r df = ([Stat text [shown_cell d v]], inr (tt, df)).
Proof. intros Hr Hv. apply (print_stat_run text d r v); [exact Hr|now apply fmt_shown]. Qed.

(** The insights stage succeeds on every table that has its six columns,
    three of them numeric. *)
Lemma analyze_business_insights_ok df v t f pay promo cat :
  getcol df "order_value" = inr v -> Forall (fun x => is_number x = true) v ->
  getcol df "delivery_time_min" = inr t -> Forall (fun x => is_number x = true) t ->
  getcol df "delivery_fee" = inr f -> Forall (fun x => is_number x = true) f ->
  getcol df "payment_method" = inr pay ->
  getcol df "promo_code_used" = inr promo ->
  getcol df "restaurant_category" = inr cat ->
  exists out, analyze_business_insights df = (out, inr (tt, df)).
Proof.
  intros Hv Nv Ht Nt Hf Nf Hpay Hpromo Hcat.
  apply to_floats_ok in Nv as [xs Hxs].
  apply to_floats_ok in Nt as [ts Hts].
  apply to_floats_ok in Nf as [fs Hfs].
  assert (series_mean v = inr (mean_of (observed xs))) as M1
    by (unfold series_mean; now rewrite Hxs).
  assert (series_median v = inr (median_of (observed xs))) as M2
    by (unfold series_median; now rewrite Hxs).
  assert (exists total, series_sum v = inr (VNum total)) as [total M3]
    by (unfold series_sum; rewrite Hxs; destruct (forallb is_int v); eauto).
  assert (series_mean t = inr (mean_of (observed ts))) as M4
    by (unfold series_mean; now rewrite Hts).
  assert (series_mean f = inr (mean_of (observed fs))) as M5
    by (unfold series_mean; now rewrite Hfs).
  unfold analyze_business_insights.
  do 5 run_step.
  rewrite bind_run, (print_stat_ok _ _ _ _ _ M1 (mean_of_cell _)). cbn match.
  run_step.
  rewrite bind_run, (print_stat_ok _ _ _ _ _ M2 (median_of_cell _)). cbn match.
  run_step.
  rewrite bind_run, (print_stat_ok _ _ _ _ _ M3 (or_intror (ex_intro _ _ eq_refl))).
  cbn match.
  do 2 run_step.
  rewrite bind_run, (print_stat_ok _ _ _ _ _ M4 (mean_of_cell _)). cbn match.
  run_step.
  rewrite bind_run, (print_stat_ok _ _ _ _ _ M5 (mean_of_cell _)). cbn match.
  do 3 run_step.
  rewrite bind_run, print_each_shares. cbn match.
  do 3 run_step.
  rewrite bind_run, print_each_shares. cbn match.
  do 3 run_step.
  rewrite print_each_shares, !after_run. eexists. reflexivity.
Qed.

Lemma stage_frames_columns env df o3 daily df1 o4 city_trends df2 :
  analyze_daily_trends env df = (o3, inr (daily, df1)) ->
  analyze_city_trends env df = (o4, inr (city_trends, df2)) ->
  has_col daily "order_date" = true /\ has_col daily "rolling_avg" = true /\
  has_col daily "order_count" = true /\ has_col city_trends "order_date" = true /\
  has_col city_trends "order_count" = true /\ has_col city_trends "city" = true.
Proof.
  intros Hd Hc.
  apply analyze_daily_trends_inv in Hd as (od & _ & Hd & _).
  apply daily_series_inv in Hd as (ts & _ & ->).
  apply analyze_city_trends_inv in Hc as (city & od' & avg & _ & _ & Hc & _).
  apply city_series_inv in Hc as (ts' & _ & ->).
  repeat split; reflexivity.
Qed.

(** ** What a completed run has printed and written *)

Lemma saved_files_app o1 o2 : saved_files (o1 ++ o2) = saved_files o1 ++ saved_files o2.
Proof. unfold saved_files. apply omap_app. Qed.

Lemma saved_files_shares n dist : saved_files (map (share_out n) dist) = [].
Proof. induction dist as [|e dist IH]; [reflexivity|exact IH]. Qed.

Lemma shares_no_clock n dist :
  Forall (fun o => is_clock o = false) (map (share_out n) dist).
Proof. apply Forall_forall. intros o Ho. apply list_elem_of_fmap in Ho as (e & -> & _). reflexivity. Qed.

Lemma no_clock_filter l :
  Forall (fun o => is_clock o = false) l -> filter (fun o => is_clock o = true) l = [].
Proof.
  induction 1 as [|o l Ho _ IH]; [reflexivity|].
  rewrite filter_cons. destruct (decide (is_clock o = true)); [congruence|exact IH].
Qed.

Lemma load_quiet env path df0 out r df :
  load_and_prepare_data env path df0 = (out, inr (r, df)) ->
  Forall (fun o => is_clock o = false) out /\ saved_files out = [].
Proof.
  intros H. pose proof H as H'.
  apply load_inv in H' as (f & raw & ts & Hf & Hraw & Hts & _).
  rewrite (load_and_prepare_data_ok env path df0 f raw ts Hf Hraw Hts) in H.
  injection H as <- _ _. split; [repeat constructor|reflexivity].
Qed.

Lemma explore_quiet df out r df' :
  explore_data df = (out, inr (r, df')) ->
  Forall (fun o => is_clock o = false) out /\ saved_files out = [].
Proof.
  intros H. apply explore_data_out in H as (v & t & f & nt & nf & _ & _ & _ & _ & _ & ->).
  split; [repeat constructor|reflexivity].
Qed.

Lemma daily_quiet env df out daily df' :
  analyze_daily_trends env df = (out, inr (daily, df')) ->
  Forall (fun o => is_clock o = false) out /\ saved_files out = [].
Proof.
  intros H. apply analyze_daily_trends_out in H as (od & shown & top & _ & _ & _ & _ & ->).
  split; [repeat constructor|reflexivity].
Qed.

Lemma city_quiet env df out city_trends df' :
  analyze_city_trends env df = (out, inr (city_trends, df')) ->
  Forall (fun o => is_clock o = false) out /\ saved_files out = [].
Proof.
  intros H. apply analyze_city_trends_inv in H as (c & od & avg & _ & _ & _ & _ & -> & _).
  split; [repeat constructor|reflexivity].
Qed.

Lemma insights_quiet df out r df' :
  analyze_business_insights df = (out, inr (r, df')) ->
  Forall (fun o => is_clock o = false) out /\ saved_files out = [].
Proof.
  intros H. apply analyze_business_insights_out in H
    as (v & t & f & pay & promo & cat & xs & ts & fs & total
        & _ & _ & _ & _ & _ & _ & _ & _ & _ & _ & ->).
  split.
  - repeat (apply Forall_cons; split; [reflexivity|]).
    repeat first [ apply Forall_app; split
                 | apply shares_no_clock
                 | apply Forall_cons; split; [reflexivity|]
                 | apply Forall_nil_2 ].
  - rewrite !saved_files_app, !saved_files_shares. reflexivity.
Qed.

(** X17. A completed run has written exactly the two files it
    announces under "Generated files", each once and the daily chart
    first, and has read the clock exactly twice: for its first dated line
    and for its last line; nothing between the opening and the closing
    lines shows the time. *)
Theorem completed_run_output env out r df :
  run env = (out, inr (r, df)) ->
  (exists body,
     out = opening env ++ body ++ closing env /\
     Forall (fun o => is_clock o = false) body /\
     saved_files body = ["daily_orders_trend.png"; "city_trends.png"]) /\
  saved_files out = ["daily_orders_trend.png"; "city_trends.png"] /\
  filter (fun o => is_clock o = true) out
  = [Clock "Analysis started at: {}" (now env 0);
     Clock "Analysis completed at: {}" (now env 1)] /\
  can_save env "daily_orders_trend.png" = true /\
  can_save env "city_trends.png" = true.
Proof.
  intros H. unfold run in H. rewrite main_run in H.
  destruct (load_and_prepare_data env DATASET empty_frame)
    as [o1 [e|[[] df1]]] eqn:E1; [discriminate|].
  destruct (explore_data df1) as [o2 [e|[[] df2]]] eqn:E2; [discriminate|].
  pose proof (explore_data_read_only _ _ _ _ E2) as ->.
  destruct (analyze_daily_trends env df1) as [o3 [e|[daily df3]]] eqn:E3;
    [discriminate|].
  pose proof (analyze_daily_trends_read_only _ _ _ _ _ E3) as ->.
  destruct (analyze_city_trends env df1) as [o4 [e|[ct df4]]] eqn:E4;
    [discriminate|].
  pose proof (analyze_city_trends_read_only _ _ _ _ _ E4) as ->.
  destruct (create_visualizations env daily ct df1) as [o5 [e|[[] df5]]] eqn:E5;
    [discriminate|].
  pose proof (create_visualizations_read_only _ _ _ _ _ _ _ E5) as ->.
  destruct (analyze_business_insights df1) as [o6 [e|[[] df6]]] eqn:E6;
    [discriminate|].
  assert (out = opening env ++ o1 ++ o2 ++ o3 ++ o4 ++ o5 ++ o6 ++ closing env)
    as -> by congruence.
  clear H.
  destruct (load_quiet _ _ _ _ _ _ E1) as [Q1 S1].
  destruct (explore_quiet _ _ _ _ E2) as [Q2 S2].
  destruct (daily_quiet _ _ _ _ _ E3) as [Q3 S3].
  destruct (city_quiet _ _ _ _ _ E4) as [Q4 S4].
  destruct (insights_quiet _ _ _ _ E6) as [Q6 S6].
  destruct (stage_frames_columns _ _ _ _ _ _ _ _ E3 E4)
    as (C1 & C2 & C3 & C4 & C5 & C6).
  rewrite (create_visualizations_run env _ ct _ C1 C2 C3 C4 C5 C6) in E5.
  destruct (can_save env "daily_orders_trend.png"); [|discriminate].
  destruct (can_save env "city_trends.png"); [|discriminate].
  injection E5 as <-.
  assert (Forall (fun o => is_clock o = false)
            (o1 ++ o2 ++ o3 ++ o4
             ++ [Line banner; Line "CREATING VISUALIZATIONS"; Line banner;
                 SaveFig "daily_orders_trend.png"
                   "Talabat UAE - Daily Orders Trend (7-Day Moving Average)"
                   [rolling_plot daily; daily_plot daily];
                 Line "✓ Daily orders trend plot saved";
                 SaveFig "city_trends.png" "Talabat UAE - Daily Orders by City"
                   [city_plot ct];
                 Line "✓ City trends plot saved"] ++ o6)) as Qbody.
  { repeat (apply Forall_app; split; [assumption|]).
    apply Forall_app. split; [repeat constructor|assumption]. }
  assert (saved_files
            (o1 ++ o2 ++ o3 ++ o4
             ++ [Line banner; Line "CREATING VISUALIZATIONS"; Line banner;
                 SaveFig "daily_orders_trend.png"
                   "Talabat UAE - Daily Orders Trend (7-Day Moving Average)"
                   [rolling_plot daily; daily_plot daily];
                 Line "✓ Daily orders trend plot saved";
                 SaveFig "city_trends.png" "Talabat UAE - Daily Orders by City"
                   [city_plot ct];
                 Line "✓ City trends plot saved"] ++ o6)
          = ["daily_orders_trend.png"; "city_trends.png"]) as Sbody.
  { rewrite !saved_files_app, S1, S2, S3, S4, S6. reflexivity. }
  split; [|split; [|split; [|split; reflexivity]]].
  - eexists. split; [|split; [exact Qbody|exact Sbody]].
    rewrite <- !app_assoc. reflexivity.
  - rewrite !saved_files_app, S1, S2, S3, S4, S6. reflexivity.
  - rewrite !filter_app.
    rewrite (no_clock_filter o1 Q1), (no_clock_filter o2 Q2),
      (no_clock_filter o3 Q3), (no_clock_filter o4 Q4), (no_clock_filter o6 Q6).
    reflexivity.
Qed.

Lemma completed_run_output_witness :
  exists out : list Out,
    (exists body,
       out = opening sample_env ++ body ++ closing sample_env /\
       Forall (fun o => is_clock o = false) body /\
       saved_files body = ["daily_orders_trend.png"; "city_trends.png"]) /\
    saved_files out = ["daily_orders_trend.png"; "city_trends.png"] /\
    filter (fun o => is_clock o = true) out
    = [Clock "Analysis started at: {}" (now sample_env 0);
       Clock "Analysis completed at: {}" (now sample_env 1)] /\
    can_save sample_env "daily_orders_trend.png" = true /\
    can_save sample_env "city_trends.png" = true.
Proof.
  eexists.
  eapply (completed_run_output sample_env _ tt sample_table).
  vm_compute. reflexivity.
Defined.

(** ** The order of the rows *)









(** ** Order values that are not numbers *)

Lemma to_floats_not_numbers s :
  ~ Forall (fun v => is_number v = true) s -> to_floats s = inl TypeError.
Proof.
  intros Hn. destruct (to_floats s) as [e|xs] eqn:E.
  - now rewrite (to_floats_err s e E).
  - exfalso. apply Hn. apply to_floats_ok. eauto.
Qed.

(** X19. The insights stage succeeds exactly when the table has its six
    columns and [order_value], [delivery_time_min] and [delivery_fee] hold
    nothing but numbers and NaN.  An [order_value] column with text in
    it, which the exploration stage accepts, makes the stage raise a
    [TypeError] at its first figure, when only its heading has been
    printed. *)
Theorem insights_outcome df :
  ((exists out, analyze_business_insights df = (out, inr (tt, df))) <->
   (exists v t f,
      getcol df "order_value" = inr v /\ Forall (fun x => is_number x = true) v /\
      getcol df "delivery_time_min" = inr t /\ Forall (fun x => is_number x = true) t /\
      getcol df "delivery_fee" = inr f /\ Forall (fun x => is_number x = true) f /\
      has_col df "payment_method" = true /\
      has_col df "promo_code_used" = true /\
      has_col df "restaurant_category" = true)) /\
  (forall v,
     getcol df "order_value" = inr v ->
     ~ Forall (fun x => is_number x = true) v ->
     analyze_business_insights df
     = ([Line banner; Line "BUSINESS INSIGHTS"; Line banner;
         Line "Order Value Analysis:"],
        inl TypeError)).
Proof.
  split.
  - split.
    + intros [out H].
      apply analyze_business_insights_out in H
        as (v & t & f & pay & promo & cat & xs & ts & fs & total
            & Hv & Hxs & Ht & Hts & Hf & Hfs & Hpay & Hpromo & Hcat & _).
      exists v, t, f.
      split; [exact Hv|]. split; [apply to_floats_ok; eauto|].
      split; [exact Ht|]. split; [apply to_floats_ok; eauto|].
      split; [exact Hf|]. split; [apply to_floats_ok; eauto|].
      split; [|split]; apply has_col_getcol; eauto.
    + intros (v & t & f & Hv & Nv & Ht & Nt & Hf & Nf & Hpay & Hpromo & Hcat).
      apply has_col_getcol in Hpay as [pay Hpay].
      apply has_col_getcol in Hpromo as [promo Hpromo].
      apply has_col_getcol in Hcat as [cat Hcat].
      eapply analyze_business_insights_ok; eauto.
  - intros v Hv Hn.
    assert (series_mean v = inl TypeError) as Hm
      by (unfold series_mean; now rewrite (to_floats_not_numbers v Hn)).
    unfold analyze_business_insights.
    do 5 run_step.
    rewrite bind_run. unfold print_stat at 1. rewrite bind_run, Hm.
    cbn [lift]. unfold raise. cbn match. rewrite !after_run. reflexivity.
Qed.

Lemma insights_outcome_witness :
  exists out, analyze_business_insights sample_table = (out, inr (tt, sample_table)).
Proof.
  apply (proj1 (insights_outcome sample_table)).
  eexists _, _, _.
  split; [vm_compute; reflexivity|]. split; [repeat constructor|].
  split; [vm_compute; reflexivity|]. split; [repeat constructor|].
  split; [vm_compute; reflexivity|]. split; [repeat constructor|].
  split; [|split]; reflexivity.
Defined.
